(** * pykalshi: the authenticated request pipeline, pagination and the
      order-book response model, embedded in Rocq.

    Python sources embedded here:
    - [kalshi_api/exceptions.py]  (the error taxonomy)
    - [kalshi_api/client.py]      (synchronous client: construction, signing,
                                   headers, response handler,
                                   get/post/delete, listings)
    - [kalshi_api/events.py]      (Event)
    - [kalshi_api/models.py]      (OrderbookLevel, Orderbook, OrderbookResponse)
    - [pykalshi/aclient.py]       (asynchronous client: _request retry loop,
                                   get/post/put/delete, paginated_get)
    - [pykalshi/communications.py] (AsyncCommunications.get_rfqs)

    The synchronous client of [pykalshi] is not among the sources; its
    pipeline follows the specification (module [SyncKalshiClient]).

    Python values are modelled by the type [json]; a Python call that can
    raise is a function into [result]; code that talks to the network or
    mutates objects is a state-and-error computation over [World]. *)

From Stdlib Require Import ZArith QArith Ascii String DecimalString DecimalZ.
From stdpp Require Import base option list gmap strings.

Local Open Scope string_scope.
Local Open Scope Z_scope.

(** ** Python values *)

Local Set Warnings "-register-all".

(** The values that [json.loads] / [response.json()] can produce, which are
    also the values a [dict[str, Any]] of query parameters holds.  JSON
    numbers are restricted to integers.  A Python [dict] is an association
    list in insertion order whose keys are kept pairwise distinct by
    [dict_set]. *)
Inductive json : Type :=
| JNull                                   (* None *)
| JBool (b : bool)
| JNum (z : Z)
| JStr (s : string)
| JArr (l : list json)
| JObj (kvs : list (string * json)).

Abbreviation pydict := (list (string * json)).

(** Python truthiness, as used by [or], [not] and [if]. *)
Definition truthy (v : json) : bool :=
  match v with
  | JNull => false
  | JBool b => b
  | JNum z => negb (z =? 0)
  | JStr s => negb (String.eqb s "")
  | JArr l => match l with [] => false | _ => true end
  | JObj kvs => match kvs with [] => false | _ => true end
  end.

(** [a or b] *)
Definition py_or (a b : json) : json := if truthy a then a else b.

(** [v is None] *)
Definition is_None (v : json) : bool :=
  match v with JNull => true | _ => false end.

(** [v == s] for a string literal [s]. *)
Definition eq_str (v : json) (s : string) : bool :=
  match v with JStr s' => String.eqb s' s | _ => false end.

(** [d.get(k, default)] on a dict. *)
Fixpoint dict_get (d : pydict) (k : string) (default : json) : json :=
  match d with
  | [] => default
  | (k', v) :: d' => if String.eqb k' k then v else dict_get d' k default
  end.

(** [k in d] *)
Fixpoint dict_mem (d : pydict) (k : string) : bool :=
  match d with
  | [] => false
  | (k', _) :: d' => String.eqb k' k || dict_mem d' k
  end.

(** [d[k] = v]: an existing key keeps its position, a new key goes last. *)
Fixpoint dict_set (d : pydict) (k : string) (v : json) : pydict :=
  match d with
  | [] => [(k, v)]
  | (k', v') :: d' =>
      if String.eqb k' k then (k', v) :: d' else (k', v') :: dict_set d' k v
  end.

(** ** Exceptions (kalshi_api/exceptions.py) *)

(** The subclasses of [KalshiAPIError]; [KalshiAPIError] is the class
    itself. *)
Inductive api_error_class : Type :=
| KalshiAPIError
| AuthenticationError
| InsufficientFundsError
| ResourceNotFoundError
| RateLimitError.

(** Exceptions of the HTTP transport that the retry loop distinguishes. *)
Inductive transport_exn : Type :=
| TimeoutException
| ConnectError
| OtherTransportError (name : string).

(** [KalshiAPIError.__init__(status_code, message, error_code=None)] stores
    its three arguments. *)
Record api_error : Type := mk_api_error {
  err_class : api_error_class;
  status_code_of : Z;
  message : json;
  error_code : json
}.

(** Modelled from the spec: [RateLimitError] of [pykalshi/exceptions.py], a
    module that is not among the sources.  [pykalshi/aclient.py] constructs
    it from a status code, a message and the keyword arguments [method] and
    [endpoint]; the specification has the rate-limit error carry method and
    endpoint for diagnostics, so the error keeps the four values. *)
Record rate_limit_error : Type := mk_rate_limit_error {
  rl_status_code : Z;
  rl_message : string;
  rl_method : string;
  rl_endpoint : string
}.

Inductive exn : Type :=
| ApiError (e : api_error)
| RateLimitExhausted (e : rate_limit_error)
| ValueError            (* response.json() on a body that is not JSON *)
| AttributeError        (* .get on a value that is not a dict *)
| TypeError
| IndexError
| UnboundLocalError
| TransportError (t : transport_exn).

Inductive result (A : Type) : Type :=
| Ok (a : A)
| Raise (e : exn).
Arguments Ok {A} a.
Arguments Raise {A} e.

Global Instance result_ret : MRet result := @Ok.
Global Instance result_bind : MBind result := λ A B f m,
  match m with
  | Ok a => f a
  | Raise e => Raise e
  end.

(** [try: body  except ValueError: handler] *)
Definition try_except_ValueError {A} (body handler : result A) : result A :=
  match body with
  | Raise ValueError => handler
  | _ => body
  end.

Definition raise_api {A} (c : api_error_class) (status : Z) (msg code : json)
  : result A :=
  Raise (ApiError (mk_api_error c status msg code)).

(** [v.get(k, default)] where [v] is whatever [response.json()] returned:
    only a dict has [.get]. *)
Definition py_get (v : json) (k : string) (default : json) : result json :=
  match v with
  | JObj d => Ok (dict_get d k default)
  | _ => Raise AttributeError
  end.

(** The elements [list.extend(v)] appends: the items of a list, the
    characters of a string, the keys of a dict; anything else is not
    iterable. *)
Fixpoint str_chars (s : string) : list json :=
  match s with
  | EmptyString => []
  | String c s' => JStr (String c EmptyString) :: str_chars s'
  end.

Definition py_iter (v : json) : result (list json) :=
  match v with
  | JArr l => Ok l
  | JStr s => Ok (str_chars s)
  | JObj d => Ok (map (λ kv, JStr (fst kv)) d)
  | _ => Raise TypeError
  end.

(** [l[i]] for a non-negative literal index [i]. *)
Definition py_index {A} (l : list A) (i : nat) : result A :=
  match l !! i with
  | Some x => Ok x
  | None => Raise IndexError
  end.

(** [[f(x) for x in l]] where [f] may raise. *)
Fixpoint map_result {A B} (f : A → result B) (l : list A) : result (list B) :=
  match l with
  | [] => Ok []
  | x :: l' => y ← f x; ys ← map_result f l'; Ok (y :: ys)
  end.

(** ** HTTP responses *)

(** What the client reads of a [requests.Response] / [httpx.Response]:
    [json_body] is the outcome of [response.json()], [None] when the body
    does not parse (the call raises [ValueError]). *)
Record Response : Type := mk_response {
  status_code : Z;
  resp_headers : list (string * string);
  text : string;
  json_body : option json
}.

Definition response_json (r : Response) : result json :=
  match json_body r with
  | Some j => Ok j
  | None => Raise ValueError
  end.

(** ** The world a client runs in *)

(** An outgoing HTTP request as handed to the transport. *)
Record Request : Type := mk_request {
  req_method : string;
  req_url : string;
  req_headers : list (string * string);
  req_content : option string;
  req_timeout : option Q
}.

Inductive transport_result : Type :=
| Responds (r : Response)
| Fails (e : transport_exn).

(** The environment is a family of oracles (what the n-th HTTP call returns,
    what the n-th reading of [int(time.time() * 1000)] is, which salt the
    n-th signature draws, how long the n-th [acquire()] of the rate limiter
    waited); the rest of the world records what the program did. [heap]
    holds the [dict] objects that are passed by reference. *)
Record World : Type := mk_world {
  transport : nat → transport_result;
  clock : nat → Z;
  entropy : nat → string;
  limiter_wait : nat → Q;
  sent : list Request;
  signed : nat;
  acquired : nat;
  limiter_updates : list Response;
  slept : list Q;
  heap : gmap positive pydict
}.

(** A computation that reads and changes the world and may raise. *)
Definition M (A : Type) : Type := World → result A * World.

Global Instance M_ret : MRet M := λ A a w, (Ok a, w).
Global Instance M_bind : MBind M := λ A B f m w,
  match m w with
  | (Ok a, w') => f a w'
  | (Raise e, w') => (Raise e, w')
  end.

Definition lift {A} (r : result A) : M A := λ w, (r, w).
Definition raise {A} (e : exn) : M A := λ w, (Raise e, w).

(** One HTTP call: the request is logged and the transport's next outcome
    is returned as a value (the caller decides what an exception does). *)
Definition send (req : Request) : M transport_result := λ w,
  (Ok (transport w (length (sent w))),
   mk_world (transport w) (clock w) (entropy w) (limiter_wait w)
            (sent w ++ [req]) (signed w) (acquired w) (limiter_updates w)
            (slept w) (heap w)).

(** The clock reading and the salt of the next signature. *)
Definition next_signature_inputs : M (Z * string) := λ w,
  (Ok (clock w (signed w), entropy w (signed w)),
   mk_world (transport w) (clock w) (entropy w) (limiter_wait w)
            (sent w) (S (signed w)) (acquired w) (limiter_updates w)
            (slept w) (heap w)).

(** Modelled from the spec: [acquire()] of the injected rate limiter (the
    module [pykalshi/rate_limiter.py] is not among the sources) may suspend
    the caller and returns the time waited; which time is the
    environment's choice. *)
Definition limiter_acquire : M Q := λ w,
  (Ok (limiter_wait w (acquired w)),
   mk_world (transport w) (clock w) (entropy w) (limiter_wait w)
            (sent w) (signed w) (S (acquired w)) (limiter_updates w)
            (slept w) (heap w)).

(** [await asyncio.sleep(wait)] *)
Definition sleep (wait : Q) : M unit := λ w,
  (Ok tt,
   mk_world (transport w) (clock w) (entropy w) (limiter_wait w)
            (sent w) (signed w) (acquired w) (limiter_updates w)
            (slept w ++ [wait]) (heap w)).

(** Modelled from the spec: [_update_rate_limiter(response)] of
    [pykalshi/_base.py], which is not among the sources; the specification
    has the pipeline feed each response to the rate limiter, which is
    recorded here. *)
Definition limiter_update (response : Response) : M unit := λ w,
  (Ok tt,
   mk_world (transport w) (clock w) (entropy w) (limiter_wait w)
            (sent w) (signed w) (acquired w) (limiter_updates w ++ [response])
            (slept w) (heap w)).

(** [dict(d)]: a new dict object holding the entries of the dict at [l];
    [dict] of something that is not a mapping raises. *)
Definition dict_copy (l : positive) : M positive := λ w,
  match heap w !! l with
  | Some d =>
      let l' := fresh (dom (heap w)) in
      (Ok l',
       mk_world (transport w) (clock w) (entropy w) (limiter_wait w)
                (sent w) (signed w) (acquired w) (limiter_updates w)
                (slept w) (<[l' := d]> (heap w)))
  | None => (Raise TypeError, w)
  end.

(** [d.items()] *)
Definition dict_items (l : positive) : M pydict := λ w,
  match heap w !! l with
  | Some d => (Ok d, w)
  | None => (Raise AttributeError, w)
  end.

(** [d[k] = v] on the dict object at [l]. *)
Definition dict_setitem (l : positive) (k : string) (v : json) : M unit := λ w,
  match heap w !! l with
  | Some d =>
      (Ok tt,
       mk_world (transport w) (clock w) (entropy w) (limiter_wait w)
                (sent w) (signed w) (acquired w) (limiter_updates w)
                (slept w) (<[l := dict_set d k v]> (heap w)))
  | None => (Raise TypeError, w)
  end.

(** ** Library functions the clients call *)

(** *** Characters and strings *)

Definition ascii_in (lo hi c : ascii) : bool :=
  (N_of_ascii lo <=? N_of_ascii c)%N && (N_of_ascii c <=? N_of_ascii hi)%N.

Definition is_upper (c : ascii) : bool := ascii_in "A" "Z" c.
Definition is_alpha (c : ascii) : bool := is_upper c || ascii_in "a" "z" c.
Definition is_digit (c : ascii) : bool := ascii_in "0" "9" c.

(** [c.lower()] on ASCII. *)
Definition lower (c : ascii) : ascii :=
  if is_upper c then ascii_of_N (N_of_ascii c + 32) else c.

Fixpoint str_map (f : ascii → ascii) (s : string) : string :=
  match s with
  | EmptyString => EmptyString
  | String c s' => String (f c) (str_map f s')
  end.

Fixpoint str_forallb (p : ascii → bool) (s : string) : bool :=
  match s with
  | EmptyString => true
  | String c s' => p c && str_forallb p s'
  end.

(** [any(p(c) for c in s)]; with [p := Ascii.eqb c0] this is [c0 in s]. *)
Fixpoint str_has (p : ascii → bool) (s : string) : bool :=
  match s with
  | EmptyString => false
  | String c s' => p c || str_has p s'
  end.

(** [s[:i]] where [i] is the index of the first character satisfying [p]
    (all of [s] when there is none). *)
Fixpoint str_before (p : ascii → bool) (s : string) : string :=
  match s with
  | EmptyString => EmptyString
  | String c s' => if p c then EmptyString else String c (str_before p s')
  end.

(** [s[i:]] for the same [i] (empty when there is none). *)
Fixpoint str_from (p : ascii → bool) (s : string) : string :=
  match s with
  | EmptyString => EmptyString
  | String c s' => if p c then s else str_from p s'
  end.

(** [s[1:]] *)
Definition str_tail (s : string) : string :=
  match s with
  | EmptyString => EmptyString
  | String _ s' => s'
  end.

Fixpoint str_filter (p : ascii → bool) (s : string) : string :=
  match s with
  | EmptyString => EmptyString
  | String c s' => if p c then String c (str_filter p s') else str_filter p s'
  end.

(** [s.lstrip(chars)] with [p] deciding membership in [chars]. *)
Fixpoint str_lstrip (p : ascii → bool) (s : string) : string :=
  match s with
  | EmptyString => EmptyString
  | String c s' => if p c then str_lstrip p s' else s
  end.

Definition is_char (c0 : ascii) : ascii → bool := Ascii.eqb c0.

(** [str(n)] for an [int]. *)
Definition py_str_int (n : Z) : string :=
  NilZero.string_of_int (Z.to_int n).

(** *** urllib.parse.urlparse(url).path

    [urlsplit] followed by the parameter split of [urlparse], restricted to
    the path component, for [str] input with the default arguments
    ([scheme=''], [allow_fragments=True]). *)

(** The validations of the network location that depend on the interpreter
    version ([_check_bracketed_netloc], [_checknetloc]) and the external
    encoders are left to the library. *)
Class PyLib : Type := {
  netloc_ok : string → bool;
  urlencode : pydict → string;
  json_dumps : json → string
}.

Definition is_c0_control_or_space (c : ascii) : bool :=
  (N_of_ascii c <=? 32)%N.

(** \t, \r, \n *)
Definition is_unsafe_url_byte (c : ascii) : bool :=
  is_char "009" c || is_char "013" c || is_char "010" c.

Definition is_scheme_char (c : ascii) : bool :=
  is_alpha c || is_digit c || is_char "+" c || is_char "-" c || is_char "." c.

Definition uses_params : list string :=
  [""; "ftp"; "hdl"; "prospero"; "http"; "imap"; "https"; "shttp"; "rtsp";
   "rtspu"; "sip"; "sips"; "mms"; "sftp"; "tel"].

(** The scheme test of [urlsplit]: [i = url.find(':')], [i > 0], the first
    character is an ASCII letter and all of [url[:i]] are scheme characters. *)
Definition split_scheme (url : string) : string * string :=
  let pre := str_before (is_char ":") url in
  if str_has (is_char ":") url
     && match pre with String c _ => is_alpha c | EmptyString => false end
     && str_forallb is_scheme_char pre
  then (str_map lower pre, str_tail (str_from (is_char ":") url))
  else ("", url).

Definition is_netloc_delim (c : ascii) : bool :=
  is_char "/" c || is_char "?" c || is_char "#" c.

(** [if url[:2] == '//': netloc, url = _splitnetloc(url, 2)] with the bracket
    checks that follow it. *)
Definition split_netloc `{PyLib} (url : string) : result (string * string) :=
  match url with
  | String c1 (String c2 rest) =>
      if is_char "/" c1 && is_char "/" c2 then
        let netloc := str_before is_netloc_delim rest in
        let url' := str_from is_netloc_delim rest in
        let lb := str_has (is_char "[") netloc in
        let rb := str_has (is_char "]") netloc in
        if (lb && negb rb) || (rb && negb lb) then Raise ValueError
        else if negb (netloc_ok netloc) then Raise ValueError
        else Ok (netloc, url')
      else Ok ("", url)
  | _ => Ok ("", url)
  end.

(** [_splitparams(url)[0]]: the last path segment loses what follows its
    first semicolon. *)
Fixpoint splitparams_path (url : string) : string :=
  match url with
  | EmptyString => EmptyString
  | String c url' =>
      if is_char "/" c || str_has (is_char "/") url'
      then String c (splitparams_path url')
      else str_before (is_char ";") url
  end.

Definition urlparse_path `{PyLib} (url : string) : result string :=
  let url := str_lstrip is_c0_control_or_space url in
  let url := str_filter (λ c, negb (is_unsafe_url_byte c)) url in
  let '(scheme, url) := split_scheme url in
  '(netloc, url) ← split_netloc url;
  let url := str_before (is_char "#") url in
  let url := str_before (is_char "?") url in
  if bool_decide (scheme ∈ uses_params) && str_has (is_char ";") url
  then Ok (splitparams_path url)
  else Ok url.

(** *** base64.b64encode *)

Definition b64_alphabet : string :=
  "ABCDEFGHIJKLMNOPQRSTUVWXYZabcdefghijklmnopqrstuvwxyz0123456789+/".

(** A sextet, most significant bit first. *)
Definition sextet : Type := bool * bool * bool * bool * bool * bool.

Definition sextet_index (x : sextet) : nat :=
  let '(b5, b4, b3, b2, b1, b0) := x in
  let v (b : bool) (n : nat) := if b then n else 0%nat in
  (v b5 32 + v b4 16 + v b3 8 + v b2 4 + v b1 2 + v b0 1)%nat.

Definition b64_char (x : sextet) : ascii :=
  match String.get (sextet_index x) b64_alphabet with
  | Some c => c
  | None => "="%char
  end.

Fixpoint b64encode (s : string) : string :=
  match s with
  | EmptyString => EmptyString
  | String (Ascii a0 a1 a2 a3 a4 a5 a6 a7) EmptyString =>
      String (b64_char (a7, a6, a5, a4, a3, a2))
      (String (b64_char (a1, a0, false, false, false, false)) "==")
  | String (Ascii a0 a1 a2 a3 a4 a5 a6 a7)
      (String (Ascii b0 b1 b2 b3 b4 b5 b6 b7) EmptyString) =>
      String (b64_char (a7, a6, a5, a4, a3, a2))
      (String (b64_char (a1, a0, b7, b6, b5, b4))
      (String (b64_char (b3, b2, b1, b0, false, false)) "="))
  | String (Ascii a0 a1 a2 a3 a4 a5 a6 a7)
      (String (Ascii b0 b1 b2 b3 b4 b5 b6 b7)
      (String (Ascii c0 c1 c2 c3 c4 c5 c6 c7) rest)) =>
      String (b64_char (a7, a6, a5, a4, a3, a2))
      (String (b64_char (a1, a0, b7, b6, b5, b4))
      (String (b64_char (b3, b2, b1, b0, c7, c6))
      (String (b64_char (c5, c4, c3, c2, c1, c0)) (b64encode rest))))
  end.

(** *** The private key

    [private_key.sign(message, PSS(MGF1(SHA256), MAX_LENGTH), SHA256)]:
    the signature bytes are determined by the key, the salt the padding
    draws and the message. *)
Record RSAPrivateKey : Type := {
  sign_pss_sha256 : string → string → string
}.

(** ** Synchronous client (kalshi_api/client.py) *)

Module KalshiClient.

Record t : Type := {
  api_key_id : string;
  api_base : string;
  private_key : RSAPrivateKey
}.

(** The message [_sign_request] signs: [f"{timestamp}{method}{path}"]. *)
Definition signed_message (timestamp method path : string) : string :=
  timestamp +:+ method +:+ path.

(** What [_sign_request] computes once the clock reads
    [int(time.time() * 1000) = now_ms] and the padding draws [salt]. *)
Definition sign_at (self : t) (now_ms : Z) (salt : string)
    (method path : string) : string * string :=
  let timestamp := py_str_int now_ms in
  let message := signed_message timestamp method path in
  let signature := sign_pss_sha256 (private_key self) salt message in
  (timestamp, b64encode signature).

(** [_sign_request], lines 98-110. *)
Definition _sign_request (self : t) (method path : string) : M (string * string) :=
  '(now_ms, salt) ← next_signature_inputs;
  mret (sign_at self now_ms salt method path).

(** [_get_headers], lines 112-124. *)
Definition _get_headers `{PyLib} (self : t) (method endpoint : string)
  : M (list (string * string)) :=
  path_without_query ← lift (urlparse_path endpoint);
  let full_path := "/trade-api/v2" +:+ path_without_query in
  '(timestamp, signature) ← _sign_request self method full_path;
  mret [("Content-Type", "application/json");
        ("KALSHI-ACCESS-KEY", api_key_id self);
        ("KALSHI-ACCESS-SIGNATURE", signature);
        ("KALSHI-ACCESS-TIMESTAMP", timestamp)].

(** [requests.get/post/delete]: an exception of the transport propagates. *)
Definition requests_call (req : Request) : M Response :=
  r ← send req;
  match r with
  | Responds response => mret response
  | Fails e => raise (TransportError e)
  end.

(** [_handle_response], lines 126-152. *)
Definition _handle_response (response : Response) : result json :=
  (* status_code = int(response.status_code or 500) *)
  let status_code := if status_code response =? 0 then 500 else status_code response in
  if status_code <? 400 then response_json response
  else
    '(message, code) ←
      try_except_ValueError
        (error_data ← response_json response;
         m ← py_get error_data "message" JNull;
         message ← (if truthy m then Ok m
                    else py_get error_data "error_message" (JStr "Unknown Error"));
         c ← py_get error_data "code" JNull;
         code ← (if truthy c then Ok c else py_get error_data "error_code" JNull);
         Ok (message, code))
        (Ok (JStr (text response), JNull));
    if (status_code =? 401) || (status_code =? 403) then
      raise_api AuthenticationError status_code message code
    else if status_code =? 404 then
      raise_api ResourceNotFoundError status_code message code
    else if eq_str code "insufficient_funds" || eq_str code "insufficient_balance" then
      raise_api InsufficientFundsError status_code message code
    else
      raise_api KalshiAPIError status_code message code.


(** [get], lines 154-160. *)
Definition get `{PyLib} (self : t) (endpoint : string) : M json :=
  let url := api_base self +:+ endpoint in
  headers ← _get_headers self "GET" endpoint;
  response ← requests_call (mk_request "GET" url headers None None);
  lift (_handle_response response).

(** [post], lines 162-169. *)
Definition post `{PyLib} (self : t) (endpoint : string) (data : json) : M json :=
  let url := api_base self +:+ endpoint in
  let body := json_dumps data in
  headers ← _get_headers self "POST" endpoint;
  response ← requests_call (mk_request "POST" url headers (Some body) None);
  lift (_handle_response response).

(** [delete], lines 171-176. *)
Definition delete `{PyLib} (self : t) (endpoint : string) : M json :=
  let url := api_base self +:+ endpoint in
  headers ← _get_headers self "DELETE" endpoint;
  response ← requests_call (mk_request "DELETE" url headers None None);
  lift (_handle_response response).

End KalshiClient.

(** ** Order-book models (kalshi_api/models.py) *)

Module Models.

(** [OrderbookLevel], lines 199-205: two [int] fields; constructing one
    from two integers stores them. *)
Record OrderbookLevel : Type := mk_OrderbookLevel {
  price : Z;
  quantity : Z
}.

(** [Orderbook], lines 208-216. *)
Record Orderbook : Type := mk_Orderbook {
  yes : option (list (list Z));
  no : option (list (list Z));
  yes_dollars : option (list (list string));
  no_dollars : option (list (list string))
}.

Record OrderbookFp : Type := mk_OrderbookFp {
  fp_yes_dollars : option (list (list string));
  fp_no_dollars : option (list (list string))
}.

(** [OrderbookResponse], lines 228-262. *)
Record OrderbookResponse : Type := mk_OrderbookResponse {
  orderbook : Orderbook;
  orderbook_fp : option OrderbookFp
}.

(** [not side] for an optional list: [None] and [[]] are falsy. *)
Definition side_falsy {A} (side : option (list A)) : bool :=
  match side with
  | None | Some [] => true
  | Some (_ :: _) => false
  end.

Definition side_list {A} (side : option (list A)) : list A :=
  match side with
  | None => []
  | Some l => l
  end.

Definition level_of (p : list Z) : result OrderbookLevel :=
  p0 ← py_index p 0;
  p1 ← py_index p 1;
  Ok (mk_OrderbookLevel p0 p1).

Definition yes_levels (self : OrderbookResponse) : result (list OrderbookLevel) :=
  if side_falsy (yes (orderbook self)) then Ok []
  else map_result level_of (side_list (yes (orderbook self))).

Definition no_levels (self : OrderbookResponse) : result (list OrderbookLevel) :=
  if side_falsy (no (orderbook self)) then Ok []
  else map_result level_of (side_list (no (orderbook self))).

(** [max(xs)] of a non-empty sequence given as head and tail. *)
Definition py_max (x : Z) (xs : list Z) : Z := fold_left Z.max xs x.

(** [max(p[0] for p in side) if side else None] *)
Definition max_first (side : list (list Z)) : result (option Z) :=
  firsts ← map_result (λ p, py_index p 0) side;
  match firsts with
  | [] => Ok None
  | x :: xs => Ok (Some (py_max x xs))
  end.

Definition best_yes_bid (self : OrderbookResponse) : result (option Z) :=
  if side_falsy (yes (orderbook self)) then Ok None
  else max_first (side_list (yes (orderbook self))).

Definition best_no_bid (self : OrderbookResponse) : result (option Z) :=
  if side_falsy (no (orderbook self)) then Ok None
  else max_first (side_list (no (orderbook self))).

End Models.

(** ** Asynchronous client (pykalshi/aclient.py) *)

(** What [AsyncKalshiClient] inherits from [_BaseKalshiClient] and imports
    from [pykalshi._base], a module that is not part of the sources at
    hand: the retryable status codes, the backoff policy, the header
    builder (for a given clock reading and salt) and the response handler
    with its keyword arguments [method], [endpoint], [request_body]. *)
Class BaseKalshiClient : Type := {
  _RETRYABLE_STATUS_CODES : list Z;
  _compute_backoff : Z → option string → Q;
  base_headers_at : Z → string → string → string → result (list (string * string));
  base_handle_response : Response → string → string → option json → result json
}.

(** [headers.get(name)] of an httpx response: names compare
    case-insensitively. *)
Fixpoint headers_get (headers : list (string * string)) (name : string)
  : option string :=
  match headers with
  | [] => None
  | (k, v) :: headers' =>
      if String.eqb (str_map lower k) (str_map lower name) then Some v
      else headers_get headers' name
  end.

Module AsyncKalshiClient.

Record t : Type := {
  api_base : string;
  timeout : Q;
  max_retries : Z;
  rate_limiter : bool          (* [self.rate_limiter is not None] *)
}.

Definition _get_headers `{BaseKalshiClient} (method endpoint : string)
  : M (list (string * string)) :=
  '(now_ms, salt) ← next_signature_inputs;
  lift (base_headers_at now_ms salt method endpoint).

(** [RateLimitError(429, "Rate limit exceeded after retries",
    method=method, endpoint=endpoint)] *)
Definition rate_limit_exceeded (method endpoint : string) : exn :=
  RateLimitExhausted
    (mk_rate_limit_error 429 "Rate limit exceeded after retries" method endpoint).

(** The [for attempt in range(self.max_retries + 1)] loop of [_request],
    lines 81-136, over the attempts still to run; [response] is the local
    variable of that name, unbound before the first response arrives. *)
Fixpoint _request_attempts `{BaseKalshiClient} (self : t)
    (method endpoint : string) (data : option string)
    (attempts : list Z) (response : option Response) : M Response :=
  match attempts with
  | [] =>
      match response with
      | Some r => mret r
      | None => raise UnboundLocalError
      end
  | attempt :: attempts' =>
      let url := api_base self +:+ endpoint in
      _ ← (if rate_limiter self then _ ← limiter_acquire; mret tt else mret tt);
      headers ← _get_headers method endpoint;
      outcome ← send (mk_request method url headers data (Some (timeout self)));
      match outcome with
      | Fails TimeoutException =>
          if attempt =? max_retries self then raise (TransportError TimeoutException)
          else
            _ ← sleep (_compute_backoff attempt None);
            _request_attempts self method endpoint data attempts' response
      | Fails ConnectError =>
          if attempt =? max_retries self then raise (TransportError ConnectError)
          else
            _ ← sleep (_compute_backoff attempt None);
            _request_attempts self method endpoint data attempts' response
      | Fails e => raise (TransportError e)
      | Responds response =>
          _ ← limiter_update response;
          if negb (bool_decide (status_code response ∈ _RETRYABLE_STATUS_CODES))
          then mret response
          else if attempt =? max_retries self then
            if status_code response =? 429
            then raise (rate_limit_exceeded method endpoint)
            else mret response
          else
            _ ← sleep (_compute_backoff attempt
                         (headers_get (resp_headers response) "Retry-After"));
            _request_attempts self method endpoint data attempts' (Some response)
      end
  end.

(** [_request], lines 77-136. *)
Definition _request `{BaseKalshiClient} (self : t) (method endpoint : string)
    (data : option string) : M Response :=
  _request_attempts self method endpoint data
    (seqZ 0 (max_retries self + 1)) None.

(** [get], lines 138-142. *)
Definition get `{BaseKalshiClient} (self : t) (endpoint : string) : M json :=
  response ← _request self "GET" endpoint None;
  lift (base_handle_response response "GET" endpoint None).

(** [post], lines 165-172. *)
Definition post `{BaseKalshiClient} `{PyLib} (self : t) (endpoint : string)
    (data : json) : M json :=
  let body := json_dumps data in
  response ← _request self "POST" endpoint (Some body);
  lift (base_handle_response response "POST" endpoint (Some data)).

(** [put], lines 174-181. *)
Definition put `{BaseKalshiClient} `{PyLib} (self : t) (endpoint : string)
    (data : json) : M json :=
  let body := json_dumps data in
  response ← _request self "PUT" endpoint (Some body);
  lift (base_handle_response response "PUT" endpoint (Some data)).

(** [delete], lines 183-191; [body] is [None] or a dict. *)
Definition delete `{BaseKalshiClient} `{PyLib} (self : t) (endpoint : string)
    (body : option pydict) : M json :=
  response ←
    (match body with
     | Some (kv :: d) =>
         let data := json_dumps (JObj (kv :: d)) in
         _request self "DELETE" endpoint (Some data)
     | _ => _request self "DELETE" endpoint None
     end);
  lift (base_handle_response response "DELETE" endpoint None).

(** One turn of the [while True] loop of [paginated_get], lines 155-162:
    the items gathered so far and whether the loop goes on. *)
Definition paginated_get_turn `{BaseKalshiClient} `{PyLib} (self : t)
    (path response_key : string) (params : positive) (fetch_all : bool)
    (all_items : list json) : M (list json * bool) :=
  items ← dict_items params;
  let filtered := filter (λ kv, is_None (snd kv) = false) items in
  let endpoint :=
    match filtered with
    | [] => path
    | _ => path +:+ "?" +:+ urlencode filtered
    end in
  response ← get self endpoint;
  page ← lift (py_get response response_key (JArr []));
  new_items ← lift (py_iter page);
  let all_items := (all_items ++ new_items)%list in
  cursor ← lift (py_get response "cursor" (JStr ""));
  if negb fetch_all || negb (truthy cursor) then mret (all_items, false)
  else
    _ ← dict_setitem params "cursor" cursor;
    mret (all_items, true).

(** The loop itself; [None] when [fuel] turns did not reach the [break]. *)
Fixpoint paginated_get_loop `{BaseKalshiClient} `{PyLib} (fuel : nat) (self : t)
    (path response_key : string) (params : positive) (fetch_all : bool)
    (all_items : list json) (w : World) : option (result (list json) * World) :=
  match fuel with
  | O => None
  | S fuel' =>
      match paginated_get_turn self path response_key params fetch_all all_items w with
      | (Raise e, w') => Some (Raise e, w')
      | (Ok (all_items', false), w') => Some (Ok all_items', w')
      | (Ok (all_items', true), w') =>
          paginated_get_loop fuel' self path response_key params fetch_all
            all_items' w'
      end
  end.

(** [paginated_get], lines 144-163: [params] is the caller's dict object. *)
Definition paginated_get `{BaseKalshiClient} `{PyLib} (fuel : nat) (self : t)
    (path response_key : string) (params : positive) (fetch_all : bool)
    (w : World) : option (result (list json) * World) :=
  match dict_copy params w with
  | (Raise e, w') => Some (Raise e, w')
  | (Ok params', w') =>
      paginated_get_loop fuel self path response_key params' fetch_all [] w'
  end.

End AsyncKalshiClient.

(** ** Synchronous deployment mode (specification, sections 4.3 and 5) *)

(** Modelled from the spec: the synchronous client of [pykalshi]
    ([pykalshi/client.py], which [pykalshi/__init__.py] imports and the
    tests drive through [_session.request]) is not among the sources.  The
    specification has both deployment modes run one algorithm per call
    (section 4.3), the synchronous mode blocking where the asynchronous one
    suspends (section 5).  Its steps: (1) consult the rate limiter; (2)
    build the headers; (3) dispatch the call with a bounded timeout; (4) on
    a connection error or a timeout, back off and retry if attempts remain,
    otherwise propagate the failure; (5) feed a response to the rate
    limiter; (6) on a retryable status, back off (preferring [Retry-After])
    and retry if attempts remain; (7) when retries are exhausted, raise the
    rate-limit error on a 429 and return any other response as it is; (8,
    9) hand the response to the response handler.  The retry count is "a
    configured maximum (default 3 additional attempts)", a natural number.
    Retryable statuses, backoff policy, header builder and response handler
    are those of the shared base ([BaseKalshiClient]). *)
Module SyncKalshiClient.

(** Modelled from the spec: the configuration knobs of section 6 (base
    URL, request timeout, maximum retry attempts, injected rate limiter). *)
Record t : Type := {
  api_base : string;
  timeout : Q;
  max_retries : nat;
  rate_limiter : bool
}.

(** Modelled from the spec: steps 1, 2, 3 and 5, one dispatched call and
    what came of it. *)
Definition dispatch `{BaseKalshiClient} (self : t) (method endpoint : string)
    (data : option string) : M transport_result :=
  _ ← (if rate_limiter self then _ ← limiter_acquire; mret tt else mret tt);
  headers ← AsyncKalshiClient._get_headers method endpoint;
  outcome ← send (mk_request method (api_base self +:+ endpoint) headers data
                    (Some (timeout self)));
  _ ← (match outcome with
       | Responds response => limiter_update response
       | Fails _ => mret tt
       end);
  mret outcome.

(** Modelled from the spec: steps 4 and 6, the delay before the retry, for
    an outcome that is retried while attempts remain. *)
Definition backoff_for `{BaseKalshiClient} (attempt : Z)
    (outcome : transport_result) : option Q :=
  match outcome with
  | Fails TimeoutException | Fails ConnectError =>
      Some (_compute_backoff attempt None)
  | Fails _ => None
  | Responds response =>
      if bool_decide (status_code response ∈ _RETRYABLE_STATUS_CODES)
      then Some (_compute_backoff attempt
                   (headers_get (resp_headers response) "Retry-After"))
      else None
  end.

(** Modelled from the spec: steps 4 and 7, how a call ends on an outcome
    that is not retried. *)
Definition settle `{BaseKalshiClient} (method endpoint : string)
    (outcome : transport_result) : M Response :=
  match outcome with
  | Fails e => raise (TransportError e)
  | Responds response =>
      if bool_decide (status_code response ∈ _RETRYABLE_STATUS_CODES)
         && (status_code response =? 429)
      then raise (AsyncKalshiClient.rate_limit_exceeded method endpoint)
      else mret response
  end.

(** Modelled from the spec: the call with [retries_left] further attempts
    allowed, [attempt] being the number of the attempts made so far. *)
Fixpoint execute `{BaseKalshiClient} (self : t) (method endpoint : string)
    (data : option string) (retries_left : nat) (attempt : Z) : M Response :=
  outcome ← dispatch self method endpoint data;
  match retries_left with
  | O => settle method endpoint outcome
  | S retries_left' =>
      match backoff_for attempt outcome with
      | Some wait =>
          _ ← sleep wait;
          execute self method endpoint data retries_left' (attempt + 1)
      | None => settle method endpoint outcome
      end
  end.

(** Modelled from the spec: a call from its first attempt. *)
Definition request `{BaseKalshiClient} (self : t) (method endpoint : string)
    (data : option string) : M Response :=
  execute self method endpoint data (max_retries self) 0.

(** Modelled from the spec: [execute(method, endpoint, body?) ->
    parsedJSON], steps 8 and 9; the response handler of the shared base
    also takes the method, the endpoint and the request body. *)
Definition handled `{BaseKalshiClient} (self : t) (method endpoint : string)
    (data : option string) (request_body : option json) : M json :=
  response ← request self method endpoint data;
  lift (base_handle_response response method endpoint request_body).

(** Modelled from the spec: the contract for each of GET, POST, PUT and
    DELETE; bodies are compact JSON (section 6). *)
Definition get `{BaseKalshiClient} (self : t) (endpoint : string) : M json :=
  handled self "GET" endpoint None None.

Definition post `{BaseKalshiClient} `{PyLib} (self : t) (endpoint : string)
    (data : json) : M json :=
  handled self "POST" endpoint (Some (json_dumps data)) (Some data).

Definition put `{BaseKalshiClient} `{PyLib} (self : t) (endpoint : string)
    (data : json) : M json :=
  handled self "PUT" endpoint (Some (json_dumps data)) (Some data).

(** Modelled from the spec: a DELETE with the body [data], if any, already
    in compact JSON. *)
Definition delete `{BaseKalshiClient} (self : t) (endpoint : string)
    (data : option string) : M json :=
  handled self "DELETE" endpoint data None.

End SyncKalshiClient.

(** ** Notions used to state the properties *)

(** The fields the handler reads from an error body that is a JSON object. *)
Definition body_message (d : pydict) : json :=
  py_or (dict_get d "message" JNull) (dict_get d "error_message" (JStr "Unknown Error")).

Definition body_code (d : pydict) : json :=
  py_or (dict_get d "code" JNull) (dict_get d "error_code" JNull).

Definition insufficient (code : json) : Prop :=
  code = JStr "insufficient_funds" ∨ code = JStr "insufficient_balance".

(** A 401 response whose body carries the code "insufficient_funds". *)
Definition resp_401_insufficient_funds : Response :=
  mk_response 401 [] "body" (Some (JObj [("code", JStr "insufficient_funds")])).

(** A 200 response whose body is not JSON, a 500 response whose body is a
    JSON array, and a response without a status whose body is an empty JSON
    object. *)
Definition resp_200_not_json : Response :=
  mk_response 200 [] "" None.

Definition resp_500_array : Response :=
  mk_response 500 [] "[]" (Some (JArr [])).

Definition resp_0_object : Response :=
  mk_response 0 [] "{}" (Some (JObj [])).

(** A 402 response whose body carries the code "insufficient_balance". *)
Definition resp_402_insufficient_balance : Response :=
  mk_response 402 [] "body"
    (Some (JObj [("error_message", JStr "no funds"); ("error_code", JStr "insufficient_balance")])).

(** An order book with three yes levels and no no side. *)
Definition sample_book : Models.OrderbookResponse :=
  Models.mk_OrderbookResponse
    (Models.mk_Orderbook (Some [[50; 10]; [55; 3]; [42; 7]]) None None None) None.

Definition sample_yes_levels : list Models.OrderbookLevel :=
  [Models.mk_OrderbookLevel 50 10; Models.mk_OrderbookLevel 55 3;
   Models.mk_OrderbookLevel 42 7].

(** A book whose yes side has an entry without a price. *)
Definition book_empty_entry : Models.OrderbookResponse :=
  Models.mk_OrderbookResponse
    (Models.mk_Orderbook (Some [[60; 1]; []]) None None None) None.

(** A level outside the documented ranges, and a book that carries it. *)
Definition level_out_of_range : Models.OrderbookLevel :=
  Models.mk_OrderbookLevel 150 (-5).

Definition book_out_of_range : Models.OrderbookResponse :=
  Models.mk_OrderbookResponse
    (Models.mk_Orderbook (Some [[150; -5]]) None None None) None.

(** The endpoint with its query string removed: what precedes the first
    question mark. *)
Definition without_query (endpoint : string) : string :=
  str_before (is_char "?") endpoint.

(** The message that [_get_headers] has [_sign_request] sign for an
    endpoint, at a given timestamp string. *)
Definition message_signed_for `{PyLib} (timestamp method endpoint : string)
  : result string :=
  path_without_query ← urlparse_path endpoint;
  Ok (KalshiClient.signed_message timestamp method
        ("/trade-api/v2" +:+ path_without_query)).

(** The headers [_get_headers] returns when the clock reads [now_ms] and the
    padding draws [salt]. *)
Definition headers_at `{PyLib} (self : KalshiClient.t) (now_ms : Z)
    (salt : string) (method endpoint : string) : result (list (string * string)) :=
  path_without_query ← urlparse_path endpoint;
  let full_path := "/trade-api/v2" +:+ path_without_query in
  let '(timestamp, signature) :=
    KalshiClient.sign_at self now_ms salt method full_path in
  Ok [("Content-Type", "application/json");
      ("KALSHI-ACCESS-KEY", KalshiClient.api_key_id self);
      ("KALSHI-ACCESS-SIGNATURE", signature);
      ("KALSHI-ACCESS-TIMESTAMP", timestamp)].

(** The world after a signature was made. *)
Definition after_signature (w : World) : World :=
  {| transport := transport w;
     clock := clock w;
     entropy := entropy w;
     limiter_wait := limiter_wait w;
     sent := sent w;
     signed := S (signed w);
     acquired := acquired w;
     limiter_updates := limiter_updates w;
     slept := slept w;
     heap := heap w |}.

(** Sample instances: a library whose network-location check accepts
    everything and whose encoder joins key=value pairs, and a toy key whose
    signature is the message itself. *)
Definition sample_lib : PyLib :=
  {| netloc_ok := λ _, true;
     urlencode := λ d, String.concat "&" (map (λ kv, fst kv +:+ "=" +:+
                         match snd kv with
                         | JStr s => s
                         | JNum z => py_str_int z
                         | _ => ""
                         end) d);
     json_dumps := λ _, "{}" |}.

Definition toy_key : RSAPrivateKey :=
  {| sign_pss_sha256 := λ salt m, m |}.

Definition sample_client : KalshiClient.t :=
  {| KalshiClient.api_key_id := "key-id";
     KalshiClient.api_base := "https://api.elections.kalshi.com/trade-api/v2";
     KalshiClient.private_key := toy_key |}.

(** A key whose signature depends on the salt, as a PSS signature does (the
    verifier reads the salt back from it): the salt followed by the
    message. *)
Definition salted_key : RSAPrivateKey :=
  {| sign_pss_sha256 := λ salt m, salt +:+ m |}.

Definition salted_client : KalshiClient.t :=
  {| KalshiClient.api_key_id := "key-id";
     KalshiClient.api_base := "https://api.elections.kalshi.com/trade-api/v2";
     KalshiClient.private_key := salted_key |}.

(** A key whose signatures have a fixed length, as those of an RSA key have
    (the length of the modulus); here one byte, the sum of the bytes of the
    message. *)
Fixpoint byte_sum (m : string) : N :=
  match m with
  | EmptyString => 0%N
  | String c m' => (N_of_ascii c + byte_sum m')%N
  end.

Definition checksum_key : RSAPrivateKey :=
  {| sign_pss_sha256 := λ salt m,
       String (ascii_of_N (byte_sum m mod 256)) EmptyString |}.

Definition checksum_client : KalshiClient.t :=
  {| KalshiClient.api_key_id := "key-id";
     KalshiClient.api_base := "https://api.elections.kalshi.com/trade-api/v2";
     KalshiClient.private_key := checksum_key |}.

(** All bytes, and all strings of at most [n] bytes. *)
Definition all_ascii : list ascii :=
  b0 ← [false; true]; b1 ← [false; true]; b2 ← [false; true];
  b3 ← [false; true]; b4 ← [false; true]; b5 ← [false; true];
  b6 ← [false; true]; b7 ← [false; true];
  [Ascii b0 b1 b2 b3 b4 b5 b6 b7].

Fixpoint strings_upto (n : nat) : list string :=
  match n with
  | O => [EmptyString]
  | S n' => EmptyString :: (c ← all_ascii; m ← strings_upto n'; [String c m])
  end.

(** The six-bit groups, for decoding a base64 character by search. *)
Definition all_sextets : list sextet :=
  b5 ← [false; true]; b4 ← [false; true]; b3 ← [false; true];
  b2 ← [false; true]; b1 ← [false; true]; b0 ← [false; true];
  [(b5, b4, b3, b2, b1, b0)].

Definition b64_sextet (c : ascii) : option sextet :=
  find (λ x, Ascii.eqb (b64_char x) c) all_sextets.

(** A world whose transport answers every call with an empty 200, whose
    clock reads 1700000000000 + n at the n-th reading, and in which nothing
    has happened yet. *)
Definition ok_response (body : json) : Response :=
  mk_response 200 [] "body" (Some body).

Definition world_of (transport : nat → transport_result) : World :=
  {| transport := transport;
     clock := λ n, 1700000000000 + Z.of_nat n;
     entropy := λ _, "salt";
     limiter_wait := λ _, 0%Q;
     sent := [];
     signed := 0;
     acquired := 0;
     limiter_updates := [];
     slept := [];
     heap := ∅ |}.

Definition sample_world : World :=
  world_of (λ _, Responds (ok_response (JObj []))).

(** A world whose clock reads [now] at every signature. *)
Definition clock_world (now : Z) : World :=
  {| transport := λ _, Responds (ok_response (JObj []));
     clock := λ _, now;
     entropy := λ _, "salt";
     limiter_wait := λ _, 0%Q;
     sent := [];
     signed := 0;
     acquired := 0;
     limiter_updates := [];
     slept := [];
     heap := ∅ |}.

(** A world in which two signatures fall into the same millisecond and the
    padding draws a fresh salt for each. *)
Definition same_millisecond_world : World :=
  {| transport := λ _, Responds (ok_response (JObj []));
     clock := λ _, 1700000000000;
     entropy := λ n, "salt-" +:+ py_str_int (Z.of_nat n);
     limiter_wait := λ _, 0%Q;
     sent := [];
     signed := 0;
     acquired := 0;
     limiter_updates := [];
     slept := [];
     heap := ∅ |}.

(** The world after one attempt of the retry loop that reached the
    transport: the rate limiter was consulted when there is one, one
    signature was made, the request was sent and, when a response came
    back, it was handed to the rate limiter. *)
Definition after_attempt (self : AsyncKalshiClient.t) (req : Request)
    (response : option Response) (w : World) : World :=
  {| transport := transport w;
     clock := clock w;
     entropy := entropy w;
     limiter_wait := limiter_wait w;
     sent := sent w ++ [req];
     signed := S (signed w);
     acquired := if AsyncKalshiClient.rate_limiter self then S (acquired w)
                 else acquired w;
     limiter_updates := match response with
                        | Some r => limiter_updates w ++ [r]
                        | None => limiter_updates w
                        end;
     slept := slept w;
     heap := heap w |}.

(** The world after a backoff sleep. *)
Definition after_sleep (wait : Q) (w : World) : World :=
  {| transport := transport w;
     clock := clock w;
     entropy := entropy w;
     limiter_wait := limiter_wait w;
     sent := sent w;
     signed := signed w;
     acquired := acquired w;
     limiter_updates := limiter_updates w;
     slept := slept w ++ [wait];
     heap := heap w |}.

(** The request an attempt sends, given the headers. *)
Definition attempt_request (self : AsyncKalshiClient.t)
    (method endpoint : string) (data : option string)
    (headers : list (string * string)) : Request :=
  mk_request method (AsyncKalshiClient.api_base self +:+ endpoint) headers data
    (Some (AsyncKalshiClient.timeout self)).

(** Headers can be built for this method and endpoint, whatever the clock
    and the salt. *)
Definition headers_ok `{BaseKalshiClient} (method endpoint : string) : Prop :=
  ∀ now salt, ∃ headers, base_headers_at now salt method endpoint = Ok headers.

(** The headers of the next attempt in a world. *)
Definition next_headers `{BaseKalshiClient} (method endpoint : string)
    (w : World) : result (list (string * string)) :=
  base_headers_at (clock w (signed w)) (entropy w (signed w)) method endpoint.

(** Modelled from the spec: the members of [pykalshi/_base.py], which is
    not among the sources.  The retryable set holds 429 and 5xx server
    errors, the backoff prefers the server's [Retry-After] seconds when it
    has them and otherwise doubles per attempt up to a cap, and headers and
    response handling are those of the synchronous client. *)
Definition sample_backoff (attempt : Z) (retry_after : option string) : Q :=
  match retry_after ≫= NilZero.int_of_string with
  | Some seconds => inject_Z (Z.of_int seconds)
  | None => inject_Z (Z.min (2 ^ attempt) 30)
  end.

Definition sample_base : BaseKalshiClient :=
  {| _RETRYABLE_STATUS_CODES := [429; 500; 502; 503; 504];
     _compute_backoff := sample_backoff;
     base_headers_at := @headers_at sample_lib sample_client;
     base_handle_response := λ r _ _ _, KalshiClient._handle_response r |}.

Definition sample_async (retries : Z) : AsyncKalshiClient.t :=
  {| AsyncKalshiClient.api_base := "https://api.elections.kalshi.com/trade-api/v2";
     AsyncKalshiClient.timeout := 10%Q;
     AsyncKalshiClient.max_retries := retries;
     AsyncKalshiClient.rate_limiter := true |}.

Definition too_many_requests : Response :=
  mk_response 429 [("Retry-After", "1")] "slow down" None.

(** 429 on the first two calls, then 200 with a body. *)
Definition transport_429_429_200 (n : nat) : transport_result :=
  match n with
  | 0%nat | 1%nat => Responds too_many_requests
  | _ => Responds (ok_response (JObj [("markets", JArr [])]))
  end.

(** 429 on every call. *)
Definition transport_always_429 (n : nat) : transport_result :=
  Responds too_many_requests.

(** The world after the one call a synchronous request makes. *)
Definition after_sync_call (req : Request) (w : World) : World :=
  {| transport := transport w;
     clock := clock w;
     entropy := entropy w;
     limiter_wait := limiter_wait w;
     sent := sent w ++ [req];
     signed := S (signed w);
     acquired := acquired w;
     limiter_updates := limiter_updates w;
     slept := slept w;
     heap := heap w |}.

(** The two clients are configured alike. *)
Definition same_configuration (sync : SyncKalshiClient.t)
    (async : AsyncKalshiClient.t) : Prop :=
  SyncKalshiClient.api_base sync = AsyncKalshiClient.api_base async
  ∧ SyncKalshiClient.timeout sync = AsyncKalshiClient.timeout async
  ∧ Z.of_nat (SyncKalshiClient.max_retries sync) = AsyncKalshiClient.max_retries async
  ∧ SyncKalshiClient.rate_limiter sync = AsyncKalshiClient.rate_limiter async.

(** The body a DELETE of the asynchronous client carries: the compact JSON
    of the dict it is given, when that is not empty. *)
Definition delete_content `{PyLib} (body : option pydict) : option string :=
  match body with
  | Some (kv :: d) => Some (json_dumps (JObj (kv :: d)))
  | _ => None
  end.

Definition sample_sync (retries : nat) : SyncKalshiClient.t :=
  {| SyncKalshiClient.api_base := "https://api.elections.kalshi.com/trade-api/v2";
     SyncKalshiClient.timeout := 10%Q;
     SyncKalshiClient.max_retries := retries;
     SyncKalshiClient.rate_limiter := true |}.

(** The entries of a params dict that are sent: those whose value is not
    [None]. *)
Definition non_absent (params : pydict) : pydict :=
  filter (λ kv, is_None (snd kv) = false) params.

(** The endpoint requested for a path and a params dict. *)
Definition endpoint_for `{PyLib} (path : string) (params : pydict) : string :=
  match non_absent params with
  | [] => path
  | _ => path +:+ "?" +:+ urlencode (non_absent params)
  end.

(** The cursor a page returns and the items it carries under a key. *)
Definition page_cursor (page : pydict) : json :=
  dict_get page "cursor" (JStr "").

Definition page_items (response_key : string) (page : pydict) : list json :=
  match dict_get page response_key (JArr []) with
  | JArr items => items
  | _ => []
  end.

(** The endpoints requested for a sequence of pages: the first from the
    params, each later one from the params with [cursor] set to the cursor
    of the page before. *)
Fixpoint expected_endpoints `{PyLib} (path : string) (params : pydict)
    (pages : list pydict) : list string :=
  match pages with
  | [] => []
  | page :: pages' =>
      endpoint_for path params
      :: expected_endpoints path (dict_set params "cursor" (page_cursor page)) pages'
  end.

(** Method and URL of a request. *)
Definition request_line (req : Request) : string * string :=
  (req_method req, req_url req).

(** The transport serves the given pages: the i-th call from now on is
    answered by a response whose status is final and which the response
    handler turns into the i-th page. *)
Definition serves `{BaseKalshiClient} (w : World)
    (answers : list (Response * pydict)) : Prop :=
  ∀ i r page, answers !! i = Some (r, page) →
    transport w (length (sent w) + i) = Responds r
    ∧ (status_code r ∉ _RETRYABLE_STATUS_CODES)
    ∧ (∀ endpoint, base_handle_response r "GET" endpoint None = Ok (JObj page)).

(** The world with another heap. *)
Definition with_heap (h : gmap positive pydict) (w : World) : World :=
  {| transport := transport w;
     clock := clock w;
     entropy := entropy w;
     limiter_wait := limiter_wait w;
     sent := sent w;
     signed := signed w;
     acquired := acquired w;
     limiter_updates := limiter_updates w;
     slept := slept w;
     heap := h |}.

(** Two pages of a listing, the second one final, and the transport that
    serves them. *)
Definition page_one : pydict :=
  [("items", JArr [JStr "A"; JStr "B"]); ("cursor", JStr "p2")].

Definition page_two : pydict :=
  [("items", JArr [JStr "C"]); ("cursor", JStr "")].

Definition transport_two_pages (n : nat) : transport_result :=
  match n with
  | 0%nat => Responds (ok_response (JObj page_one))
  | _ => Responds (ok_response (JObj page_two))
  end.

(** The caller's params dict, stored at location 1. *)
Definition caller_params : pydict :=
  [("limit", JNum 100); ("status", JNull); ("cursor", JNull)].

Definition paging_world : World :=
  with_heap {[ 1%positive := caller_params ]} (world_of transport_two_pages).

(** ** Notions for the further properties *)

(** The transport gives these outcomes to the next calls, in order. *)
Definition answers (w : World) (outcomes : list transport_result) : Prop :=
  ∀ i o, outcomes !! i = Some o → transport w (length (sent w) + i) = o.

(** An outcome after which the retry loop goes round again when attempts
    remain: a response with a retryable status, a timeout, a connection
    error. *)
Definition retried `{BaseKalshiClient} (o : transport_result) : Prop :=
  match o with
  | Responds r => status_code r ∈ _RETRYABLE_STATUS_CODES
  | Fails TimeoutException | Fails ConnectError => True
  | Fails (OtherTransportError _) => False
  end.

(** The [Retry-After] value handed to [_compute_backoff] after an outcome. *)
Definition retry_after_of (o : transport_result) : option string :=
  match o with
  | Responds r => headers_get (resp_headers r) "Retry-After"
  | Fails _ => None
  end.

(** The sleeps after a run of retried outcomes that starts at [attempt]. *)
Fixpoint backoffs `{BaseKalshiClient} (attempt : Z) (outcomes : list transport_result)
  : list Q :=
  match outcomes with
  | [] => []
  | o :: outcomes' =>
      _compute_backoff attempt (retry_after_of o) :: backoffs (attempt + 1) outcomes'
  end.

(** The responses among some outcomes. *)
Fixpoint responses_of (outcomes : list transport_result) : list Response :=
  match outcomes with
  | [] => []
  | Responds r :: outcomes' => r :: responses_of outcomes'
  | Fails _ :: outcomes' => responses_of outcomes'
  end.

(** Method, URL and body of a request. *)
Definition request_triple (req : Request) : string * string * option string :=
  (req_method req, req_url req, req_content req).

(** A transport that replays a list of outcomes and then keeps giving the
    last one. *)
Definition transport_of (outcomes : list transport_result)
    (last : transport_result) (n : nat) : transport_result :=
  default last (outcomes !! n).

Definition service_unavailable : Response :=
  mk_response 503 [] "unavailable" None.

(** The status the handler works with: [int(response.status_code or 500)]. *)
Definition effective_status (r : Response) : Z :=
  if status_code r =? 0 then 500 else status_code r.

(** The class of the error the handler raises for a status and a code. *)
Definition error_class_for (status : Z) (code : json) : api_error_class :=
  if (status =? 401) || (status =? 403) then AuthenticationError
  else if status =? 404 then ResourceNotFoundError
  else if eq_str code "insufficient_funds" || eq_str code "insufficient_balance"
       then InsufficientFundsError
  else KalshiAPIError.

(** An exception that is not one of the API errors. *)
Definition not_api_error (e : exn) : Prop :=
  match e with
  | ApiError _ => False
  | _ => True
  end.

(** An endpoint that is a rooted path: it starts with a slash that is not
    followed by a second slash (nor by a tab, carriage return or line feed,
    which [urlsplit] deletes). *)
Definition is_rooted (endpoint : string) : bool :=
  match endpoint with
  | String c1 EmptyString => is_char "/" c1
  | String c1 (String c2 _) =>
      is_char "/" c1 && negb (is_char "/" c2) && negb (is_unsafe_url_byte c2)
  | EmptyString => false
  end.

(** ** Listings of the synchronous client (kalshi_api/client.py,
    kalshi_api/events.py) *)

(** [EventModel], models.py lines 46-66. *)
Module EventModel.
Record t : Type := mk {
  event_ticker : string;
  series_ticker : string;
  title : option string;
  sub_title : option string;
  category : option string;
  mutually_exclusive : bool;
  collateral_return_type : option string;
  strike_date : option string;
  strike_period : option string;
  available_on_brokers : bool
}.
End EventModel.

(** [Event], events.py lines 9-26: the constructor keeps the client and the
    model and copies six of the model's fields. *)
Module Event.
Record t : Type := mk {
  client : KalshiClient.t;
  data : EventModel.t;
  event_ticker : string;
  series_ticker : string;
  title : option string;
  sub_title : option string;
  category : option string;
  mutually_exclusive : bool
}.

Definition __init__ (client : KalshiClient.t) (data : EventModel.t) : t :=
  {| client := client;
     data := data;
     event_ticker := EventModel.event_ticker data;
     series_ticker := EventModel.series_ticker data;
     title := EventModel.title data;
     sub_title := EventModel.sub_title data;
     category := EventModel.category data;
     mutually_exclusive := EventModel.mutually_exclusive data |}.
End Event.

(** What the listings take from pydantic and from [kalshi_api/markets.py],
    a module that is not among the sources: [new_market self m] stands for
    [Market(self, MarketModel.model_validate(m))], which returns a market or
    raises; [EventModel_model_validate] for [EventModel.model_validate];
    [py_repr] for what an f-string inserts for a list or a dict. *)
Class ListingDeps : Type := {
  Market : Type;
  new_market : KalshiClient.t → json → result Market;
  EventModel_model_validate : json → result EventModel.t;
  py_repr : json → string
}.

(** An argument of type [str | None] as a value. *)
Definition opt_json (s : option string) : json :=
  match s with
  | Some s => JStr s
  | None => JNull
  end.

(** [f"{v}"]: a string goes in as it is, an integer in decimal, [None],
    [True] and [False] by name. *)
Definition py_format `{ListingDeps} (v : json) : string :=
  match v with
  | JStr s => s
  | JNum z => py_str_int z
  | JNull => "None"
  | JBool true => "True"
  | JBool false => "False"
  | _ => py_repr v
  end.

Module KalshiListing.
Import KalshiClient.

(** [if v: params.append(f"{name}={v}")] *)
Definition append_if_set `{ListingDeps} (params : list string) (name : string)
    (v : json) : list string :=
  if truthy v then (params ++ [name +:+ "=" +:+ py_format v])%list else params.

(** The endpoint of [get_markets] and [get_markets_paginated], lines
    215-223 and 260-268. *)
Definition markets_endpoint `{ListingDeps} (series_ticker event_ticker : option string)
    (status : string) (limit : Z) (current_cursor : json) : string :=
  let params := ["status=" +:+ status; "limit=" +:+ py_str_int limit] in
  let params := append_if_set params "series_ticker" (opt_json series_ticker) in
  let params := append_if_set params "event_ticker" (opt_json event_ticker) in
  let params := append_if_set params "cursor" current_cursor in
  "/markets?" +:+ String.concat "&" params.

(** The endpoint of [get_events] and [get_events_paginated], lines 316-324
    and 351-359. *)
Definition events_endpoint `{ListingDeps} (series_ticker status : option string)
    (limit : Z) (current_cursor : json) : string :=
  let params := ["limit=" +:+ py_str_int limit] in
  let params := append_if_set params "series_ticker" (opt_json series_ticker) in
  let params := append_if_set params "status" (opt_json status) in
  let params := append_if_set params "cursor" current_cursor in
  "/events?" +:+ String.concat "&" params.

(** [Event(self, EventModel.model_validate(e))] *)
Definition new_event `{ListingDeps} (self : t) (e : json) : result Event.t :=
  model ← EventModel_model_validate e;
  Ok (Event.__init__ self model).

(** One turn of the [while True] loop of [get_markets] (lines 223-234) and
    of [get_events] (lines 324-334), which differ in the endpoint, the
    response key and the constructor only: the items gathered so far and
    the cursor to go on with, if the loop goes on. *)
Definition listing_turn `{PyLib} {A} (self : t) (endpoint key : string)
    (make : json → result A) (fetch_all : bool) (all_items : list A)
  : M (list A * option json) :=
  response ← get self endpoint;
  items_data ← lift (py_get response key (JArr []));
  elements ← lift (py_iter items_data);
  items ← lift (map_result make elements);
  let all_items := (all_items ++ items)%list in
  next_cursor ← lift (py_get response "cursor" (JStr ""));
  if negb fetch_all || negb (truthy next_cursor) then mret (all_items, None)
  else mret (all_items, Some next_cursor).

(** The loop; [None] when [fuel] turns did not reach the [break]. *)
Fixpoint listing_loop `{PyLib} {A} (fuel : nat) (self : t)
    (endpoint_of : json → string) (key : string) (make : json → result A)
    (fetch_all : bool) (all_items : list A) (current_cursor : json) (w : World)
  : option (result (list A) * World) :=
  match fuel with
  | O => None
  | S fuel' =>
      match listing_turn self (endpoint_of current_cursor) key make fetch_all
              all_items w with
      | (Raise e, w') => Some (Raise e, w')
      | (Ok (all_items', None), w') => Some (Ok all_items', w')
      | (Ok (all_items', Some next_cursor), w') =>
          listing_loop fuel' self endpoint_of key make fetch_all all_items'
            next_cursor w'
      end
  end.

(** The body of [get_markets_paginated] (lines 268-274) and of
    [get_events_paginated] (lines 359-365): the cursor is read before the
    items are built. *)
Definition listing_page `{PyLib} {A} (self : t) (endpoint key : string)
    (make : json → result A) : M (list A * json) :=
  response ← get self endpoint;
  items_data ← lift (py_get response key (JArr []));
  next_cursor ← lift (py_get response "cursor" (JStr ""));
  elements ← lift (py_iter items_data);
  items ← lift (map_result make elements);
  mret (items, next_cursor).

(** [get_markets], lines 188-236. *)
Definition get_markets `{PyLib} `{ListingDeps} (fuel : nat) (self : t)
    (series_ticker event_ticker : option string) (status : string) (limit : Z)
    (cursor : option string) (fetch_all : bool)
  : World → option (result (list Market) * World) :=
  listing_loop fuel self
    (markets_endpoint series_ticker event_ticker status limit)
    "markets" (new_market self) fetch_all [] (opt_json cursor).

(** [get_markets_paginated], lines 238-274. *)
Definition get_markets_paginated `{PyLib} `{ListingDeps} (self : t)
    (series_ticker event_ticker : option string) (status : string) (limit : Z)
    (cursor : option string) : M (list Market * json) :=
  listing_page self
    (markets_endpoint series_ticker event_ticker status limit (opt_json cursor))
    "markets" (new_market self).

(** [get_events], lines 291-336. *)
Definition get_events `{PyLib} `{ListingDeps} (fuel : nat) (self : t)
    (series_ticker status : option string) (limit : Z)
    (cursor : option string) (fetch_all : bool)
  : World → option (result (list Event.t) * World) :=
  listing_loop fuel self (events_endpoint series_ticker status limit)
    "events" (new_event self) fetch_all [] (opt_json cursor).

(** [get_events_paginated], lines 338-365. *)
Definition get_events_paginated `{PyLib} `{ListingDeps} (self : t)
    (series_ticker status : option string) (limit : Z)
    (cursor : option string) : M (list Event.t * json) :=
  listing_page self
    (events_endpoint series_ticker status limit (opt_json cursor))
    "events" (new_event self).

(** [Event.get_markets], events.py lines 28-32:
    [self.client.get_markets(event_ticker=self.event_ticker)], the other
    arguments at their defaults. *)
Definition Event_get_markets `{PyLib} `{ListingDeps} (fuel : nat) (self : Event.t)
  : World → option (result (list Market) * World) :=
  get_markets fuel (Event.client self) None (Some (Event.event_ticker self))
    "open" 100 None false.

End KalshiListing.

(** The list of a page's outcome, without the cursor. *)
Definition items_only {A B} (run : result (A * B) * World) : result A * World :=
  (match run.1 with
   | Ok (items, _) => Ok items
   | Raise e => Raise e
   end, run.2).

(** The transport answers the next calls of the synchronous client by
    responses that its handler turns into the given pages. *)
Definition serves_sync (w : World) (answers : list (Response * pydict)) : Prop :=
  ∀ i r page, answers !! i = Some (r, page) →
    transport w (length (sent w) + i) = Responds r
    ∧ KalshiClient._handle_response r = Ok (JObj page).

(** The endpoints a listing requests for a sequence of pages: the first with
    the caller's cursor, each later one with the cursor of the page
    before. *)
Fixpoint listing_endpoints (endpoint_of : json → string) (cursor : json)
    (pages : list pydict) : list string :=
  match pages with
  | [] => []
  | page :: pages' =>
      endpoint_of cursor :: listing_endpoints endpoint_of (page_cursor page) pages'
  end.

(** The items a page carries under a key are built into [items]. *)
Definition page_builds {A} (key : string) (make : json → result A)
    (page : pydict) (items : list A) : Prop :=
  ∃ elements, dict_get page key (JArr []) = JArr elements
              ∧ map_result make elements = Ok items.

(** Sample dependencies: a market is the JSON object it was built from, an
    event needs the two tickers. *)
Definition sample_deps : ListingDeps :=
  {| Market := pydict;
     new_market := λ _ m, match m with JObj d => Ok d | _ => Raise ValueError end;
     EventModel_model_validate := λ e,
       match e with
       | JObj d =>
           match dict_get d "event_ticker" JNull, dict_get d "series_ticker" JNull with
           | JStr et, JStr st =>
               Ok (EventModel.mk et st None None None false None None None false)
           | _, _ => Raise ValueError
           end
       | _ => Raise ValueError
       end;
     py_repr := λ _, "" |}.

Definition markets_page_one : pydict :=
  [("markets", JArr [JObj [("ticker", JStr "A")]; JObj [("ticker", JStr "B")]]);
   ("cursor", JStr "p2")].

Definition markets_page_two : pydict :=
  [("markets", JArr [JObj [("ticker", JStr "C")]]); ("cursor", JStr "")].

Definition transport_two_market_pages (n : nat) : transport_result :=
  match n with
  | 0%nat => Responds (ok_response (JObj markets_page_one))
  | _ => Responds (ok_response (JObj markets_page_two))
  end.

Definition events_page_one : pydict :=
  [("events", JArr [JObj [("event_ticker", JStr "E1"); ("series_ticker", JStr "S")]]);
   ("cursor", JStr "q2")].

Definition events_page_two : pydict :=
  [("events", JArr []); ("cursor", JNull)].

Definition transport_two_event_pages (n : nat) : transport_result :=
  match n with
  | 0%nat => Responds (ok_response (JObj events_page_one))
  | _ => Responds (ok_response (JObj events_page_two))
  end.

(** A page one of whose markets is not an object, served after a first
    page. *)
Definition markets_page_invalid : pydict :=
  [("markets", JArr [JObj [("ticker", JStr "C")]; JNum 1]); ("cursor", JStr "")].

Definition transport_invalid_second_page (n : nat) : transport_result :=
  match n with
  | 0%nat => Responds (ok_response (JObj markets_page_one))
  | _ => Responds (ok_response (JObj markets_page_invalid))
  end.

(** A server that repeats its cursor. *)
Definition transport_same_page (n : nat) : transport_result :=
  Responds (ok_response (JObj markets_page_one)).

Definition sample_event : Event.t :=
  Event.__init__ sample_client
    (EventModel.mk "E1" "S" None None None false None None None false).

(** A server that repeats a page with a cursor, and one that answers 404
    after a first page; both worlds hold the caller's params at location
    1. *)
Definition repeating_world : World :=
  with_heap {[ 1%positive := caller_params ]}
    (world_of (λ _, Responds (ok_response (JObj page_one)))).

Definition not_found : Response :=
  mk_response 404 [] "body" (Some (JObj [("message", JStr "no such page")])).

Definition transport_page_then_404 (n : nat) : transport_result :=
  match n with
  | 0%nat => Responds (ok_response (JObj page_one))
  | _ => Responds not_found
  end.

Definition broken_paging_world : World :=
  with_heap {[ 1%positive := caller_params ]} (world_of transport_page_then_404).

(** ** Construction of the synchronous client (kalshi_api/client.py,
    lines 41-91) *)

Module KalshiClientInit.

Definition DEFAULT_API_BASE : string :=
  "https://api.elections.kalshi.com/trade-api/v2".
Definition DEMO_API_BASE : string :=
  "https://demo-api.elections.kalshi.com/trade-api/v2".

(** What reading a key file gives: an RSA private key; a key of another
    kind; a [ValueError] (of the PEM parser on data it cannot decode, of
    [open] on a path it cannot take); a [TypeError] (of the PEM parser on an
    encrypted key, no password being given); or another exception, of
    [open] or of the parser. *)
Inductive key_file : Type :=
| RSAKey (key : RSAPrivateKey)
| OtherKey
| LoaderValueError
| LoaderTypeError
| Unreadable.

(** The process environment and the file system the constructor reads. *)
Record Env : Type := mk_env {
  getenv : string → option string;
  read_key : string → key_file
}.

(** How a call ends: with a value, with [ValueError], with [TypeError], or
    with another exception that [open] or the PEM parser raised. *)
Inductive outcome (A : Type) : Type :=
| Returns (a : A)
| RaisesValueError
| RaisesTypeError
| RaisesLoadError.
Arguments Returns {A} a.
Arguments RaisesValueError {A}.
Arguments RaisesTypeError {A}.
Arguments RaisesLoadError {A}.

(** [a or b] for values of type [str | None]. *)
Definition opt_or (a b : option string) : option string :=
  if truthy (opt_json a) then a else b.

(** [_load_private_key], lines 85-91. *)
Definition _load_private_key (env : Env) (key_path : string)
  : outcome RSAPrivateKey :=
  match read_key env key_path with
  | RSAKey key => Returns key
  | OtherKey => RaisesTypeError
  | LoaderValueError => RaisesValueError
  | LoaderTypeError => RaisesTypeError
  | Unreadable => RaisesLoadError
  end.

(** [__init__], lines 54-83. *)
Definition __init__ (env : Env) (api_key_id private_key_path api_base : option string)
    (demo : bool) : outcome KalshiClient.t :=
  let api_key_id := opt_or api_key_id (getenv env "KALSHI_API_KEY_ID") in
  let private_key_path :=
    opt_or private_key_path (getenv env "KALSHI_PRIVATE_KEY_PATH") in
  match api_key_id with
  | None | Some "" => RaisesValueError
  | Some key_id =>
      match private_key_path with
      | None | Some "" => RaisesValueError
      | Some key_path =>
          let api_base :=
            opt_or api_base
              (Some (if demo then DEMO_API_BASE else DEFAULT_API_BASE)) in
          match _load_private_key env key_path with
          | Returns private_key =>
              Returns {| KalshiClient.api_key_id := key_id;
                         KalshiClient.api_base := default "" api_base;
                         KalshiClient.private_key := private_key |}
          | RaisesValueError => RaisesValueError
          | RaisesTypeError => RaisesTypeError
          | RaisesLoadError => RaisesLoadError
          end
      end
  end.

End KalshiClientInit.

(** An environment with both variables set and a readable RSA key. *)
Definition sample_env : KalshiClientInit.Env :=
  {| KalshiClientInit.getenv := λ name,
       if String.eqb name "KALSHI_API_KEY_ID" then Some "key-id"
       else if String.eqb name "KALSHI_PRIVATE_KEY_PATH" then Some "key.pem"
       else None;
     KalshiClientInit.read_key := λ _, KalshiClientInit.RSAKey toy_key |}.

(** ** RFQ listing of the asynchronous client (pykalshi/communications.py) *)

(** Upper-casing of the ASCII letters, for the sample instance below. *)
Definition ascii_upper (c : ascii) : ascii :=
  if ascii_in "a" "z" c then ascii_of_N (N_of_ascii c - 32) else c.

(** A dict display [{...}]: a new dict object holding the entries. *)
Definition dict_new (d : pydict) : M positive := λ w,
  let l := fresh (dom (heap w)) in
  (Ok l,
   mk_world (transport w) (clock w) (entropy w) (limiter_wait w)
            (sent w) (signed w) (acquired w) (limiter_updates w)
            (slept w) (<[l := d]> (heap w))).

(** What [AsyncCommunications] takes from Python, from pydantic and from
    [pykalshi/models.py] and [pykalshi/dataframe.py], which are not among
    the sources: [str_upper] is [str.upper()], which knows Unicode; the RFQ
    model comes with its validation; [DataFrameList_of make data] stands
    for [DataFrameList(make(x) for x in data)], whatever the constructor
    makes of the generator it is given. *)
Class CommunicationsDeps : Type := {
  str_upper : string → string;
  RfqModel : Type;
  RfqModel_model_validate : json → result RfqModel;
  DataFrameList : Type → Type;
  DataFrameList_of : ∀ A, (json → result A) → list json → result (DataFrameList A)
}.

Module AsyncCommunications.

Record t : Type := {
  _client : AsyncKalshiClient.t
}.

(** The params dict of [get_rfqs], lines 200-208: the limit, and each
    filter that is truthy. *)
Definition rfqs_params `{CommunicationsDeps}
    (market_ticker status mve_collection_ticker : option string)
    (limit : Z) (cursor : option string) : pydict :=
  let params := [("limit", JNum limit)] in
  let params :=
    match market_ticker with
    | Some s => if truthy (JStr s)
                then dict_set params "market_ticker" (JStr (str_upper s))
                else params
    | None => params
    end in
  let params :=
    if truthy (opt_json status)
    then dict_set params "status" (opt_json status) else params in
  let params :=
    if truthy (opt_json mve_collection_ticker)
    then dict_set params "mve_collection_ticker" (opt_json mve_collection_ticker)
    else params in
  if truthy (opt_json cursor)
  then dict_set params "cursor" (opt_json cursor) else params.

(** [AsyncCommunications.get_rfqs], lines 197-210. *)
Definition get_rfqs `{BaseKalshiClient} `{PyLib} `{CommunicationsDeps}
    (fuel : nat) (self : t)
    (market_ticker status mve_collection_ticker : option string)
    (limit : Z) (cursor : option string) (fetch_all : bool) (w : World)
  : option (result (DataFrameList RfqModel) * World) :=
  match dict_new (rfqs_params market_ticker status mve_collection_ticker
                    limit cursor) w with
  | (Raise e, w1) => Some (Raise e, w1)
  | (Ok params, w1) =>
      match AsyncKalshiClient.paginated_get fuel (_client self)
              "/communications/rfqs" "rfqs" params fetch_all w1 with
      | None => None
      | Some (Raise e, w2) => Some (Raise e, w2)
      | Some (Ok data, w2) =>
          Some (DataFrameList_of RfqModel RfqModel_model_validate data, w2)
      end
  end.

End AsyncCommunications.

(** Sample dependencies: upper-casing of ASCII text, an RFQ is the JSON
    value it was validated from, a [DataFrameList] is the list of the
    generator's values. *)
Definition sample_communications : CommunicationsDeps :=
  {| str_upper := str_map ascii_upper;
     RfqModel := json;
     RfqModel_model_validate := λ r, Ok r;
     DataFrameList := list;
     DataFrameList_of := λ A make data, map_result make data |}.

Definition rfqs_page_one : pydict :=
  [("rfqs", JArr [JStr "A"; JStr "B"]); ("cursor", JStr "p2")].

Definition rfqs_page_two : pydict :=
  [("rfqs", JArr [JStr "C"]); ("cursor", JStr "")].

Definition transport_two_rfq_pages (n : nat) : transport_result :=
  match n with
  | 0%nat => Responds (ok_response (JObj rfqs_page_one))
  | _ => Responds (ok_response (JObj rfqs_page_two))
  end.

(** * Properties *)

(** ** Sanity checks of the library models *)

Example b64encode_Man : b64encode "Man" = "TWFu".
Proof. reflexivity. Qed.
Example b64encode_Ma : b64encode "Ma" = "TWE=".
Proof. reflexivity. Qed.
Example b64encode_M : b64encode "M" = "TQ==".
Proof. reflexivity. Qed.
Example tab_is_9 : N_of_ascii "009" = 9%N.
Proof. reflexivity. Qed.
Example str_int_neg : py_str_int (-1707) = "-1707".
Proof. reflexivity. Qed.

(** ** The response handler of the synchronous client *)

Module HandleResponseFacts.
Import KalshiClient.

Lemma eq_str_true v s : eq_str v s = true ↔ v = JStr s.
Proof.
  destruct v; simpl; try (split; [discriminate | congruence]).
  rewrite String.eqb_eq. split; congruence.
Qed.

Lemma insufficient_spec code :
  eq_str code "insufficient_funds" || eq_str code "insufficient_balance" = true
  ↔ insufficient code.
Proof.
  unfold insufficient. rewrite orb_true_iff, !eq_str_true. tauto.
Qed.

(** What the [try ... except ValueError] block computes. *)
Lemma error_fields_object r d :
  json_body r = Some (JObj d) →
  try_except_ValueError
    (error_data ← response_json r;
     m ← py_get error_data "message" JNull;
     message ← (if truthy m then Ok m
                else py_get error_data "error_message" (JStr "Unknown Error"));
     c ← py_get error_data "code" JNull;
     code ← (if truthy c then Ok c else py_get error_data "error_code" JNull);
     Ok (message, code))
    (Ok (JStr (text r), JNull))
  = Ok (body_message d, body_code d).
Proof.
  intros Hb. unfold response_json, body_message, body_code, py_or. rewrite Hb. simpl.
  destruct (truthy (dict_get d "message" JNull)); simpl;
    destruct (truthy (dict_get d "code" JNull)); reflexivity.
Qed.

(** The handler by cases on the status and on the shape of the body. *)
Lemma handle_response_cases (r : Response) :
  _handle_response r
  = if effective_status r <? 400 then response_json r
    else match json_body r with
         | None =>
             raise_api (error_class_for (effective_status r) JNull)
               (effective_status r) (JStr (text r)) JNull
         | Some (JObj d) =>
             raise_api (error_class_for (effective_status r) (body_code d))
               (effective_status r) (body_message d) (body_code d)
         | Some _ => Raise AttributeError
         end.
Proof.
  unfold _handle_response, effective_status, error_class_for.
  destruct (if status_code r =? 0 then 500 else status_code r) as [|s|s] eqn:Hs;
    try reflexivity.
  destruct (Z.pos s <? 400); [reflexivity|].
  destruct (json_body r) as [j|] eqn:Hb.
  - destruct j; try (unfold response_json; rewrite Hb; reflexivity).
    rewrite (error_fields_object r kvs Hb). simpl.
    repeat (match goal with
            | |- context [if ?b then _ else _] => destruct b; simpl
            end); reflexivity.
  - unfold response_json. rewrite Hb. simpl.
    repeat (match goal with
            | |- context [if ?b then _ else _] => destruct b; simpl
            end); reflexivity.
Qed.

(** The class of the raised error, in the terms of the taxonomy. *)
Lemma error_class_for_spec (status : Z) (code : json) :
  let c := error_class_for status code in
  (c = AuthenticationError ↔ status = 401 ∨ status = 403)
  ∧ (c = ResourceNotFoundError ↔ status = 404)
  ∧ (c = InsufficientFundsError ↔
       status ≠ 401 ∧ status ≠ 403 ∧ status ≠ 404 ∧ insufficient code)
  ∧ (c = KalshiAPIError ↔
       status ≠ 401 ∧ status ≠ 403 ∧ status ≠ 404 ∧ ¬ insufficient code).
Proof.
  unfold error_class_for.
  destruct (Z.eqb_spec status 401) as [E1|N1]; simpl.
  { repeat split; intros; try discriminate; try tauto; lia. }
  destruct (Z.eqb_spec status 403) as [E3|N3]; simpl.
  { repeat split; intros; try discriminate; try tauto; lia. }
  destruct (Z.eqb_spec status 404) as [E4|N4]; simpl.
  { repeat split; intros; try discriminate; try tauto; lia. }
  destruct (eq_str code "insufficient_funds" || eq_str code "insufficient_balance") eqn:Hc.
  - apply insufficient_spec in Hc.
    repeat split; intros; try discriminate; try tauto; lia.
  - assert (¬ insufficient code) by (rewrite <- insufficient_spec, Hc; discriminate).
    repeat split; intros; try discriminate; try tauto; lia.
Qed.

(** C1 (as amended): for every response, with a status code of zero (a
    missing status) counted as 500.  When the status is below 400,
    [_handle_response] returns the parsed JSON body, and lets the
    [ValueError] of [response.json()] through when the body is not JSON.
    When the status is 400 or more and the body is JSON but not an object,
    it raises [AttributeError].  In every other case it raises an API error
    carrying that status, of class [AuthenticationError] exactly for 401 and
    403, [ResourceNotFoundError] exactly for 404, [InsufficientFundsError]
    exactly when the status is none of 401, 403, 404 and the error code is
    "insufficient_funds" or "insufficient_balance", and plain
    [KalshiAPIError] exactly in the remaining cases; message and code are
    read from the body (message, else error_message, else "Unknown Error";
    code, else error_code), and when the body is not JSON the message is the
    raw response text and the code is [None]. *)
Theorem handle_response_taxonomy (r : Response) :
  let status := effective_status r in
  (status < 400 →
     (∀ j, json_body r = Some j → _handle_response r = Ok j)
     ∧ (json_body r = None → _handle_response r = Raise ValueError))
  ∧ (400 ≤ status →
     (∀ j, json_body r = Some j → (∀ d, j ≠ JObj d) →
        _handle_response r = Raise AttributeError)
     ∧ ((∀ j, json_body r = Some j → ∃ d, j = JObj d) →
        ∃ c msg code,
          _handle_response r = Raise (ApiError (mk_api_error c status msg code))
          ∧ (c = AuthenticationError ↔ status = 401 ∨ status = 403)
          ∧ (c = ResourceNotFoundError ↔ status = 404)
          ∧ (c = InsufficientFundsError ↔
               status ≠ 401 ∧ status ≠ 403 ∧ status ≠ 404 ∧ insufficient code)
          ∧ (c = KalshiAPIError ↔
               status ≠ 401 ∧ status ≠ 403 ∧ status ≠ 404 ∧ ¬ insufficient code)
          ∧ (∀ d, json_body r = Some (JObj d) →
               msg = body_message d ∧ code = body_code d)
          ∧ (json_body r = None → msg = JStr (text r) ∧ code = JNull))).
Proof.
  intros status. subst status. rewrite handle_response_cases.
  split.
  - intros Hlt. destruct (Z.ltb_spec (effective_status r) 400) as [_|]; [|lia].
    unfold response_json. split.
    + intros j ->. reflexivity.
    + intros ->. reflexivity.
  - intros Hge. destruct (Z.ltb_spec (effective_status r) 400) as [|_]; [lia|].
    split.
    + intros j -> Hj. destruct j; try reflexivity. now destruct (Hj kvs).
    + intros Hshape. destruct (json_body r) as [j|] eqn:Hb.
      * destruct (Hshape j eq_refl) as [d ->].
        destruct (error_class_for_spec (effective_status r) (body_code d))
          as (H1 & H2 & H3 & H4).
        exists (error_class_for (effective_status r) (body_code d)),
          (body_message d), (body_code d).
        refine (conj eq_refl (conj H1 (conj H2 (conj H3 (conj H4 (conj _ _)))))).
        -- intros d' [= <-]. split; reflexivity.
        -- intros; discriminate.
      * destruct (error_class_for_spec (effective_status r) JNull)
          as (H1 & H2 & H3 & H4).
        exists (error_class_for (effective_status r) JNull), (JStr (text r)), JNull.
        refine (conj eq_refl (conj H1 (conj H2 (conj H3 (conj H4 (conj _ _)))))).
        -- intros; discriminate.
        -- intros _. split; reflexivity.
Qed.

(** C1 (as stated) fails in four ways.  A 401 whose body carries
    "insufficient_funds" is a non-404 error with an insufficient-funds code,
    yet the handler raises [AuthenticationError]: the status tests come
    first.  A 200 whose body is not JSON has no parsed body to return: the
    handler raises [ValueError].  A 500 whose body is a JSON array raises
    [AttributeError], not an API error.  A status of zero is below 400, yet
    the handler raises the API error for 500. *)
Lemma handle_response_claim_fails :
  _handle_response resp_401_insufficient_funds
  = Raise (ApiError (mk_api_error AuthenticationError 401 (JStr "Unknown Error")
                       (JStr "insufficient_funds")))
  ∧ ¬ (∀ r d, json_body r = Some (JObj d) → 400 ≤ status_code r →
         status_code r ≠ 404 → insufficient (body_code d) →
         ∃ e, _handle_response r = Raise (ApiError e)
              ∧ err_class e = InsufficientFundsError)
  ∧ _handle_response resp_200_not_json = Raise ValueError
  ∧ ¬ (∀ r, 0 < status_code r < 400 → ∃ j, _handle_response r = Ok j)
  ∧ _handle_response resp_500_array = Raise AttributeError
  ∧ ¬ (∀ r, 400 ≤ status_code r → ∃ e, _handle_response r = Raise (ApiError e))
  ∧ _handle_response resp_0_object
    = Raise (ApiError (mk_api_error KalshiAPIError 500 (JStr "Unknown Error") JNull))
  ∧ ¬ (∀ r j, status_code r < 400 → json_body r = Some j →
         _handle_response r = Ok j).
Proof.
  split; [reflexivity|]. split.
  { intros H.
    destruct (H resp_401_insufficient_funds [("code", JStr "insufficient_funds")])
      as (e & He & Hcls); try reflexivity; try (simpl; lia).
    - left; reflexivity.
    - vm_compute in He. injection He as <-. discriminate Hcls. }
  split; [reflexivity|]. split.
  { intros H. destruct (H resp_200_not_json) as [j Hj]; [simpl; lia|].
    discriminate Hj. }
  split; [reflexivity|]. split.
  { intros H. destruct (H resp_500_array) as [e He]; [simpl; lia|].
    discriminate He. }
  split; [reflexivity|].
  intros H. specialize (H resp_0_object (JObj [])).
  discriminate H; [simpl; lia | reflexivity].
Qed.

Lemma handle_response_taxonomy_witness :
  400 ≤ effective_status resp_402_insufficient_balance
  ∧ ∃ c msg code,
      _handle_response resp_402_insufficient_balance
      = Raise (ApiError (mk_api_error c 402 msg code))
      ∧ c = InsufficientFundsError ∧ msg = JStr "no funds".
Proof.
  assert (Hge : 400 ≤ effective_status resp_402_insufficient_balance)
    by (vm_compute; discriminate).
  split; [exact Hge|].
  destruct (proj2 (proj2 (handle_response_taxonomy resp_402_insufficient_balance)
                     Hge))
    as (c & msg & code & Hc & _ & _ & H3 & _ & Hbody & _).
  { intros j [= <-]. eexists; reflexivity. }
  destruct (Hbody _ eq_refl) as [-> ->].
  exists c, (JStr "no funds"), (JStr "insufficient_balance").
  split; [exact Hc|]. split; [|reflexivity].
  apply H3. repeat split; try discriminate. right; reflexivity.
Defined.

(** A status code of zero is read as 500. *)
Lemma handle_response_status_zero headers text body :
  _handle_response (mk_response 0 headers text body)
  = _handle_response (mk_response 500 headers text body).
Proof. reflexivity. Qed.

(** An error body that is JSON but not an object: [.get] fails and the
    [AttributeError] is not caught. *)
Lemma handle_response_error_body_not_object r j :
  status_code r ≠ 0 → 400 ≤ status_code r → json_body r = Some j →
  (∀ d, j ≠ JObj d) → _handle_response r = Raise AttributeError.
Proof.
  intros Hnz Hge Hb Hj. unfold _handle_response.
  destruct (Z.eqb_spec (status_code r) 0) as [|_]; [contradiction|].
  destruct (Z.ltb_spec (status_code r) 400) as [|_]; [lia|].
  unfold response_json. rewrite Hb.
  destruct j; try reflexivity. now destruct (Hj kvs).
Qed.

End HandleResponseFacts.

(** ** The order-book response model *)

Module ModelsFacts.
Import Models.

Lemma py_max_ge x xs : x ≤ py_max x xs.
Proof.
  unfold py_max. revert x. induction xs as [|y ys IH]; intros x; simpl; [lia|].
  specialize (IH (Z.max x y)). lia.
Qed.

Lemma py_max_upper x xs y : y ∈ x :: xs → y ≤ py_max x xs.
Proof.
  unfold py_max. revert x. induction xs as [|z zs IH]; intros x Hy; simpl.
  - apply list_elem_of_singleton in Hy. lia.
  - apply elem_of_cons in Hy as [->|Hy].
    + pose proof (py_max_ge (Z.max x z) zs). unfold py_max in *. lia.
    + apply elem_of_cons in Hy as [->|Hy].
      * pose proof (py_max_ge (Z.max x z) zs). unfold py_max in *. lia.
      * apply IH. now apply elem_of_cons; right.
Qed.

Lemma py_max_in x xs : py_max x xs ∈ x :: xs.
Proof.
  unfold py_max. revert x. induction xs as [|z zs IH]; intros x; simpl.
  - apply elem_of_cons; now left.
  - specialize (IH (Z.max x z)). apply elem_of_cons in IH as [IH|IH].
    + rewrite IH. destruct (Z.max_spec x z) as [[_ ->]|[_ ->]].
      * apply elem_of_cons; right. apply elem_of_cons; now left.
      * apply elem_of_cons; now left.
    + apply elem_of_cons; right. apply elem_of_cons; now right.
Qed.

(** When every level of a side has a price and a quantity, the first
    components read by [max_first] are the prices of the typed levels. *)
Lemma map_result_level_firsts side levels :
  map_result level_of side = Ok levels →
  map_result (λ p, py_index p 0) side = Ok (map price levels).
Proof.
  revert levels. induction side as [|p side IH]; intros levels; simpl.
  - intros [= <-]. reflexivity.
  - destruct p as [|p0 [|p1 p]]; try discriminate.
    destruct (map_result level_of side) as [ls|] eqn:Hls; [|discriminate].
    rewrite (IH ls eq_refl). now intros [= <-].
Qed.

Lemma map_result_nonempty {A B} (f : A → result B) x l ys :
  map_result f (x :: l) = Ok ys → ys ≠ [].
Proof.
  simpl. destruct (f x); [|discriminate].
  destruct (map_result f l); [|discriminate]. now intros [= <-].
Qed.

Lemma best_bid_of_side side levels :
  side ≠ [] → map_result level_of side = Ok levels →
  ∃ m, max_first side = Ok (Some m)
       ∧ m ∈ map price levels ∧ ∀ l, l ∈ levels → price l ≤ m.
Proof.
  intros Hne Hlv. unfold max_first.
  rewrite (map_result_level_firsts _ _ Hlv). simpl.
  destruct side as [|p side]; [contradiction|].
  pose proof (map_result_nonempty _ _ _ _ Hlv) as Hls.
  destruct levels as [|l0 ls]; [contradiction|]. simpl.
  exists (py_max (price l0) (map price ls)). split; [reflexivity|]. split.
  - apply (py_max_in (price l0) (map price ls)).
  - intros l Hl. apply py_max_upper. change (price l ∈ map price (l0 :: ls)).
    now apply list_elem_of_fmap_2.
Qed.

(** The first components read by [max(p[0] for p in side)]. *)
Lemma firsts_of_side (side : list (list Z)) :
  [] ∉ side →
  ∃ firsts, map_result (λ p, py_index p 0) side = Ok firsts
            ∧ map Some firsts = map head side.
Proof.
  induction side as [|p side IH]; intros Hno; simpl.
  - now exists [].
  - destruct p as [|p0 p]; [exfalso; apply Hno; now left|].
    destruct IH as (fs & -> & Hfs); [intros Hin; apply Hno; now right|].
    exists (p0 :: fs). simpl. now rewrite Hfs.
Qed.

Lemma firsts_of_side_raise (side : list (list Z)) :
  [] ∈ side → map_result (λ p, py_index p 0) side = Raise IndexError.
Proof.
  induction side as [|p side IH]; intros Hin.
  - now apply elem_of_nil in Hin.
  - simpl. destruct p as [|p0 p]; [reflexivity|].
    apply elem_of_cons in Hin as [Hin|Hin]; [discriminate|].
    simpl. now rewrite (IH Hin).
Qed.

Lemma max_first_cases (side : list (list Z)) :
  (side = [] → max_first side = Ok None)
  ∧ ([] ∈ side → max_first side = Raise IndexError)
  ∧ (side ≠ [] → [] ∉ side →
     ∃ m, max_first side = Ok (Some m)
          ∧ Some m ∈ map head side
          ∧ ∀ x, Some x ∈ map head side → x ≤ m).
Proof.
  split; [now intros ->|]. split.
  - intros Hin. unfold max_first. now rewrite (firsts_of_side_raise side Hin).
  - intros Hne Hno. unfold max_first.
    destruct (firsts_of_side side Hno) as (fs & -> & Hfs). simpl.
    destruct fs as [|x xs].
    { destruct side; [contradiction | discriminate]. }
    exists (py_max x xs). split; [reflexivity|]. rewrite <- Hfs. split.
    + apply (list_elem_of_fmap_2 Some). apply py_max_in.
    + intros y Hy. apply list_elem_of_fmap in Hy as (z & [= ->] & Hz).
      now apply py_max_upper.
Qed.

(** The best bid of a non-empty side without an empty entry. *)
Lemma best_bid_of_entries (side : list (list Z)) :
  side ≠ [] → [] ∉ side →
  ∃ m, max_first side = Ok (Some m)
       ∧ (∃ p, p ∈ side ∧ head p = Some m)
       ∧ (∀ p x, p ∈ side → head p = Some x → x ≤ m)
       ∧ (∀ levels, map_result level_of side = Ok levels →
            m ∈ map price levels ∧ ∀ l, l ∈ levels → price l ≤ m).
Proof.
  intros Hne Hno.
  destruct (proj2 (proj2 (max_first_cases side)) Hne Hno) as (m & Hm & Hin & Hup).
  exists m. split; [exact Hm|]. split; [|split].
  - apply list_elem_of_fmap in Hin as (p & Hp & Hps). now exists p.
  - intros p x Hp Hx. apply Hup. rewrite <- Hx. now apply list_elem_of_fmap_2.
  - intros levels Hlv.
    destruct (best_bid_of_side side levels Hne Hlv) as (m' & Hm' & Hin' & Hup').
    rewrite Hm in Hm'. injection Hm' as <-. now split.
Qed.

Lemma side_falsy_false {A} (side : option (list A)) :
  side_falsy side = false → side_list side ≠ [].
Proof. destruct side as [[|x l]|]; simpl; intros H; discriminate. Qed.

Lemma best_bid_unfold (side : option (list (list Z))) :
  (if side_falsy side then Ok None else max_first (side_list side))
  = max_first (side_list side).
Proof. destruct side as [[|p l]|]; reflexivity. Qed.

(** C8 (as amended): when the yes side is non-empty and none of its entries
    is the empty list, [best_yes_bid] is the maximum of the prices of the
    side's entries, the price being the first component: it is the price of
    one entry and no entry has a higher price; whenever [yes_levels] yields
    the typed levels, it is the maximum of their prices.  The same holds
    for the no side.  When a side is absent or empty the query returns
    [None]; when some entry of the side is the empty list it raises
    [IndexError]. *)
Theorem best_bid_is_max_price (ob : OrderbookResponse) :
  let yes_side := side_list (yes (orderbook ob)) in
  let no_side := side_list (no (orderbook ob)) in
  (side_falsy (yes (orderbook ob)) = false → [] ∉ yes_side →
     ∃ m, best_yes_bid ob = Ok (Some m)
          ∧ (∃ p, p ∈ yes_side ∧ head p = Some m)
          ∧ (∀ p x, p ∈ yes_side → head p = Some x → x ≤ m)
          ∧ (∀ levels, yes_levels ob = Ok levels →
               m ∈ map price levels ∧ ∀ l, l ∈ levels → price l ≤ m))
  ∧ (side_falsy (no (orderbook ob)) = false → [] ∉ no_side →
     ∃ m, best_no_bid ob = Ok (Some m)
          ∧ (∃ p, p ∈ no_side ∧ head p = Some m)
          ∧ (∀ p x, p ∈ no_side → head p = Some x → x ≤ m)
          ∧ (∀ levels, no_levels ob = Ok levels →
               m ∈ map price levels ∧ ∀ l, l ∈ levels → price l ≤ m))
  ∧ (side_falsy (yes (orderbook ob)) = true → best_yes_bid ob = Ok None)
  ∧ (side_falsy (no (orderbook ob)) = true → best_no_bid ob = Ok None)
  ∧ ([] ∈ yes_side → best_yes_bid ob = Raise IndexError)
  ∧ ([] ∈ no_side → best_no_bid ob = Raise IndexError).
Proof.
  intros yes_side no_side. subst yes_side no_side.
  unfold yes_levels, no_levels, best_yes_bid, best_no_bid.
  split; [|split; [|split; [|split; [|split]]]].
  - intros Hne Hno. rewrite Hne.
    apply best_bid_of_entries; [now apply side_falsy_false | exact Hno].
  - intros Hne Hno. rewrite Hne.
    apply best_bid_of_entries; [now apply side_falsy_false | exact Hno].
  - now intros ->.
  - now intros ->.
  - intros Hin. rewrite best_bid_unfold.
    now apply (proj1 (proj2 (max_first_cases _))).
  - intros Hin. rewrite best_bid_unfold.
    now apply (proj1 (proj2 (max_first_cases _))).
Qed.

(** C8 (as stated) fails: a yes side may be non-empty and hold an entry
    without a price; [best_yes_bid] then raises instead of returning the
    maximum price. *)
Lemma best_bid_fails_on_empty_entry :
  side_falsy (yes (orderbook book_empty_entry)) = false
  ∧ best_yes_bid book_empty_entry = Raise IndexError
  ∧ ¬ (∀ ob, side_falsy (yes (orderbook ob)) = false →
         ∃ m, best_yes_bid ob = Ok (Some m)).
Proof.
  split; [reflexivity|]. split; [reflexivity|].
  intros H. destruct (H book_empty_entry eq_refl) as [m Hm]. discriminate Hm.
Qed.

Lemma side_falsy_true {A} (side : option (list A)) :
  side_falsy side = true ↔ side = None ∨ side = Some [].
Proof.
  destruct side as [[|x l]|]; simpl; split; intros H; try reflexivity;
    try discriminate; try (now left); try (now right).
  destruct H; discriminate.
Qed.

Lemma best_bid_is_max_price_witness :
  side_falsy (yes (orderbook sample_book)) = false
  ∧ ([] ∉ side_list (yes (orderbook sample_book)))
  ∧ yes_levels sample_book = Ok sample_yes_levels
  ∧ ∃ m, best_yes_bid sample_book = Ok (Some m)
         ∧ m ∈ map price sample_yes_levels
         ∧ ∀ l, l ∈ sample_yes_levels → price l ≤ m.
Proof.
  assert (Hno : [] ∉ side_list (yes (orderbook sample_book))).
  { intros Hin. vm_compute in Hin.
    repeat (apply elem_of_cons in Hin as [Hin|Hin]; [discriminate|]).
    now apply elem_of_nil in Hin. }
  split; [reflexivity|]. split; [exact Hno|]. split; [reflexivity|].
  destruct (proj1 (best_bid_is_max_price sample_book) eq_refl Hno)
    as (m & Hm & _ & _ & Hlv).
  exists m. split; [exact Hm|]. exact (Hlv sample_yes_levels eq_refl).
Defined.

Example best_yes_bid_sample : best_yes_bid sample_book = Ok (Some 55).
Proof. reflexivity. Qed.

Example best_no_bid_sample : best_no_bid sample_book = Ok None.
Proof. reflexivity. Qed.

(** A side entry without a price makes the query raise. *)
Example best_yes_bid_empty_entry :
  best_yes_bid (mk_OrderbookResponse (mk_Orderbook (Some [[]]) None None None) None)
  = Raise IndexError.
Proof. reflexivity. Qed.

(** C9 (as stated) fails: the model stores any two integers. *)
Lemma orderbook_level_unchecked :
  price level_out_of_range = 150 ∧ quantity level_out_of_range = -5
  ∧ yes_levels book_out_of_range = Ok [level_out_of_range]
  ∧ ¬ (∀ l : OrderbookLevel, 1 ≤ price l ≤ 99 ∧ 0 ≤ quantity l).
Proof.
  repeat split.
  intros H. destruct (H level_out_of_range) as [[_ Hp] _]. simpl in Hp. lia.
Qed.

(** C9 (as amended): an [OrderbookLevel] holds exactly the two integers it
    was constructed from, whatever they are, and [yes_levels] / [no_levels]
    turn each [price, quantity] entry of a side into the level with that
    price and that quantity, in order, without checking any range. *)
Theorem orderbook_level_stores_fields :
  (∀ p q : Z, price (mk_OrderbookLevel p q) = p ∧ quantity (mk_OrderbookLevel p q) = q)
  ∧ (∀ ob levels, yes_levels ob = Ok levels →
       map (λ l, [price l; quantity l]) levels
       = map (take 2) (side_list (yes (orderbook ob))))
  ∧ (∀ ob levels, no_levels ob = Ok levels →
       map (λ l, [price l; quantity l]) levels
       = map (take 2) (side_list (no (orderbook ob)))).
Proof.
  assert (Hmap : ∀ side levels, map_result level_of side = Ok levels →
            map (λ l, [price l; quantity l]) levels = map (take 2) side).
  { induction side as [|p side IH]; intros levels; simpl.
    - now intros [= <-].
    - destruct p as [|p0 [|p1 p]]; try discriminate.
      destruct (map_result level_of side) as [ls|]; [|discriminate].
      intros [= <-]. simpl. now rewrite (IH ls eq_refl). }
  split; [now intros|]. split.
  - intros ob levels. unfold yes_levels.
    destruct (yes (orderbook ob)) as [[|p side]|]; simpl side_falsy; cbv iota;
      try (now intros [= <-]). apply Hmap.
  - intros ob levels. unfold no_levels.
    destruct (no (orderbook ob)) as [[|p side]|]; simpl side_falsy; cbv iota;
      try (now intros [= <-]). apply Hmap.
Qed.

Lemma orderbook_level_stores_fields_witness :
  yes_levels book_out_of_range = Ok [level_out_of_range]
  ∧ map (λ l, [price l; quantity l]) [level_out_of_range]
    = map (take 2) (side_list (yes (orderbook book_out_of_range))).
Proof.
  assert (Hy : yes_levels book_out_of_range = Ok [level_out_of_range])
    by reflexivity.
  split; [exact Hy|].
  exact (proj1 (proj2 orderbook_level_stores_fields) book_out_of_range
           [level_out_of_range] Hy).
Defined.

End ModelsFacts.

(** ** Strings, decimal rendering and base64 *)

Module StringFacts.

Lemma append_nil_l (s : string) : "" +:+ s = s.
Proof. reflexivity. Qed.

Lemma append_cons (c : ascii) (a s : string) :
  String c a +:+ s = String c (a +:+ s).
Proof. reflexivity. Qed.

Lemma length_append (a b : string) :
  String.length (a +:+ b) = (String.length a + String.length b)%nat.
Proof.
  induction a as [|c a IH]; [reflexivity|].
  rewrite append_cons. simpl. now rewrite IH.
Qed.

(** Appending the same suffix is injective. *)
Lemma append_inj_r (s a b : string) : a +:+ s = b +:+ s → a = b.
Proof.
  revert b. induction a as [|c a IH]; intros [|c' b] H;
    rewrite ?append_nil_l, ?append_cons in H.
  - reflexivity.
  - apply (f_equal String.length) in H. simpl in H.
    rewrite length_append in H. lia.
  - apply (f_equal String.length) in H. simpl in H.
    rewrite length_append in H. lia.
  - injection H as -> H. f_equal. now apply IH.
Qed.

Lemma to_int_not_nil z : Z.to_int z ≠ Decimal.Pos Decimal.Nil ∧ Z.to_int z ≠ Decimal.Neg Decimal.Nil.
Proof.
  split; intros H; pose proof (DecimalZ.of_to z) as Hz; rewrite H in Hz;
    simpl in Hz; subst z; discriminate H.
Qed.

(** [str] is injective on integers. *)
Lemma py_str_int_inj a b : py_str_int a = py_str_int b → a = b.
Proof.
  unfold py_str_int. intros H.
  destruct (to_int_not_nil a) as [Ha1 Ha2], (to_int_not_nil b) as [Hb1 Hb2].
  pose proof (NilZero.isi _ Ha1 Ha2) as Ia.
  pose proof (NilZero.isi _ Hb1 Hb2) as Ib.
  rewrite H, Ib in Ia. injection Ia as Ia.
  rewrite <- (DecimalZ.of_to a), <- (DecimalZ.of_to b). now rewrite Ia.
Qed.

Lemma b64_sextet_char x : b64_sextet (b64_char x) = Some x.
Proof. destruct x as [[[[[[] []] []] []] []] []]; reflexivity. Qed.

Lemma b64_char_inj x y : b64_char x = b64_char y → x = y.
Proof.
  intros H. pose proof (b64_sextet_char x) as Hx.
  rewrite H, b64_sextet_char in Hx. now injection Hx.
Qed.

Lemma b64_char_not_pad x : b64_char x ≠ "="%char.
Proof. destruct x as [[[[[[] []] []] []] []] []]; discriminate. Qed.

(** Induction on strings three characters at a time. *)
Lemma string_ind3 (P : string → Prop) :
  P "" →
  (∀ a, P (String a "")) →
  (∀ a b, P (String a (String b ""))) →
  (∀ a b c rest, P rest → P (String a (String b (String c rest)))) →
  ∀ s, P s.
Proof.
  intros H0 H1 H2 H3 s.
  enough (P s ∧ (∀ a, P (String a s)) ∧ (∀ a b, P (String a (String b s))))
    by tauto.
  induction s as [|c s (IH0 & IH1 & IH2)].
  - auto.
  - repeat split; auto.
Qed.

Ltac b64_step :=
  repeat match goal with
    | H : String _ _ = String _ _ |- _ => injection H; clear H; intros
    | H : b64_char _ = b64_char _ |- _ =>
        apply b64_char_inj in H; injection H; clear H; intros; subst
    | H : b64_char _ = Ascii _ _ _ _ _ _ _ _ |- _ =>
        exfalso; exact (b64_char_not_pad _ H)
    | H : Ascii _ _ _ _ _ _ _ _ = b64_char _ |- _ =>
        exfalso; exact (b64_char_not_pad _ (eq_sym H))
    | H : EmptyString = String _ _ |- _ => discriminate H
    | H : String _ _ = EmptyString |- _ => discriminate H
    end.

(** [b64encode] is injective. *)
Lemma b64encode_inj s1 s2 : b64encode s1 = b64encode s2 → s1 = s2.
Proof.
  revert s2. induction s1 as [|a|a b|a b c rest IH] using string_ind3;
    intros s2 H.
  - destruct s2 as [|[] [|[] [|[] ?]]]; [reflexivity|..]; discriminate H.
  - destruct a. destruct s2 as [|[] [|[] [|[] ?]]]; simpl in H; b64_step;
      reflexivity.
  - destruct a, b. destruct s2 as [|[] [|[] [|[] ?]]]; simpl in H; b64_step;
      reflexivity.
  - destruct a, b, c. destruct s2 as [|[] [|[] [|[] ?]]]; simpl in H; b64_step.
    f_equal. f_equal. f_equal. now apply IH.
Qed.

End StringFacts.

(** ** Signing (synchronous client) *)

Module SigningFacts.
Import KalshiClient StringFacts.

(** With the same method and path, distinct timestamp strings give distinct
    messages. *)
Lemma signed_message_inj_timestamp ts1 ts2 method path :
  signed_message ts1 method path = signed_message ts2 method path → ts1 = ts2.
Proof. unfold signed_message. apply append_inj_r. Qed.

(** The outcome of [_sign_request] in a world. *)
Lemma sign_request_eval (self : t) method path w :
  _sign_request self method path w
  = (Ok (sign_at self (clock w (signed w)) (entropy w (signed w)) method path),
     after_signature w).
Proof. reflexivity. Qed.

(** Finitely many strings have at most [n] bytes. *)
Lemma all_ascii_complete (c : ascii) : c ∈ all_ascii.
Proof.
  destruct c as [[] [] [] [] [] [] [] []];
    apply (bool_decide_unpack _); vm_compute; exact I.
Qed.

Lemma strings_upto_complete (n : nat) (m : string) :
  (String.length m ≤ n)%nat → m ∈ strings_upto n.
Proof.
  revert m. induction n as [|n IH]; intros [|c m] Hlen; cbn [strings_upto].
  - apply list_elem_of_singleton. reflexivity.
  - simpl in Hlen. lia.
  - apply elem_of_cons. now left.
  - simpl in Hlen. apply elem_of_cons. right. apply list_elem_of_bind.
    exists c. split; [|apply all_ascii_complete].
    apply list_elem_of_bind. exists m. split; [|apply IH; lia].
    apply list_elem_of_singleton. reflexivity.
Qed.

(** Two inputs with the same image, found in a list whose images repeat. *)
Lemma repeated_image {A} (f : A → string) (l : list A) :
  NoDup l → ¬ NoDup (f <$> l) →
  ∃ x y, x ∈ l ∧ y ∈ l ∧ x ≠ y ∧ f x = f y.
Proof.
  induction l as [|x l IH]; intros Hl Hfl.
  - destruct Hfl. constructor.
  - apply NoDup_cons in Hl as [Hx Hl].
    destruct (decide (f x ∈ f <$> l)) as [Hin|Hout].
    + apply list_elem_of_fmap in Hin as (y & Hy & Hyl).
      exists x, y. repeat split; [now left | now right | | exact Hy].
      intros ->. contradiction.
    + destruct (decide (NoDup (f <$> l))) as [Hnd|Hnd].
      * destruct Hfl. rewrite fmap_cons. apply NoDup_cons. now split.
      * destruct (IH Hl Hnd) as (a & b & Ha & Hb & Hab & Hf).
        exists a, b. repeat split; [now right | now right | exact Hab | exact Hf].
Qed.

(** Signatures of bounded length cannot tell all timestamps apart: whatever
    the key, the method, the path and the salt, some two clock readings get
    the same signature. *)
Lemma bounded_signatures_collide (key : RSAPrivateKey) (bound : nat)
    (method path salt : string) :
  (∀ salt m, (String.length (sign_pss_sha256 key salt m) ≤ bound)%nat) →
  ∃ now1 now2 : Z,
    now1 ≠ now2
    ∧ sign_pss_sha256 key salt (signed_message (py_str_int now1) method path)
      = sign_pss_sha256 key salt (signed_message (py_str_int now2) method path).
Proof.
  intros Hbound.
  set (f := λ now : Z,
         sign_pss_sha256 key salt (signed_message (py_str_int now) method path)).
  set (codes := strings_upto bound).
  set (l := seqZ 0 (Z.of_nat (S (length codes)))).
  destruct (repeated_image f l) as (x & y & _ & _ & Hxy & Hf).
  - apply NoDup_seqZ.
  - intros Hnd.
    assert (Hsub : f <$> l ⊆+ codes).
    { apply NoDup_submseteq; [exact Hnd|].
      intros m Hm. apply list_elem_of_fmap in Hm as (now & -> & _).
      apply strings_upto_complete, Hbound. }
    apply submseteq_length in Hsub.
    rewrite length_fmap in Hsub. subst l. rewrite length_seqZ in Hsub. lia.
  - exists x, y. split; [exact Hxy | exact Hf].
Qed.




Example sign_request_sample :
  (_sign_request sample_client "GET" "/trade-api/v2/markets" sample_world).1
  = Ok ("1700000000000", b64encode "1700000000000GET/trade-api/v2/markets").
Proof. reflexivity. Qed.

End SigningFacts.

(** ** The path component of an endpoint *)

Module UrlparseFacts.
Import StringFacts.

Section Before.
(** [q] marks the character at which a string is cut (the question mark in
    the application). *)
Variable q : ascii → bool.

Lemma before_lstrip (p : ascii → bool) s :
  (∀ c, q c = true → p c = false) →
  str_before q (str_lstrip p s) = str_lstrip p (str_before q s).
Proof.
  intros Hqp. induction s as [|c s IH]; simpl; [reflexivity|].
  destruct (p c) eqn:Hp.
  - destruct (q c) eqn:Hq; [rewrite (Hqp c Hq) in Hp; discriminate|].
    simpl. now rewrite Hp.
  - simpl. destruct (q c); simpl; [reflexivity|]. now rewrite Hp.
Qed.

Lemma before_filter (f : ascii → bool) s :
  (∀ c, q c = true → f c = true) →
  str_before q (str_filter f s) = str_filter f (str_before q s).
Proof.
  intros Hqf. induction s as [|c s IH]; simpl; [reflexivity|].
  destruct (q c) eqn:Hq.
  - rewrite (Hqf c Hq). simpl. now rewrite Hq.
  - destruct (f c) eqn:Hf; simpl; rewrite ?Hq, ?Hf, IH; reflexivity.
Qed.

(** Cutting at [q] does not move a cut at [d] when every [q] is a [d]. *)
Lemma before_before_sub (d : ascii → bool) s :
  (∀ c, q c = true → d c = true) →
  str_before d (str_before q s) = str_before d s.
Proof.
  intros Hqd. induction s as [|c s IH]; simpl; [reflexivity|].
  destruct (q c) eqn:Hq; simpl.
  - now rewrite (Hqd c Hq).
  - destruct (d c); [reflexivity|]. now rewrite IH.
Qed.

Lemma from_before_sub (d : ascii → bool) s :
  (∀ c, q c = true → d c = true) →
  str_from d (str_before q s) = str_before q (str_from d s).
Proof.
  intros Hqd. induction s as [|c s IH]; simpl; [reflexivity|].
  destruct (q c) eqn:Hq; simpl.
  - rewrite (Hqd c Hq). simpl. now rewrite Hq.
  - destruct (d c); simpl; [now rewrite Hq | exact IH].
Qed.

(** Cutting at [h] and then at [q] forgets an earlier cut at [q]. *)
Lemma before_before_before (h : ascii → bool) s :
  str_before q (str_before h (str_before q s)) = str_before q (str_before h s).
Proof.
  induction s as [|c s IH]; simpl; [reflexivity|].
  destruct (q c) eqn:Hq; simpl.
  - destruct (h c); simpl; [reflexivity | now rewrite Hq].
  - destruct (h c); simpl; [reflexivity|]. now rewrite Hq, IH.
Qed.

(** A cut at [k] that comes before every [q] survives the cut at [q]. *)
Lemma has_before_cut (k : ascii → bool) s :
  str_has k (str_before q s) = true →
  str_has k s = true ∧ str_before k (str_before q s) = str_before k s.
Proof.
  induction s as [|c s IH]; simpl; [discriminate|].
  destruct (q c) eqn:Hq; simpl; [discriminate|].
  destruct (k c); simpl; [now split|].
  intros H. destruct (IH H) as [H1 H2]. split; [exact H1 | now rewrite H2].
Qed.

Lemma clean_prefix_cut (k sc : ascii → bool) s :
  (∀ c, q c = true → sc c = false) → (∀ c, q c = true → k c = false) →
  str_has k s = true → str_forallb sc (str_before k s) = true →
  str_has k (str_before q s) = true
  ∧ str_before k (str_before q s) = str_before k s
  ∧ str_tail (str_from k (str_before q s)) = str_before q (str_tail (str_from k s)).
Proof.
  intros Hsc Hk. induction s as [|c s IH]; simpl; [discriminate|].
  destruct (k c) eqn:Hkc; simpl.
  - intros _ _. assert (Hq : q c = false).
    { destruct (q c) eqn:Hq; [rewrite (Hk c Hq) in Hkc; discriminate | reflexivity]. }
    rewrite Hq. simpl. rewrite Hkc. simpl. repeat split.
  - intros Hhas Hall. apply andb_true_iff in Hall as [Hc Hall].
    assert (Hq : q c = false).
    { destruct (q c) eqn:Hq; [rewrite (Hsc c Hq) in Hc; discriminate | reflexivity]. }
    rewrite Hq. simpl. rewrite Hkc. simpl.
    destruct (IH Hhas Hall) as (H1 & H2 & H3). repeat split; [exact H1| |exact H3].
    now rewrite H2.
Qed.

End Before.

Local Arguments is_char : simpl never.
Local Arguments is_netloc_delim : simpl never.
Local Arguments is_scheme_char : simpl never.
Local Arguments is_alpha : simpl never.

Lemma is_char_true c0 c : is_char c0 c = true → c = c0.
Proof. unfold is_char. intros H. apply Ascii.eqb_eq in H. now subst. Qed.

Ltac qmark :=
  let c := fresh "c" in let H := fresh "H" in
  intros c H; apply is_char_true in H; subst c; reflexivity.

(** The scheme split commutes with removing the query. *)
Lemma split_scheme_without_query url :
  split_scheme (without_query url)
  = ((split_scheme url).1, without_query (split_scheme url).2).
Proof.
  unfold split_scheme, without_query.
  set (q := is_char "?"). set (k := is_char ":").
  destruct (str_has k url
            && match str_before k url with
               | String c _ => is_alpha c
               | EmptyString => false
               end
            && str_forallb is_scheme_char (str_before k url)) eqn:Hcond.
  - apply andb_true_iff in Hcond as [Hcond Hall].
    apply andb_true_iff in Hcond as [Hhas Hfirst].
    destruct (clean_prefix_cut q k is_scheme_char url) as (H1 & H2 & H3);
      [qmark | qmark | exact Hhas | exact Hall |].
    rewrite H1, H2, Hfirst, Hall. simpl. now rewrite H3.
  - destruct (str_has k (str_before q url)) eqn:Hhas'; [|reflexivity].
    destruct (has_before_cut q k url Hhas') as [Hhas Hpre].
    rewrite Hpre. rewrite Hhas in Hcond. simpl in Hcond. simpl.
    now rewrite Hcond.
Qed.

(** So does the split of the network location. *)
Lemma split_netloc_without_query `{PyLib} url :
  split_netloc (without_query url)
  = ('(netloc, rest) ← split_netloc url; Ok (netloc, without_query rest)).
Proof.
  unfold split_netloc, without_query.
  assert (Hslash : ∀ c, is_char "/" c = true → is_char "?" c = false).
  { intros c Hc. apply is_char_true in Hc. now subst. }
  destruct url as [|c1 [|c2 rest]]; simpl.
  - reflexivity.
  - destruct (is_char "?" c1); reflexivity.
  - destruct (is_char "/" c1) eqn:H1, (is_char "/" c2) eqn:H2,
      (is_char "?" c1) eqn:Hq1, (is_char "?" c2) eqn:Hq2;
      try (rewrite (Hslash _ H1) in Hq1; discriminate);
      try (rewrite (Hslash _ H2) in Hq2; discriminate);
      simpl; rewrite ?H1, ?H2, ?Hq1, ?Hq2; simpl; rewrite ?H1, ?H2, ?Hq1, ?Hq2;
      try reflexivity.
    rewrite (before_before_sub (is_char "?") is_netloc_delim) by qmark.
    rewrite (from_before_sub (is_char "?") is_netloc_delim) by qmark.
    repeat match goal with |- context [if ?b then _ else _] => destruct b end;
      reflexivity.
Qed.

(** The path that [urlparse] extracts does not depend on the query. *)
Lemma urlparse_path_without_query `{PyLib} (endpoint : string) :
  urlparse_path (without_query endpoint) = urlparse_path endpoint.
Proof.
  unfold urlparse_path.
  assert (E : str_filter (λ c, negb (is_unsafe_url_byte c))
                (str_lstrip is_c0_control_or_space (without_query endpoint))
              = without_query
                  (str_filter (λ c, negb (is_unsafe_url_byte c))
                     (str_lstrip is_c0_control_or_space endpoint))).
  { unfold without_query.
    rewrite before_filter by qmark. now rewrite before_lstrip by qmark. }
  rewrite E. clear E.
  set (u := str_filter _ (str_lstrip _ endpoint)).
  rewrite split_scheme_without_query.
  destruct (split_scheme u) as [scheme u3]. simpl.
  rewrite split_netloc_without_query.
  destruct (split_netloc u3) as [[netloc u4]|e]; [|reflexivity].
  simpl. unfold without_query.
  now rewrite (before_before_before (is_char "?") (is_char "#")).
Qed.

End UrlparseFacts.

(** ** Headers: the query string is not signed *)

Module HeadersFacts.
Import KalshiClient UrlparseFacts.

(** [headers_at] signs [message_signed_for]. *)
Lemma headers_at_signs `{PyLib} (self : t) now salt method endpoint :
  headers_at self now salt method endpoint
  = (m ← message_signed_for (py_str_int now) method endpoint;
     Ok [("Content-Type", "application/json");
         ("KALSHI-ACCESS-KEY", api_key_id self);
         ("KALSHI-ACCESS-SIGNATURE",
          b64encode (sign_pss_sha256 (private_key self) salt m));
         ("KALSHI-ACCESS-TIMESTAMP", py_str_int now)]).
Proof.
  unfold headers_at, message_signed_for.
  destruct (urlparse_path endpoint); reflexivity.
Qed.

(** The outcome of [_get_headers] in a world: the clock is only read when
    the path could be extracted. *)
Lemma get_headers_eval `{PyLib} (self : t) method endpoint w :
  _get_headers self method endpoint w
  = match headers_at self (clock w (signed w)) (entropy w (signed w)) method endpoint with
    | Ok headers => (Ok headers, after_signature w)
    | Raise e => (Raise e, w)
    end.
Proof.
  unfold _get_headers, headers_at, _sign_request, next_signature_inputs, lift.
  unfold mbind, M_bind, result_bind, mret, M_ret.
  destruct (urlparse_path endpoint); reflexivity.
Qed.

(** The request [get] hands to the transport. *)
Lemma get_sends `{PyLib} (self : t) endpoint w :
  sent (get self endpoint w).2
  = (sent w ++
     match headers_at self (clock w (signed w)) (entropy w (signed w)) "GET" endpoint with
     | Ok headers => [mk_request "GET" (api_base self +:+ endpoint) headers None None]
     | Raise _ => []
     end)%list.
Proof.
  unfold get. unfold mbind at 1, M_bind at 1. rewrite get_headers_eval.
  destruct (headers_at self _ _ "GET" endpoint) as [h|e]; simpl.
  - unfold requests_call, send, lift, raise. unfold mbind, M_bind, mret, M_ret.
    simpl. destruct (transport w (length (sent w))) as [r|e]; simpl; reflexivity.
  - now rewrite app_nil_r.
Qed.

(** C5 (as amended): for every endpoint and every timestamp, the message
    signed for the endpoint is the message signed for the endpoint without
    its query string, so [_get_headers] returns the same headers, signature
    included, for both whenever the clock reads the same and the padding
    draws the same salt (in particular when run in the same world); the
    request itself goes to the URL made of the base and the full endpoint,
    query string included. *)
Theorem query_excluded_from_signature `{PyLib} (self : t)
    (method endpoint : string) :
  (∀ timestamp,
     message_signed_for timestamp method endpoint
     = message_signed_for timestamp method (without_query endpoint))
  ∧ (∀ now salt,
       headers_at self now salt method endpoint
       = headers_at self now salt method (without_query endpoint))
  ∧ (∀ w, _get_headers self method endpoint w
          = _get_headers self method (without_query endpoint) w)
  ∧ (∀ w headers,
       headers_at self (clock w (signed w)) (entropy w (signed w)) "GET" endpoint
       = Ok headers →
       sent (get self endpoint w).2
       = (sent w ++ [mk_request "GET" (api_base self +:+ endpoint) headers None None])%list).
Proof.
  assert (Hh : ∀ now salt,
            headers_at self now salt method endpoint
            = headers_at self now salt method (without_query endpoint)).
  { intros now salt. unfold headers_at. now rewrite urlparse_path_without_query. }
  split; [|split; [exact Hh|split]].
  - intros timestamp. unfold message_signed_for.
    now rewrite urlparse_path_without_query.
  - intros w. rewrite !get_headers_eval. now rewrite Hh.
  - intros w headers Hw. rewrite get_sends. now rewrite Hw.
Qed.

(** C5 (as stated) fails: the padding draws a salt for every signature, so
    at the same timestamp the signature made for [/markets?status=open] and
    the one made for [/markets] sign the same message and still differ. *)
Lemma same_timestamp_different_signature :
  let h (salt : string) :=
    [("Content-Type", "application/json");
     ("KALSHI-ACCESS-KEY", "key-id");
     ("KALSHI-ACCESS-SIGNATURE",
      b64encode (salt +:+ "1700000000000GET/trade-api/v2/markets"));
     ("KALSHI-ACCESS-TIMESTAMP", "1700000000000")] in
  let w := same_millisecond_world in
  @_get_headers sample_lib salted_client "GET" "/markets?status=open" w
  = (Ok (h "salt-0"), after_signature w)
  ∧ @_get_headers sample_lib salted_client "GET" "/markets" (after_signature w)
    = (Ok (h "salt-1"), after_signature (after_signature w))
  ∧ b64encode ("salt-0" +:+ "1700000000000GET/trade-api/v2/markets")
    ≠ b64encode ("salt-1" +:+ "1700000000000GET/trade-api/v2/markets")
  ∧ ¬ (∀ (self : t) (now : Z) (salt1 salt2 : string) (method endpoint : string),
         @headers_at sample_lib self now salt1 method endpoint
         = @headers_at sample_lib self now salt2 method (without_query endpoint)).
Proof.
  intros h w. split; [reflexivity|]. split; [reflexivity|]. split.
  - vm_compute. discriminate.
  - intros H.
    specialize (H salted_client 1700000000000 "salt-0" "salt-1" "GET"
                  "/markets?status=open").
    vm_compute in H. discriminate H.
Qed.

Example markets_query_message :
  @message_signed_for sample_lib "1700000000000" "GET" "/markets?status=open"
  = Ok "1700000000000GET/trade-api/v2/markets"
  ∧ @message_signed_for sample_lib "1700000000000" "GET" "/markets"
    = Ok "1700000000000GET/trade-api/v2/markets".
Proof. split; reflexivity. Qed.

Example urlparse_path_samples :
  @urlparse_path sample_lib "/markets/KX-1;v=2/orderbook?depth=3#top"
  = Ok "/markets/KX-1;v=2/orderbook"
  ∧ @urlparse_path sample_lib "/portfolio;x?y" = Ok "/portfolio"
  ∧ @urlparse_path sample_lib "HTTP://host/a?b" = Ok "/a"
  ∧ @urlparse_path sample_lib "//[bad/a" = Raise ValueError.
Proof. repeat split; reflexivity. Qed.

Lemma query_excluded_from_signature_witness :
  let w := sample_world in
  let h := [("Content-Type", "application/json");
            ("KALSHI-ACCESS-KEY", "key-id");
            ("KALSHI-ACCESS-SIGNATURE",
             b64encode "1700000000000GET/trade-api/v2/markets");
            ("KALSHI-ACCESS-TIMESTAMP", "1700000000000")] in
  @headers_at sample_lib sample_client (clock w (signed w)) (entropy w (signed w))
    "GET" "/markets?status=open" = Ok h
  ∧ sent (@get sample_lib sample_client "/markets?status=open" w).2
    = [mk_request "GET"
         "https://api.elections.kalshi.com/trade-api/v2/markets?status=open"
         h None None].
Proof.
  intros w h. split; [reflexivity|].
  apply (proj2 (proj2 (proj2 (@query_excluded_from_signature sample_lib
                                sample_client "GET" "/markets?status=open"))) w h).
  reflexivity.
Defined.

End HeadersFacts.

(** ** The retry loop of the asynchronous client *)

Module PipelineFacts.
Import AsyncKalshiClient.

Section Attempts.
Context `{BaseKalshiClient}.
Variable self : t.
Variables method endpoint : string.
Variable data : option string.

(** One turn of the loop whose call is answered by a response. *)
Lemma attempt_responds attempt attempts response w headers r :
  next_headers method endpoint w = Ok headers →
  transport w (length (sent w)) = Responds r →
  let w1 := after_attempt self (attempt_request self method endpoint data headers)
              (Some r) w in
  _request_attempts self method endpoint data (attempt :: attempts) response w
  = if negb (bool_decide (status_code r ∈ _RETRYABLE_STATUS_CODES))
    then (Ok r, w1)
    else if attempt =? max_retries self then
      if status_code r =? 429
      then (Raise (rate_limit_exceeded method endpoint), w1)
      else (Ok r, w1)
    else
      _request_attempts self method endpoint data attempts (Some r)
        (after_sleep
           (_compute_backoff attempt (headers_get (resp_headers r) "Retry-After"))
           w1).
Proof.
  intros Hh Ht w1. subst w1. unfold next_headers in Hh.
  unfold after_attempt, after_sleep, attempt_request.
  cbn [_request_attempts].
  unfold _get_headers, send, next_signature_inputs, limiter_acquire,
    limiter_update, sleep, lift, raise.
  unfold mbind, M_bind, mret, M_ret.
  destruct (rate_limiter self); simpl; rewrite Hh; simpl; rewrite Ht; simpl;
    destruct (bool_decide (status_code r ∈ _RETRYABLE_STATUS_CODES)); simpl;
    try reflexivity;
    destruct (attempt =? max_retries self); simpl; try reflexivity;
    destruct (status_code r =? 429); reflexivity.
Qed.

Lemma sent_after_attempt req response w :
  length (sent (after_attempt self req response w)) = S (length (sent w)).
Proof. simpl. rewrite length_app. simpl. lia. Qed.

(** A response whose status is not retryable ends the loop at once. *)
Lemma attempt_final attempt attempts response w headers r :
  next_headers method endpoint w = Ok headers →
  transport w (length (sent w)) = Responds r →
  status_code r ∉ _RETRYABLE_STATUS_CODES →
  _request_attempts self method endpoint data (attempt :: attempts) response w
  = (Ok r, after_attempt self (attempt_request self method endpoint data headers)
             (Some r) w).
Proof.
  intros Hh Ht Hr. rewrite (attempt_responds _ _ _ _ _ _ Hh Ht).
  now rewrite bool_decide_eq_false_2.
Qed.

(** A retryable status with attempts left: sleep and go round again. *)
Lemma attempt_retry attempt attempts response w headers r :
  next_headers method endpoint w = Ok headers →
  transport w (length (sent w)) = Responds r →
  status_code r ∈ _RETRYABLE_STATUS_CODES →
  attempt ≠ max_retries self →
  _request_attempts self method endpoint data (attempt :: attempts) response w
  = _request_attempts self method endpoint data attempts (Some r)
      (after_sleep
         (_compute_backoff attempt (headers_get (resp_headers r) "Retry-After"))
         (after_attempt self (attempt_request self method endpoint data headers)
            (Some r) w)).
Proof.
  intros Hh Ht Hr Ha. rewrite (attempt_responds _ _ _ _ _ _ Hh Ht).
  rewrite bool_decide_eq_true_2 by exact Hr. simpl.
  destruct (Z.eqb_spec attempt (max_retries self)); [contradiction | reflexivity].
Qed.

(** A 429 on the last attempt raises the rate-limit error. *)
Lemma attempt_exhausted_429 attempt attempts response w headers r :
  next_headers method endpoint w = Ok headers →
  transport w (length (sent w)) = Responds r →
  status_code r = 429 → 429 ∈ _RETRYABLE_STATUS_CODES →
  attempt = max_retries self →
  _request_attempts self method endpoint data (attempt :: attempts)
    response w
  = (Raise (rate_limit_exceeded method endpoint),
     after_attempt self (attempt_request self method endpoint data headers)
       (Some r) w).
Proof.
  intros Hh Ht Hs Hr ->. rewrite (attempt_responds _ _ _ _ _ _ Hh Ht).
  rewrite Hs. rewrite bool_decide_eq_true_2 by exact Hr. simpl.
  now rewrite Z.eqb_refl.
Qed.

(** The loop makes at most one call per attempt: retries are bounded. *)
Lemma request_attempts_bounded attempts response w :
  (length (sent (_request_attempts self method endpoint data attempts response w).2)
   ≤ length (sent w) + length attempts)%nat.
Proof.
  revert response w. induction attempts as [|a l IH]; intros response w;
    cbn [_request_attempts].
  - destruct response; simpl; lia.
  - unfold _get_headers, send, next_signature_inputs, limiter_acquire,
      limiter_update, sleep, lift, raise.
    unfold mbind, M_bind, mret, M_ret.
    destruct (rate_limiter self); simpl;
      (destruct (base_headers_at _ _ method endpoint); simpl; [|lia]);
      (destruct (transport w (length (sent w))) as [r|[| |n]]; simpl);
      repeat (match goal with
              | |- context [if ?b then _ else _] => destruct b; simpl
              end);
      try (rewrite length_app; simpl; lia);
      (etransitivity; [apply IH|]; simpl; rewrite length_app; simpl; lia).
Qed.

Lemma request_bounded w :
  (length (sent (_request self method endpoint data w).2)
   ≤ length (sent w) + Z.to_nat (max_retries self + 1))%nat.
Proof.
  unfold _request. etransitivity; [apply request_attempts_bounded|].
  rewrite length_seqZ. lia.
Qed.

End Attempts.

Ltac next_attempt Hok h Hh :=
  match goal with
  | |- context [_request_attempts _ ?m ?e _ _ _ ?w] =>
      destruct (Hok (clock w (signed w)) (entropy w (signed w))) as [h Hh];
      change (next_headers m e w = Ok h) in Hh
  end.

(** C3: with [max_retries = 3], when the transport answers the first two
    calls with status 429 and the third with status 200, [_request] returns
    that third response (status 200, with its body) after exactly three HTTP
    calls and two backoff sleeps; [get] then hands that response to the
    response handler. *)
Theorem retry_twice_then_success `{BaseKalshiClient} (self : t)
    (method endpoint : string) (data : option string) (w : World)
    (r1 r2 r3 : Response) :
  max_retries self = 3 →
  429 ∈ _RETRYABLE_STATUS_CODES → 200 ∉ _RETRYABLE_STATUS_CODES →
  headers_ok method endpoint →
  transport w (length (sent w)) = Responds r1 → status_code r1 = 429 →
  transport w (S (length (sent w))) = Responds r2 → status_code r2 = 429 →
  transport w (S (S (length (sent w)))) = Responds r3 → status_code r3 = 200 →
  ∃ w', _request self method endpoint data w = (Ok r3, w')
        ∧ length (sent w') = (length (sent w) + 3)%nat
        ∧ slept w'
          = (slept w ++
             [_compute_backoff 0 (headers_get (resp_headers r1) "Retry-After");
              _compute_backoff 1 (headers_get (resp_headers r2) "Retry-After")])%list
        ∧ (method = "GET" → data = None →
           get self endpoint w = (base_handle_response r3 "GET" endpoint None, w')).
Proof.
  intros Hmax H429 H200 Hok Ht1 Hs1 Ht2 Hs2 Ht3 Hs3.
  assert (Hreq : ∃ w', _request self method endpoint data w = (Ok r3, w')
        ∧ length (sent w') = (length (sent w) + 3)%nat
        ∧ slept w'
          = (slept w ++
             [_compute_backoff 0 (headers_get (resp_headers r1) "Retry-After");
              _compute_backoff 1 (headers_get (resp_headers r2) "Retry-After")])%list).
  { unfold _request. rewrite Hmax. change (seqZ 0 (3 + 1)) with [0; 1; 2; 3].
    next_attempt Hok h1 Hh1.
    rewrite (attempt_retry _ _ _ _ _ _ _ _ _ _ Hh1 Ht1)
      by (rewrite ?Hs1, ?Hmax; (exact H429 || lia)).
    next_attempt Hok h2 Hh2.
    rewrite (attempt_retry _ _ _ _ _ _ _ _ h2 r2 Hh2)
      by (rewrite ?Hs2, ?Hmax; first [exact H429 | lia
            | simpl; rewrite length_app; simpl; rewrite Nat.add_1_r; exact Ht2]).
    next_attempt Hok h3 Hh3.
    rewrite (attempt_final _ _ _ _ _ _ _ _ h3 r3 Hh3).
    - eexists. split; [reflexivity|]. split.
      + simpl. rewrite !length_app. simpl. lia.
      + simpl. now rewrite <- app_assoc.
    - simpl. rewrite !length_app. simpl. rewrite !Nat.add_1_r. exact Ht3.
    - now rewrite Hs3. }
  destruct Hreq as (w' & Hr & Hlen & Hslept).
  exists w'. repeat split; try assumption.
  intros -> ->. unfold get. unfold mbind, M_bind. rewrite Hr. reflexivity.
Qed.

(** C4: with [max_retries = 2], when the transport answers every call with
    status 429, [_request] raises [RateLimitError] after exactly three HTTP
    calls, and the error carries status 429 and the method and endpoint of
    the request. *)
Theorem retries_exhausted_on_429 `{BaseKalshiClient} (self : t)
    (method endpoint : string) (data : option string) (w : World) :
  max_retries self = 2 →
  429 ∈ _RETRYABLE_STATUS_CODES →
  headers_ok method endpoint →
  (∀ n, ∃ r, transport w n = Responds r ∧ status_code r = 429) →
  ∃ w' e, _request self method endpoint data w = (Raise (RateLimitExhausted e), w')
          ∧ rl_status_code e = 429
          ∧ rl_method e = method
          ∧ rl_endpoint e = endpoint
          ∧ length (sent w') = (length (sent w) + 3)%nat.
Proof.
  intros Hmax H429 Hok Ht.
  unfold _request. rewrite Hmax. change (seqZ 0 (2 + 1)) with [0; 1; 2].
  destruct (Ht (length (sent w))) as (r1 & Ht1 & Hs1).
  destruct (Ht (S (length (sent w)))) as (r2 & Ht2 & Hs2).
  destruct (Ht (S (S (length (sent w))))) as (r3 & Ht3 & Hs3).
  next_attempt Hok h1 Hh1.
  rewrite (attempt_retry _ _ _ _ _ _ _ _ _ _ Hh1 Ht1)
    by (rewrite ?Hs1, ?Hmax; (exact H429 || lia)).
  next_attempt Hok h2 Hh2.
  rewrite (attempt_retry _ _ _ _ _ _ _ _ h2 r2 Hh2)
    by (rewrite ?Hs2, ?Hmax; first [exact H429 | lia
          | simpl; rewrite length_app; simpl; rewrite Nat.add_1_r; exact Ht2]).
  next_attempt Hok h3 Hh3.
  rewrite (attempt_exhausted_429 _ _ _ _ _ _ _ _ h3 r3 Hh3).
  - eexists _, _. split; [reflexivity|]. repeat split.
    simpl. rewrite !length_app. simpl. lia.
  - simpl. rewrite !length_app. simpl. rewrite !Nat.add_1_r. exact Ht3.
  - exact Hs3.
  - exact H429.
  - now rewrite Hmax.
Qed.

Lemma sample_429_retryable : 429 ∈ @_RETRYABLE_STATUS_CODES sample_base.
Proof. simpl. apply elem_of_cons. now left. Defined.

Lemma sample_200_not_retryable : 200 ∉ @_RETRYABLE_STATUS_CODES sample_base.
Proof.
  simpl. intros H.
  repeat (apply elem_of_cons in H as [H|H]; [discriminate H|]).
  now apply elem_of_nil in H.
Defined.

Lemma sample_headers_ok : @headers_ok sample_base "GET" "/markets".
Proof. intros now salt. eexists. reflexivity. Defined.

Lemma retry_twice_then_success_witness :
  ∃ w', @_request sample_base (sample_async 3) "GET" "/markets" None
          (world_of transport_429_429_200)
        = (Ok (ok_response (JObj [("markets", JArr [])])), w')
        ∧ length (sent w') = 3%nat.
Proof.
  destruct (@retry_twice_then_success sample_base (sample_async 3) "GET"
              "/markets" None (world_of transport_429_429_200)
              too_many_requests too_many_requests
              (ok_response (JObj [("markets", JArr [])])))
    as (w' & Hr & Hlen & _); try reflexivity.
  - exact sample_429_retryable.
  - exact sample_200_not_retryable.
  - exact sample_headers_ok.
  - exists w'. split; [exact Hr | exact Hlen].
Defined.

Lemma retries_exhausted_on_429_witness :
  ∃ w' e, @_request sample_base (sample_async 2) "GET" "/markets" None
            (world_of transport_always_429)
          = (Raise (RateLimitExhausted e), w')
          ∧ rl_method e = "GET" ∧ rl_endpoint e = "/markets"
          ∧ length (sent w') = 3%nat.
Proof.
  destruct (@retries_exhausted_on_429 sample_base (sample_async 2) "GET"
              "/markets" None (world_of transport_always_429))
    as (w' & e & Hr & _ & Hm & He & Hlen).
  - reflexivity.
  - exact sample_429_retryable.
  - exact sample_headers_ok.
  - intros n. exists too_many_requests. split; reflexivity.
  - exists w', e. repeat split; assumption.
Defined.

Example request_429_429_200 :
  let run := @get sample_base (sample_async 3) "/markets"
               (world_of transport_429_429_200) in
  run.1 = Ok (JObj [("markets", JArr [])])
  ∧ length (sent run.2) = 3%nat
  ∧ slept run.2 = [inject_Z 1; inject_Z 1]
  ∧ acquired run.2 = 3%nat
  ∧ limiter_updates run.2
    = [too_many_requests; too_many_requests;
       ok_response (JObj [("markets", JArr [])])].
Proof. vm_compute. repeat split. Qed.

Example request_always_429 :
  let run := @get sample_base (sample_async 2) "/markets"
               (world_of transport_always_429) in
  run.1 = Raise (rate_limit_exceeded "GET" "/markets")
  ∧ length (sent run.2) = 3%nat.
Proof. vm_compute. repeat split. Qed.

(** A negative [max_retries] leaves the loop without any attempt. *)
Example request_negative_retries :
  let run := @_request sample_base (sample_async (-1)) "GET" "/markets" None
               (world_of transport_always_429) in
  run.1 = Raise UnboundLocalError ∧ sent run.2 = [].
Proof. vm_compute. repeat split. Qed.

End PipelineFacts.

(** ** Synchronous against asynchronous client *)

Module DeploymentFacts.
Import PipelineFacts.

(** What a synchronous request does: one signature, at most one call, the
    response handler on what came back. *)
Lemma sync_request_eval `{PyLib} (self : KalshiClient.t) method endpoint body w :
  (headers ← KalshiClient._get_headers self method endpoint;
   response ← KalshiClient.requests_call
                (mk_request method (KalshiClient.api_base self +:+ endpoint)
                   headers body None);
   lift (KalshiClient._handle_response response)) w
  = match headers_at self (clock w (signed w)) (entropy w (signed w))
            method endpoint with
    | Raise e => (Raise e, w)
    | Ok headers =>
        let req := mk_request method (KalshiClient.api_base self +:+ endpoint)
                     headers body None in
        match transport w (length (sent w)) with
        | Responds r => (KalshiClient._handle_response r, after_sync_call req w)
        | Fails e => (Raise (TransportError e), after_sync_call req w)
        end
    end.
Proof.
  unfold mbind at 1, M_bind at 1. rewrite HeadersFacts.get_headers_eval.
  destruct (headers_at self _ _ method endpoint) as [h|e]; [|reflexivity].
  unfold KalshiClient.requests_call, send, lift, raise, after_sync_call,
    after_signature.
  unfold mbind, M_bind, mret, M_ret. simpl.
  destruct (transport w (length (sent w))) as [r|e]; reflexivity.
Qed.

(** The synchronous client makes at most one HTTP call per request, never
    sleeps and never consults a rate limiter. *)
Lemma sync_get_single_call `{PyLib} (self : KalshiClient.t) endpoint w :
  let w' := (KalshiClient.get self endpoint w).2 in
  (length (sent w') ≤ S (length (sent w)))%nat
  ∧ slept w' = slept w ∧ acquired w' = acquired w.
Proof.
  unfold KalshiClient.get. rewrite sync_request_eval.
  destruct (headers_at self _ _ "GET" endpoint) as [h|e]; simpl.
  - destruct (transport w (length (sent w))); simpl; rewrite length_app; simpl;
      repeat split; lia.
  - repeat split; lia.
Qed.

Section Agreement.
Context `{BaseKalshiClient} `{PyLib}.
Variable sync : SyncKalshiClient.t.
Variable async : AsyncKalshiClient.t.
Hypothesis configured_alike : same_configuration sync async.

(** The specified call with [n] further attempts allowed is the rest of the
    [for] loop from attempt [a] on. *)
Lemma execute_is_request_attempts method endpoint data (n : nat) :
  ∀ (a : Z) (response : option Response) (w : World),
    AsyncKalshiClient.max_retries async = a + Z.of_nat n →
    SyncKalshiClient.execute sync method endpoint data n a w
    = AsyncKalshiClient._request_attempts async method endpoint data
        (seqZ a (Z.of_nat n + 1)) response w.
Proof.
  destruct configured_alike as (Hbase & Htimeout & _ & Hlimiter).
  induction n as [|n IH]; intros a response w Hmax.
  - change (seqZ a (Z.of_nat 0 + 1)) with [a].
    cbn [SyncKalshiClient.execute AsyncKalshiClient._request_attempts].
    unfold SyncKalshiClient.dispatch, SyncKalshiClient.settle,
      AsyncKalshiClient._get_headers, send, next_signature_inputs,
      limiter_acquire, limiter_update, sleep, lift, raise.
    unfold mbind, M_bind, mret, M_ret.
    rewrite Hbase, Htimeout, Hlimiter.
    replace (a =? AsyncKalshiClient.max_retries async) with true
      by (symmetry; apply Z.eqb_eq; simpl in Hmax; lia).
    destruct (AsyncKalshiClient.rate_limiter async); simpl;
      (destruct (base_headers_at _ _ method endpoint); simpl; [|reflexivity]);
      (destruct (transport w (length (sent w))) as [r|[| |name]]; simpl;
       try reflexivity);
      destruct (bool_decide (status_code r ∈ _RETRYABLE_STATUS_CODES)); simpl;
      try reflexivity; destruct (status_code r =? 429); reflexivity.
  - rewrite (seqZ_cons a) by lia.
    replace (Z.pred (Z.of_nat (S n) + 1)) with (Z.of_nat n + 1) by lia.
    cbn [SyncKalshiClient.execute AsyncKalshiClient._request_attempts].
    unfold SyncKalshiClient.dispatch, SyncKalshiClient.settle,
      SyncKalshiClient.backoff_for,
      AsyncKalshiClient._get_headers, send, next_signature_inputs,
      limiter_acquire, limiter_update, sleep, lift, raise.
    unfold mbind, M_bind, mret, M_ret.
    rewrite Hbase, Htimeout, Hlimiter.
    replace (a =? AsyncKalshiClient.max_retries async) with false
      by (symmetry; apply Z.eqb_neq; lia).
    replace (a + 1) with (Z.succ a) by lia.
    destruct (AsyncKalshiClient.rate_limiter async); simpl;
      (destruct (base_headers_at _ _ method endpoint); simpl; [|reflexivity]);
      (destruct (transport w (length (sent w))) as [r|[| |name]]; simpl;
       try reflexivity; try (apply IH; lia));
      destruct (bool_decide (status_code r ∈ _RETRYABLE_STATUS_CODES)); simpl;
      try reflexivity; apply IH; lia.
Qed.


End Agreement.

Lemma sample_configured_alike : same_configuration (sample_sync 3) (sample_async 3).
Proof. repeat split. Defined.


(** The synchronous mode on the runs of the retry properties. *)
Example sync_request_always_429 :
  let run := @SyncKalshiClient.get sample_base (sample_sync 2) "/markets"
               (world_of transport_always_429) in
  run.1 = Raise (RateLimitExhausted
                   (mk_rate_limit_error 429 "Rate limit exceeded after retries"
                      "GET" "/markets"))
  ∧ length (sent run.2) = 3%nat.
Proof. vm_compute. split; reflexivity. Qed.

End DeploymentFacts.

(** ** Pagination *)

Module PaginationFacts.
Import AsyncKalshiClient PipelineFacts.

Section Frame.
Context `{BaseKalshiClient} `{PyLib}.
Variable self : t.

(** The retry loop does not touch the heap. *)
Lemma request_attempts_heap method endpoint data attempts response w :
  heap (_request_attempts self method endpoint data attempts response w).2
  = heap w.
Proof.
  revert response w. induction attempts as [|a l IH]; intros response w;
    cbn [_request_attempts].
  - destruct response; reflexivity.
  - unfold _get_headers, send, next_signature_inputs, limiter_acquire,
      limiter_update, sleep, lift, raise.
    unfold mbind, M_bind, mret, M_ret.
    destruct (rate_limiter self); simpl;
      (destruct (base_headers_at _ _ method endpoint); simpl; [|reflexivity]);
      (destruct (transport w (length (sent w))) as [r|[| |n]]; simpl);
      repeat (match goal with
              | |- context [if ?b then _ else _] => destruct b; simpl
              end);
      try reflexivity; rewrite IH; reflexivity.
Qed.

Lemma get_heap endpoint w : heap (get self endpoint w).2 = heap w.
Proof.
  unfold get, _request. unfold mbind, M_bind, lift.
  pose proof (request_attempts_heap "GET" endpoint None
                (seqZ 0 (max_retries self + 1)) None w) as Hh.
  destruct (_request_attempts self "GET" endpoint None _ None w) as [[r|e] w'];
    exact Hh.
Qed.

(** One turn of the pagination loop changes the heap at most at the dict it
    was given. *)
Lemma paginated_get_turn_heap path response_key l fetch_all all_items w k :
  k ≠ l →
  heap (paginated_get_turn self path response_key l fetch_all all_items w).2 !! k
  = heap w !! k.
Proof.
  intros Hk. unfold paginated_get_turn, dict_items, dict_setitem, lift.
  unfold mbind at 1, M_bind at 1.
  destruct (heap w !! l) as [d|] eqn:Hl; [|reflexivity].
  unfold mbind at 1, M_bind at 1.
  pose proof (get_heap
    match filter (λ kv : string * json, is_None kv.2 = false) d with
    | [] => path
    | _ :: _ => path +:+ "?" +:+ urlencode (filter (λ kv : string * json, is_None kv.2 = false) d)
    end w) as Hg.
  destruct (get self _ w) as [[response|e] w1]; simpl in Hg;
    [|simpl; now rewrite Hg].
  unfold mbind, M_bind, mret, M_ret.
  destruct (py_get response response_key (JArr [])) as [page|e]; simpl;
    [|now rewrite Hg].
  destruct (py_iter page) as [new_items|e]; simpl; [|now rewrite Hg].
  destruct (py_get response "cursor" (JStr "")) as [cursor|e]; simpl;
    [|now rewrite Hg].
  destruct (negb fetch_all || negb (truthy cursor)); simpl; [now rewrite Hg|].
  destruct (heap w1 !! l) eqn:Hl1; simpl; [|now rewrite Hg].
  rewrite lookup_insert_ne by congruence. now rewrite Hg.
Qed.

Lemma paginated_get_loop_heap fuel path response_key l fetch_all all_items w res w' k :
  k ≠ l →
  paginated_get_loop fuel self path response_key l fetch_all all_items w
  = Some (res, w') →
  heap w' !! k = heap w !! k.
Proof.
  intros Hk. revert all_items w.
  induction fuel as [|fuel IH]; intros all_items w; simpl; [discriminate|].
  pose proof (paginated_get_turn_heap path response_key l fetch_all all_items w k Hk)
    as Ht.
  destruct (paginated_get_turn self path response_key l fetch_all all_items w)
    as [[[items [|]]|e] w1]; simpl in Ht.
  - intros Hloop. rewrite (IH _ _ Hloop). exact Ht.
  - intros [= <- <-]. exact Ht.
  - intros [= <- <-]. exact Ht.
Qed.

(** C10: whenever [paginated_get] returns, normally or with an exception
    and after however many pages, every dict that existed before the call,
    the caller's params among them, holds the entries it held before: the
    cursor is only ever written to the copy made on entry. *)
Theorem paginated_get_preserves_params (fuel : nat) (path response_key : string)
    (params : positive) (fetch_all : bool) (w w' : World)
    (res : result (list json)) :
  paginated_get fuel self path response_key params fetch_all w = Some (res, w') →
  heap w' !! params = heap w !! params
  ∧ ∀ l d, heap w !! l = Some d → heap w' !! l = Some d.
Proof.
  unfold paginated_get, dict_copy.
  destruct (heap w !! params) as [d0|] eqn:Hp.
  - intros Hloop.
    assert (Hfresh : ∀ l d, heap w !! l = Some d → l ≠ fresh (dom (heap w))).
    { intros l d Hl ->. apply (is_fresh (dom (heap w))).
      apply elem_of_dom. now exists d. }
    assert (Hframe : ∀ l d, heap w !! l = Some d → heap w' !! l = Some d).
    { intros l d Hl.
      rewrite (paginated_get_loop_heap _ _ _ _ _ _ _ _ _ l (Hfresh l d Hl) Hloop).
      simpl. rewrite lookup_insert_ne by (apply not_eq_sym, (Hfresh l d Hl)).
      exact Hl. }
    split; [|exact Hframe]. now apply Hframe.
  - intros [= <- <-]. split; [exact Hp | tauto].
Qed.

End Frame.

Section Run.
Context `{BaseKalshiClient} `{PyLib}.
Variable self : t.
Variable path : string.
Hypothesis retries_nonneg : 0 ≤ max_retries self.
Hypothesis headers_path_ok : ∀ params, headers_ok "GET" (endpoint_for path params).

(** A [get] whose first answer has a final status hands that answer to the
    response handler after one call. *)
Lemma get_first_answer endpoint w r :
  headers_ok "GET" endpoint →
  transport w (length (sent w)) = Responds r →
  status_code r ∉ _RETRYABLE_STATUS_CODES →
  ∃ headers,
    get self endpoint w
    = (base_handle_response r "GET" endpoint None,
       after_attempt self (attempt_request self "GET" endpoint None headers)
         (Some r) w).
Proof.
  intros Hok Ht Hr.
  destruct (Hok (clock w (signed w)) (entropy w (signed w))) as [h Hh].
  exists h. unfold get, _request.
  destruct (seqZ 0 (max_retries self + 1)) as [|a l] eqn:Hseq.
  { apply (f_equal length) in Hseq. rewrite length_seqZ in Hseq. simpl in Hseq. lia. }
  unfold mbind, M_bind.
  rewrite (attempt_final self "GET" endpoint None a l None w h r Hh Ht Hr).
  reflexivity.
Qed.

(** One turn of the loop on a served page. *)
Lemma paginated_get_turn_page response_key l fetch_all all_items w d r page xs :
  heap w !! l = Some d →
  transport w (length (sent w)) = Responds r →
  status_code r ∉ _RETRYABLE_STATUS_CODES →
  (∀ endpoint, base_handle_response r "GET" endpoint None = Ok (JObj page)) →
  dict_get page response_key (JArr []) = JArr xs →
  ∃ headers,
    let w1 := after_attempt self
                (attempt_request self "GET" (endpoint_for path d) None headers)
                (Some r) w in
    paginated_get_turn self path response_key l fetch_all all_items w
    = if negb fetch_all || negb (truthy (page_cursor page))
      then (Ok ((all_items ++ xs)%list, false), w1)
      else (Ok ((all_items ++ xs)%list, true),
            with_heap (<[l := dict_set d "cursor" (page_cursor page)]> (heap w1)) w1).
Proof.
  intros Hl Ht Hr Hpage Hitems.
  destruct (get_first_answer (endpoint_for path d) w r (headers_path_ok d) Ht Hr)
    as [h Hget].
  exists h. intros w1. subst w1.
  unfold paginated_get_turn, dict_items, dict_setitem, lift.
  unfold mbind at 1, M_bind at 1. rewrite Hl.
  unfold mbind at 1, M_bind at 1.
  change (match filter (λ kv : string * json, is_None kv.2 = false) d with
          | [] => path
          | _ :: _ => path +:+ "?" +:+
              urlencode (filter (λ kv : string * json, is_None kv.2 = false) d)
          end) with (endpoint_for path d).
  rewrite Hget, Hpage. unfold mbind, M_bind, mret, M_ret. simpl.
  rewrite Hitems. simpl. unfold page_cursor.
  destruct (negb fetch_all || negb (truthy (dict_get page "cursor" (JStr ""))));
    simpl; [reflexivity|].
  rewrite Hl. reflexivity.
Qed.

Lemma serves_tail w w1 a answers :
  serves w (a :: answers) →
  transport w1 = transport w → length (sent w1) = S (length (sent w)) →
  serves w1 answers.
Proof.
  intros Hs Ht Hlen i r page Hi. rewrite Ht, Hlen.
  replace (S (length (sent w)) + i)%nat with (length (sent w) + S i)%nat by lia.
  now apply (Hs (S i) r page).
Qed.

(** The loop over a sequence of served pages all of which but the last tell
    it to go on. *)
Lemma paginated_get_loop_pages response_key l fetch_all
    (firsts : list (Response * pydict)) (lastp : Response * pydict) :
  (∀ a, a ∈ (firsts ++ [lastp])%list →
     ∃ xs, dict_get a.2 response_key (JArr []) = JArr xs) →
  (∀ a, a ∈ firsts → fetch_all = true ∧ truthy (page_cursor a.2) = true) →
  fetch_all = false ∨ truthy (page_cursor lastp.2) = false →
  ∀ fuel w d all_items,
    heap w !! l = Some d →
    serves w (firsts ++ [lastp])%list →
    (length firsts < fuel)%nat →
    ∃ w',
      paginated_get_loop fuel self path response_key l fetch_all all_items w
      = Some (Ok (all_items
                  ++ concat (map (page_items response_key) ((firsts ++ [lastp])%list).*2))%list,
              w')
      ∧ map request_line (sent w')
        = (map request_line (sent w)
           ++ map (λ e, ("GET", api_base self +:+ e))
                (expected_endpoints path d ((firsts ++ [lastp])%list).*2))%list.
Proof.
  intros Hitems Hgo Hstop.
  induction firsts as [|a firsts IH]; intros fuel w d all_items Hl Hs Hfuel.
  - destruct fuel as [|fuel]; [simpl in Hfuel; lia|].
    destruct lastp as [r page]. simpl in *.
    destruct (Hs 0%nat r page eq_refl) as (Ht & Hr & Hpage).
    rewrite Nat.add_0_r in Ht.
    destruct (Hitems (r, page)) as [xs Hxs]; [apply list_elem_of_singleton; reflexivity|].
    simpl in Hxs.
    destruct (paginated_get_turn_page response_key l fetch_all all_items
                w d r page xs Hl Ht Hr Hpage Hxs) as [h Hturn].
    simpl in Hturn. rewrite Hturn.
    assert (Hb : negb fetch_all || negb (truthy (page_cursor page)) = true).
    { destruct Hstop as [-> | ->]; [reflexivity | apply orb_true_r]. }
    rewrite Hb. eexists. split.
    + unfold page_items. rewrite Hxs. now rewrite app_nil_r.
    + simpl. rewrite map_app. reflexivity.
  - destruct fuel as [|fuel]; [simpl in Hfuel; lia|].
    destruct a as [r page].
    destruct (Hs 0%nat r page eq_refl) as (Ht & Hr & Hpage).
    rewrite Nat.add_0_r in Ht.
    destruct (Hitems (r, page)) as [xs Hxs]; [apply elem_of_cons; now left|].
    simpl in Hxs.
    destruct (paginated_get_turn_page response_key l fetch_all all_items
                w d r page xs Hl Ht Hr Hpage Hxs) as [h Hturn].
    simpl in Hturn. cbn [paginated_get_loop]. rewrite Hturn.
    destruct (Hgo (r, page)) as [Hfa Hcur]; [apply elem_of_cons; now left|].
    simpl in Hcur. rewrite Hfa, Hcur. simpl.
    assert (Hitems' : ∀ a, a ∈ (firsts ++ [lastp])%list →
              ∃ xs, dict_get a.2 response_key (JArr []) = JArr xs).
    { intros a Ha. apply Hitems. apply elem_of_cons. now right. }
    assert (Hgo' : ∀ a, a ∈ firsts →
              fetch_all = true ∧ truthy (page_cursor a.2) = true).
    { intros a Ha. apply Hgo. apply elem_of_cons. now right. }
    match goal with
    | |- context [paginated_get_loop fuel _ _ _ _ _ ?acc ?W] =>
        destruct (IH Hitems' Hgo' fuel W (dict_set d "cursor" (page_cursor page)) acc)
          as (w' & Hloop & Hsent)
    end.
    + simpl. apply lookup_insert_eq.
    + eapply serves_tail; [exact Hs | reflexivity |].
      simpl. rewrite length_app. simpl. lia.
    + simpl in Hfuel. apply Nat.succ_lt_mono. exact Hfuel.
    + exists w'. split.
      * rewrite Hfa in Hloop. rewrite Hloop. do 3 f_equal.
        unfold page_items at 2. rewrite Hxs. now rewrite <- app_assoc.
      * rewrite Hsent. simpl. rewrite map_app. simpl.
        now rewrite <- app_assoc.
Qed.

Lemma expected_endpoints_length d (pages : list pydict) :
  length (expected_endpoints path d pages) = length pages.
Proof.
  revert d. induction pages as [|page pages IH]; intros d; simpl;
    [reflexivity | now rewrite IH].
Qed.

(** [paginated_get] on served pages, from the caller's params dict. *)
Lemma paginated_get_run response_key params d fetch_all
    (firsts : list (Response * pydict)) (lastp : Response * pydict) fuel w :
  heap w !! params = Some d →
  serves w (firsts ++ [lastp])%list →
  (∀ a, a ∈ (firsts ++ [lastp])%list →
     ∃ xs, dict_get a.2 response_key (JArr []) = JArr xs) →
  (∀ a, a ∈ firsts → fetch_all = true ∧ truthy (page_cursor a.2) = true) →
  fetch_all = false ∨ truthy (page_cursor lastp.2) = false →
  (length firsts < fuel)%nat →
  ∃ w',
    paginated_get fuel self path response_key params fetch_all w
    = Some (Ok (concat (map (page_items response_key)
                          ((firsts ++ [lastp])%list).*2)), w')
    ∧ map request_line (sent w')
      = (map request_line (sent w)
         ++ map (λ e, ("GET", api_base self +:+ e))
              (expected_endpoints path d ((firsts ++ [lastp])%list).*2))%list
    ∧ length (sent w') = (length (sent w) + S (length firsts))%nat.
Proof.
  intros Hp Hs Hitems Hgo Hstop Hfuel.
  unfold paginated_get, dict_copy. rewrite Hp.
  match goal with
  | |- context [paginated_get_loop fuel _ _ _ ?l _ [] ?W] =>
      destruct (paginated_get_loop_pages response_key l fetch_all firsts lastp
                  Hitems Hgo Hstop fuel W d [])
        as (w' & Hloop & Hsent)
  end.
  - simpl. apply lookup_insert_eq.
  - exact Hs.
  - exact Hfuel.
  - exists w'. split; [exact Hloop|]. split; [exact Hsent|].
    apply (f_equal length) in Hsent.
    rewrite length_app, !length_map, expected_endpoints_length in Hsent.
    rewrite length_map, length_app in Hsent. simpl in Hsent. lia.
Qed.

(** C6: when the transport serves a sequence of pages (each call answered
    at once by a response that the handler turns into a JSON object whose
    entry under the response key, if any, is an array), [paginated_get]
    returns the concatenation of the pages' arrays in page order.  With
    [fetch_all] false it returns the first page's array after exactly one
    request, whatever cursor that page carries.  With [fetch_all] true it
    requests one page after the other, each request built from the params
    with [cursor] set to the cursor of the page before, and stops at the
    first page whose cursor is falsy (empty or absent), having issued
    exactly one request per page.  Every request goes to the path followed,
    when some entry of the params is not [None], by the encoding of exactly
    those entries. *)
Theorem paginated_get_gathers_pages (response_key : string)
    (params : positive) (d : pydict) (w : World) :
  heap w !! params = Some d →
  (∀ (firsts : list (Response * pydict)) (lastp : Response * pydict) fuel,
     serves w (firsts ++ [lastp])%list →
     (∀ a, a ∈ (firsts ++ [lastp])%list →
        ∃ xs, dict_get a.2 response_key (JArr []) = JArr xs) →
     (∀ a, a ∈ firsts → truthy (page_cursor a.2) = true) →
     truthy (page_cursor lastp.2) = false →
     (length firsts < fuel)%nat →
     ∃ w',
       paginated_get fuel self path response_key params true w
       = Some (Ok (concat (map (page_items response_key)
                             ((firsts ++ [lastp])%list).*2)), w')
       ∧ map request_line (sent w')
         = (map request_line (sent w)
            ++ map (λ e, ("GET", api_base self +:+ e))
                 (expected_endpoints path d ((firsts ++ [lastp])%list).*2))%list
       ∧ length (sent w') = (length (sent w) + S (length firsts))%nat)
  ∧ (∀ r page xs fuel,
       serves w [(r, page)] →
       dict_get page response_key (JArr []) = JArr xs →
       (0 < fuel)%nat →
       ∃ w',
         paginated_get fuel self path response_key params false w
         = Some (Ok xs, w')
         ∧ map request_line (sent w')
           = (map request_line (sent w)
              ++ [("GET", api_base self +:+ endpoint_for path d)])%list
         ∧ length (sent w') = S (length (sent w)))
  ∧ (∀ params', endpoint_for path params'
                = match filter (λ kv, is_None kv.2 = false) params' with
                  | [] => path
                  | sent_params => path +:+ "?" +:+ urlencode sent_params
                  end).
Proof.
  intros Hp. split; [|split].
  - intros firsts lastp fuel Hs Hitems Hgo Hstop Hfuel.
    apply paginated_get_run; auto.
  - intros r page xs fuel Hs Hxs Hfuel.
    destruct (paginated_get_run response_key params d false [] (r, page)
                fuel w Hp Hs) as (w' & Hrun & Hsent & Hlen).
    + intros a Ha. apply list_elem_of_singleton in Ha. subst a. now exists xs.
    + intros a Ha. now apply elem_of_nil in Ha.
    + now left.
    + exact Hfuel.
    + exists w'. simpl in *. unfold page_items in Hrun. rewrite Hxs in Hrun.
      rewrite app_nil_r in Hrun. split; [exact Hrun|].
      split; [exact Hsent | lia].
  - intros params'. unfold endpoint_for, non_absent.
    destruct (filter _ params'); reflexivity.
Qed.

(** A cursor that is a string is falsy exactly when it is empty, and an
    absent cursor reads as the empty string. *)
Lemma cursor_falsy_string (page : pydict) s :
  page_cursor page = JStr s → (truthy (page_cursor page) = false ↔ s = "").
Proof.
  intros ->. simpl. destruct (String.eqb_spec s ""); simpl; split;
    congruence.
Qed.

Lemma cursor_absent (page : pydict) :
  dict_mem page "cursor" = false → page_cursor page = JStr "".
Proof.
  unfold page_cursor. induction page as [|[k v] page IH]; simpl; [reflexivity|].
  destruct (String.eqb k "cursor"); simpl; [discriminate | exact IH].
Qed.

End Run.

Lemma sample_headers_path_ok params :
  @headers_ok sample_base "GET" (@endpoint_for sample_lib "/markets" params).
Proof.
  intros now salt. unfold endpoint_for.
  destruct (non_absent params) as [|kv l].
  - eexists. reflexivity.
  - simpl base_headers_at. unfold headers_at.
    rewrite <- (@UrlparseFacts.urlparse_path_without_query sample_lib).
    change (without_query ("/markets" +:+ "?" +:+ @urlencode sample_lib (kv :: l)))
      with "/markets".
    eexists. reflexivity.
Defined.

Lemma sample_serves_two_pages :
  @serves sample_base paging_world
    [(ok_response (JObj page_one), page_one); (ok_response (JObj page_two), page_two)].
Proof.
  intros i r page Hi.
  destruct i as [|[|i]]; simpl in Hi; try discriminate Hi;
    injection Hi as <- <-;
    (split; [reflexivity | split; [exact sample_200_not_retryable | reflexivity]]).
Defined.

Lemma sample_two_pages_run :
  ∃ w',
    @paginated_get sample_base sample_lib 2 (sample_async 3) "/markets" "items"
      1%positive true paging_world
    = Some (Ok [JStr "A"; JStr "B"; JStr "C"], w').
Proof.
  destruct (@paginated_get_run sample_base sample_lib (sample_async 3)
              "/markets" ltac:(simpl; lia) sample_headers_path_ok "items"
              1%positive caller_params true
              [(ok_response (JObj page_one), page_one)]
              (ok_response (JObj page_two), page_two) 2%nat paging_world eq_refl)
    as (w' & Hrun & _).
  - exact sample_serves_two_pages.
  - intros a Ha. apply elem_of_cons in Ha as [->|Ha];
      [|apply list_elem_of_singleton in Ha; subst a]; eexists; reflexivity.
  - intros a Ha. apply list_elem_of_singleton in Ha. subst a. split; reflexivity.
  - right. reflexivity.
  - simpl. lia.
  - exists w'. exact Hrun.
Defined.

Lemma paginated_get_gathers_pages_witness :
  heap paging_world !! 1%positive = Some caller_params
  ∧ ∃ w',
      @paginated_get sample_base sample_lib 2 (sample_async 3) "/markets" "items"
        1%positive true paging_world
      = Some (Ok [JStr "A"; JStr "B"; JStr "C"], w')
      ∧ length (sent w') = 2%nat.
Proof.
  split; [reflexivity|].
  destruct (@paginated_get_gathers_pages sample_base sample_lib (sample_async 3)
              "/markets" ltac:(simpl; lia) sample_headers_path_ok "items"
              1%positive caller_params paging_world eq_refl) as [Hall _].
  destruct (Hall [(ok_response (JObj page_one), page_one)]
              (ok_response (JObj page_two), page_two) 2%nat)
    as (w' & Hrun & _ & Hlen).
  - exact sample_serves_two_pages.
  - intros a Ha. apply elem_of_cons in Ha as [->|Ha];
      [|apply list_elem_of_singleton in Ha; subst a]; eexists; reflexivity.
  - intros a Ha. apply list_elem_of_singleton in Ha. subst a. reflexivity.
  - reflexivity.
  - simpl. lia.
  - exists w'. split; [exact Hrun | exact Hlen].
Defined.

Lemma paginated_get_preserves_params_witness :
  ∃ res w',
    @paginated_get sample_base sample_lib 2 (sample_async 3) "/markets" "items"
      1%positive true paging_world = Some (res, w')
    ∧ heap w' !! 1%positive = Some caller_params.
Proof.
  destruct sample_two_pages_run as [w' Hrun].
  exists (Ok [JStr "A"; JStr "B"; JStr "C"]), w'. split; [exact Hrun|].
  exact (proj1 (@paginated_get_preserves_params sample_base sample_lib
                  (sample_async 3) 2 "/markets" "items" 1%positive true
                  paging_world w' _ Hrun)).
Defined.

Example paginated_get_two_pages :
  match @paginated_get sample_base sample_lib 5 (sample_async 3) "/markets"
          "items" 1%positive true paging_world with
  | Some (res, w') =>
      res = Ok [JStr "A"; JStr "B"; JStr "C"]
      ∧ map request_line (sent w')
        = [("GET", "https://api.elections.kalshi.com/trade-api/v2/markets?limit=100");
           ("GET", "https://api.elections.kalshi.com/trade-api/v2/markets?limit=100&cursor=p2")]
      ∧ heap w' !! 1%positive = Some caller_params
  | None => False
  end.
Proof. vm_compute. repeat split. Qed.

Example paginated_get_first_page_only :
  match @paginated_get sample_base sample_lib 5 (sample_async 3) "/markets"
          "items" 1%positive false paging_world with
  | Some (res, w') =>
      res = Ok [JStr "A"; JStr "B"]
      ∧ map request_line (sent w')
        = [("GET", "https://api.elections.kalshi.com/trade-api/v2/markets?limit=100")]
  | None => False
  end.
Proof. vm_compute. repeat split. Qed.

(** One turn of fuel is not enough for two pages: the loop is still
    running. *)
Example paginated_get_out_of_fuel :
  @paginated_get sample_base sample_lib 1 (sample_async 3) "/markets" "items"
    1%positive true paging_world = None.
Proof. vm_compute. reflexivity. Qed.

End PaginationFacts.

(** * Further properties *)

(** ** The retry loop for any number of retries *)

Module RetryFacts.
Import AsyncKalshiClient PipelineFacts.

Section Loop.
Context `{BaseKalshiClient}.
Variable self : t.
Variables method endpoint : string.
Variable data : option string.
Hypothesis headers_fine : headers_ok method endpoint.

(** One turn of the loop whose call fails in the transport. *)
Lemma attempt_fails attempt attempts response w headers e :
  next_headers method endpoint w = Ok headers →
  transport w (length (sent w)) = Fails e →
  let w1 := after_attempt self (attempt_request self method endpoint data headers)
              None w in
  _request_attempts self method endpoint data (attempt :: attempts) response w
  = match e with
    | OtherTransportError _ => (Raise (TransportError e), w1)
    | _ =>
        if attempt =? max_retries self then (Raise (TransportError e), w1)
        else _request_attempts self method endpoint data attempts response
               (after_sleep (_compute_backoff attempt None) w1)
    end.
Proof.
  intros Hh Ht w1. subst w1. unfold next_headers in Hh.
  unfold after_attempt, after_sleep, attempt_request.
  cbn [_request_attempts].
  unfold _get_headers, send, next_signature_inputs, limiter_acquire,
    limiter_update, sleep, lift, raise.
  unfold mbind, M_bind, mret, M_ret.
  destruct (rate_limiter self); simpl; rewrite Hh; simpl; rewrite Ht; simpl;
    destruct e; simpl; try reflexivity;
    destruct (attempt =? max_retries self); reflexivity.
Qed.

(** One turn of the loop on a retried outcome while attempts remain. *)
Lemma attempt_again attempt attempts response w o :
  transport w (length (sent w)) = o → retried o →
  attempt ≠ max_retries self →
  ∃ w1 response1,
    _request_attempts self method endpoint data (attempt :: attempts) response w
    = _request_attempts self method endpoint data attempts response1 w1
    ∧ transport w1 = transport w
    ∧ map request_triple (sent w1)
      = (map request_triple (sent w)
         ++ [(method, api_base self +:+ endpoint, data)])%list
    ∧ slept w1 = (slept w ++ [_compute_backoff attempt (retry_after_of o)])%list
    ∧ limiter_updates w1 = (limiter_updates w ++ responses_of [o])%list
    ∧ heap w1 = heap w.
Proof.
  intros Ht Hretried Ha.
  destruct (headers_fine (clock w (signed w)) (entropy w (signed w))) as [h Hh].
  change (next_headers method endpoint w = Ok h) in Hh.
  destruct o as [r|e].
  - rewrite (attempt_retry self method endpoint data attempt attempts response
               w h r Hh Ht Hretried Ha).
    eexists _, _. split; [reflexivity|]. simpl.
    rewrite map_app. repeat split.
  - rewrite (attempt_fails attempt attempts response w h e Hh Ht).
    destruct e as [| |name]; [| |destruct Hretried];
      (destruct (Z.eqb_spec attempt (max_retries self)); [contradiction|]);
      eexists _, _; (split; [reflexivity|]); simpl;
      rewrite map_app, app_nil_r; repeat split.
Qed.

Lemma answers_tail w w1 o outcomes :
  answers w (o :: outcomes) →
  transport w1 = transport w →
  length (sent w1) = S (length (sent w)) →
  answers w1 outcomes.
Proof.
  intros Ha Ht Hlen i o' Hi. rewrite Ht, Hlen.
  replace (S (length (sent w)) + i)%nat with (length (sent w) + S i)%nat by lia.
  now apply (Ha (S i) o').
Qed.

Lemma triples_length (w w1 : World) (l : list (string * string * option string)) :
  map request_triple (sent w1) = (map request_triple (sent w) ++ l)%list →
  length (sent w1) = (length (sent w) + length l)%nat.
Proof.
  intros E. apply (f_equal length) in E.
  now rewrite length_app, !length_map in E.
Qed.

(** A run of retried outcomes, none on the last attempt: the loop sends the
    same request once per outcome, sleeps after each and is left with the
    remaining attempts. *)
Lemma retry_run outcomes :
  ∀ a n response w,
    (∀ o, o ∈ outcomes → retried o) →
    answers w outcomes →
    a + Z.of_nat (length outcomes) ≤ max_retries self →
    Z.of_nat (length outcomes) ≤ n →
    ∃ w1 response1,
      _request_attempts self method endpoint data (seqZ a n) response w
      = _request_attempts self method endpoint data
          (seqZ (a + Z.of_nat (length outcomes)) (n - Z.of_nat (length outcomes)))
          response1 w1
      ∧ transport w1 = transport w
      ∧ map request_triple (sent w1)
        = (map request_triple (sent w)
           ++ replicate (length outcomes) (method, api_base self +:+ endpoint, data))%list
      ∧ slept w1 = (slept w ++ backoffs a outcomes)%list
      ∧ limiter_updates w1 = (limiter_updates w ++ responses_of outcomes)%list
      ∧ heap w1 = heap w.
Proof.
  induction outcomes as [|o outcomes IH]; intros a n response w Hret Hans Hmax Hn.
  - exists w, response. simpl. rewrite Z.add_0_r, Z.sub_0_r, !app_nil_r.
    repeat split.
  - simpl length in *.
    rewrite seqZ_cons by lia.
    destruct (attempt_again a (seqZ (Z.succ a) (Z.pred n)) response w o)
      as (w1 & response1 & Hstep & Ht1 & Hs1 & Hsl1 & Hu1 & Hh1).
    { rewrite <- (Nat.add_0_r (length (sent w))). now apply Hans. }
    { apply Hret. apply elem_of_cons. now left. }
    { lia. }
    destruct (IH (Z.succ a) (Z.pred n) response1 w1)
      as (w2 & response2 & Hrun & Ht2 & Hs2 & Hsl2 & Hu2 & Hh2).
    { intros o' Ho'. apply Hret. apply elem_of_cons. now right. }
    { eapply answers_tail; [exact Hans | exact Ht1 |].
      rewrite (triples_length _ _ _ Hs1). simpl. lia. }
    { lia. }
    { lia. }
    exists w2, response2. rewrite Hstep, Hrun.
    replace (Z.succ a + Z.of_nat (length outcomes))
      with (a + Z.of_nat (S (length outcomes))) by lia.
    replace (Z.pred n - Z.of_nat (length outcomes))
      with (n - Z.of_nat (S (length outcomes))) by lia.
    split; [reflexivity|]. split; [congruence|].
    split; [rewrite Hs2, Hs1, <- app_assoc; reflexivity|].
    split; [rewrite Hsl2, Hsl1, <- app_assoc; simpl;
            replace (a + 1) with (Z.succ a) by lia; reflexivity|].
    split; [|congruence].
    rewrite Hu2, Hu1, <- app_assoc. simpl. destruct o; simpl;
      rewrite ?app_nil_r; reflexivity.
Qed.

(** The loop after a run of retried outcomes, at its next call. *)
Lemma request_after_run outcomes o w :
  0 ≤ max_retries self →
  (∀ o', o' ∈ outcomes → retried o') →
  answers w (outcomes ++ [o]) →
  Z.of_nat (length outcomes) ≤ max_retries self →
  ∃ w1 response1 attempts headers,
    _request self method endpoint data w
    = _request_attempts self method endpoint data
        (Z.of_nat (length outcomes) :: attempts) response1 w1
    ∧ next_headers method endpoint w1 = Ok headers
    ∧ transport w1 (length (sent w1)) = o
    ∧ map request_triple (sent w1)
      = (map request_triple (sent w)
         ++ replicate (length outcomes) (method, api_base self +:+ endpoint, data))%list
    ∧ slept w1 = (slept w ++ backoffs 0 outcomes)%list
    ∧ limiter_updates w1 = (limiter_updates w ++ responses_of outcomes)%list
    ∧ heap w1 = heap w.
Proof.
  intros Hmax Hret Hans Hk.
  destruct (retry_run outcomes 0 (max_retries self + 1) None w)
    as (w1 & response1 & Hrun & Ht & Hs & Hsl & Hu & Hh).
  { exact Hret. }
  { intros i o' Hi. apply Hans. now apply lookup_app_l_Some. }
  { lia. }
  { lia. }
  destruct (headers_fine (clock w1 (signed w1)) (entropy w1 (signed w1))) as [h Hh1].
  exists w1, response1,
    (seqZ (Z.succ (0 + Z.of_nat (length outcomes)))
       (Z.pred (max_retries self + 1 - Z.of_nat (length outcomes)))), h.
  split.
  { unfold _request. rewrite Hrun. rewrite seqZ_cons by lia. reflexivity. }
  split; [exact Hh1|]. split; [|auto].
  rewrite Ht, (triples_length _ _ _ Hs), length_replicate.
  apply Hans. rewrite lookup_app_r by lia. now rewrite Nat.sub_diag.
Qed.

(** X1: for any [max_retries >= 0], after at most [max_retries] retried
    outcomes (retryable statuses, timeouts, connection errors) a response
    whose status is not retryable is returned as it is; the loop has then
    sent the same method, URL and body once per outcome, slept once after
    each retried outcome with the backoff of that attempt, and handed every
    response it received to the rate limiter. *)
Theorem retries_until_final_response (outcomes : list transport_result)
    (r : Response) (w : World) :
  0 ≤ max_retries self →
  (∀ o, o ∈ outcomes → retried o) →
  answers w (outcomes ++ [Responds r]) →
  Z.of_nat (length outcomes) ≤ max_retries self →
  status_code r ∉ _RETRYABLE_STATUS_CODES →
  ∃ w', _request self method endpoint data w = (Ok r, w')
        ∧ map request_triple (sent w')
          = (map request_triple (sent w)
             ++ replicate (S (length outcomes))
                  (method, api_base self +:+ endpoint, data))%list
        ∧ slept w' = (slept w ++ backoffs 0 outcomes)%list
        ∧ limiter_updates w'
          = (limiter_updates w ++ responses_of outcomes ++ [r])%list.
Proof.
  intros Hmax Hret Hans Hk Hr.
  destruct (request_after_run outcomes (Responds r) w Hmax Hret Hans Hk)
    as (w1 & response1 & attempts & h & Hreq & Hh & Ht & Hs & Hsl & Hu & _).
  rewrite Hreq.
  rewrite (attempt_final self method endpoint data _ attempts response1 w1 h r
             Hh Ht Hr).
  eexists. split; [reflexivity|]. simpl.
  rewrite map_app, Hs, <- app_assoc. simpl.
  rewrite Hsl, Hu, <- app_assoc.
  repeat split. f_equal.
  change ((method, api_base self +:+ endpoint, data)
          :: replicate (length outcomes) (method, api_base self +:+ endpoint, data))
    with (replicate (S (length outcomes)) (method, api_base self +:+ endpoint, data)).
  now rewrite replicate_S_end.
Qed.

(** X2: when all [max_retries + 1] calls get retried outcomes and the last
    one is a response, that last response decides: status 429 raises the
    rate-limit error carrying method and endpoint, any other retryable
    status is returned to the caller as it is; either way exactly
    [max_retries + 1] calls were made and [max_retries] sleeps. *)
Theorem retries_exhausted_by_status (outcomes : list transport_result)
    (r : Response) (w : World) :
  (∀ o, o ∈ outcomes → retried o) →
  answers w (outcomes ++ [Responds r]) →
  Z.of_nat (length outcomes) = max_retries self →
  status_code r ∈ _RETRYABLE_STATUS_CODES →
  ∃ w', _request self method endpoint data w
        = (if status_code r =? 429
           then Raise (RateLimitExhausted
                         (mk_rate_limit_error 429 "Rate limit exceeded after retries"
                            method endpoint))
           else Ok r, w')
        ∧ length (sent w') = (length (sent w) + S (length outcomes))%nat
        ∧ slept w' = (slept w ++ backoffs 0 outcomes)%list.
Proof.
  intros Hret Hans Hk Hr.
  destruct (request_after_run outcomes (Responds r) w ltac:(lia) Hret Hans ltac:(lia))
    as (w1 & response1 & attempts & h & Hreq & Hh & Ht & Hs & Hsl & _).
  rewrite Hreq.
  rewrite (attempt_responds self method endpoint data _ attempts response1 w1 h r
             Hh Ht).
  rewrite bool_decide_eq_true_2 by exact Hr. simpl.
  rewrite Hk, Z.eqb_refl.
  assert (Hlen : length (sent w1) = (length (sent w) + length outcomes)%nat).
  { rewrite (triples_length _ _ _ Hs). now rewrite length_replicate. }
  destruct (status_code r =? 429); eexists; (split; [reflexivity|]); simpl;
    rewrite length_app, Hlen, Hsl; simpl; split; (lia || reflexivity).
Qed.

(** X3: a timeout or a connection error is retried like a retryable status
    and, on the last attempt, propagates as it is; any other exception of
    the transport propagates at once, whatever attempts remain.  The rate
    limiter is not updated by a call that got no response. *)
Theorem transport_failure_propagates (outcomes : list transport_result)
    (e : transport_exn) (w : World) :
  0 ≤ max_retries self →
  (∀ o, o ∈ outcomes → retried o) →
  answers w (outcomes ++ [Fails e]) →
  Z.of_nat (length outcomes) ≤ max_retries self →
  Z.of_nat (length outcomes) = max_retries self ∨ ¬ retried (Fails e) →
  ∃ w', _request self method endpoint data w = (Raise (TransportError e), w')
        ∧ length (sent w') = (length (sent w) + S (length outcomes))%nat
        ∧ slept w' = (slept w ++ backoffs 0 outcomes)%list
        ∧ limiter_updates w' = (limiter_updates w ++ responses_of outcomes)%list.
Proof.
  intros Hmax Hret Hans Hk Hlast.
  destruct (request_after_run outcomes (Fails e) w Hmax Hret Hans Hk)
    as (w1 & response1 & attempts & h & Hreq & Hh & Ht & Hs & Hsl & Hu & _).
  rewrite Hreq.
  rewrite (attempt_fails _ attempts response1 w1 h e Hh Ht).
  assert (Hlen : length (sent w1) = (length (sent w) + length outcomes)%nat).
  { rewrite (triples_length _ _ _ Hs). now rewrite length_replicate. }
  assert (Hend : ∀ w2 : World,
            length (sent w2) = S (length (sent w1)) → slept w2 = slept w1 →
            limiter_updates w2 = limiter_updates w1 →
            length (sent w2) = (length (sent w) + S (length outcomes))%nat
            ∧ slept w2 = (slept w ++ backoffs 0 outcomes)%list
            ∧ limiter_updates w2 = (limiter_updates w ++ responses_of outcomes)%list).
  { intros w2 H1 H2 H3. rewrite H1, H2, H3, Hlen, Hsl, Hu. repeat split. lia. }
  destruct e as [| |name].
  - destruct Hlast as [Hlast|Hlast]; [|now destruct Hlast].
    rewrite Hlast, Z.eqb_refl. eexists. split; [reflexivity|].
    apply Hend; simpl; rewrite ?length_app; simpl; (lia || reflexivity).
  - destruct Hlast as [Hlast|Hlast]; [|now destruct Hlast].
    rewrite Hlast, Z.eqb_refl. eexists. split; [reflexivity|].
    apply Hend; simpl; rewrite ?length_app; simpl; (lia || reflexivity).
  - eexists. split; [reflexivity|].
    apply Hend; simpl; rewrite ?length_app; simpl; (lia || reflexivity).
Qed.

(** X4: with a negative [max_retries] the loop body never runs: [_request]
    raises [UnboundLocalError] without any HTTP call, signature, rate-limiter
    acquire or sleep. *)
Theorem negative_max_retries (w : World) :
  max_retries self < 0 →
  _request self method endpoint data w = (Raise UnboundLocalError, w).
Proof.
  intros Hneg. unfold _request.
  destruct (seqZ 0 (max_retries self + 1)) as [|a l] eqn:Hseq; [reflexivity|].
  apply (f_equal length) in Hseq. rewrite length_seqZ in Hseq. simpl in Hseq. lia.
Qed.

End Loop.

Section Accounting.
Context `{BaseKalshiClient}.
Variable self : t.
Variables method endpoint : string.
Variable data : option string.

Lemma request_attempts_accounting attempts response w :
  let w' := (_request_attempts self method endpoint data attempts response w).2 in
  (length (sent w) ≤ length (sent w'))%nat
  ∧ (signed w' ≤ signed w + length attempts)%nat
  ∧ (length (sent w') + signed w ≤ length (sent w) + signed w')%nat
  ∧ (rate_limiter self = true → (acquired w' + signed w = acquired w + signed w')%nat)
  ∧ (rate_limiter self = false → acquired w' = acquired w)
  ∧ (length (limiter_updates w') + length (sent w)
     ≤ length (limiter_updates w) + length (sent w'))%nat
  ∧ (length (slept w') + length (sent w) ≤ length (slept w) + length (sent w'))%nat
  ∧ transport w' = transport w ∧ heap w' = heap w.
Proof.
  revert response w. induction attempts as [|a l IH]; intros response w;
    cbn [_request_attempts].
  - destruct response; simpl; repeat split; (lia || discriminate || reflexivity).
  - unfold _get_headers, send, next_signature_inputs, limiter_acquire,
      limiter_update, sleep, lift, raise.
    unfold mbind, M_bind, mret, M_ret.
    destruct (rate_limiter self) eqn:Hrl; simpl;
      (destruct (base_headers_at _ _ method endpoint); simpl;
       [|repeat split; (lia || discriminate || reflexivity)]);
      (destruct (transport w (length (sent w))) as [r|[| |n]]; simpl);
      repeat (match goal with
              | |- context [if ?b then _ else _] => destruct b; simpl
              end);
      try (rewrite ?length_app; simpl;
           repeat split; (lia || discriminate || reflexivity));
      match goal with
      | |- context [_request_attempts _ _ _ _ l ?r ?w1] =>
          specialize (IH r w1); simpl in IH; rewrite ?length_app in IH;
          simpl in IH;
          destruct IH as (I1 & I2 & I3 & I4 & I5 & I6 & I7 & I8 & I9);
          repeat split;
          try (intros Hx; first [specialize (I4 Hx) | specialize (I5 Hx)]);
          first [lia | discriminate | congruence]
      end.
Qed.

(** X5: whatever the transport does, [_request] makes at most
    [max_retries + 1] HTTP calls and at most as many signatures; it makes
    at least as many new signatures as calls (headers are signed anew for
    every attempt); with a rate limiter the number of [acquire]s equals the
    number of signatures, without one [acquire] is never called; the rate
    limiter is updated at most once per call and the loop sleeps at most
    once per call; the dicts of the heap are left alone. *)
Theorem request_accounting (w : World) :
  let w' := (_request self method endpoint data w).2 in
  (length (sent w) ≤ length (sent w')
   ≤ length (sent w) + Z.to_nat (max_retries self + 1))%nat
  ∧ (signed w' ≤ signed w + Z.to_nat (max_retries self + 1))%nat
  ∧ (length (sent w') + signed w ≤ length (sent w) + signed w')%nat
  ∧ (if rate_limiter self
     then (acquired w' + signed w = acquired w + signed w')%nat
     else acquired w' = acquired w)
  ∧ (length (limiter_updates w') + length (sent w)
     ≤ length (limiter_updates w) + length (sent w'))%nat
  ∧ (length (slept w') + length (sent w) ≤ length (slept w) + length (sent w'))%nat
  ∧ heap w' = heap w.
Proof.
  intros w'. subst w'. unfold _request.
  pose proof (request_attempts_accounting (seqZ 0 (max_retries self + 1)) None w)
    as (I1 & I2 & I3 & I4 & I5 & I6 & I7 & I8 & I9).
  rewrite length_seqZ in I2.
  repeat split; try lia; [|exact I9].
  destruct (rate_limiter self); [now apply I4 | now apply I5].
Qed.

End Accounting.

Lemma sample_503_retryable : 503 ∈ @_RETRYABLE_STATUS_CODES sample_base.
Proof. simpl. do 3 (apply elem_of_cons; right). apply elem_of_cons. now left. Defined.

Lemma sample_retried :
  ∀ o, o ∈ [Responds service_unavailable; Fails TimeoutException] →
       @retried sample_base o.
Proof.
  intros o Ho. apply elem_of_cons in Ho as [->|Ho].
  - exact sample_503_retryable.
  - apply list_elem_of_singleton in Ho. subst o. exact I.
Defined.

Lemma answers_transport_of outcomes last :
  answers (world_of (transport_of outcomes last)) outcomes.
Proof. intros i o Hi. simpl. unfold transport_of. now rewrite Hi. Defined.

Lemma retries_until_final_response_witness :
  ∃ w', @_request sample_base (sample_async 3) "GET" "/markets" None
          (world_of (transport_of
                       [Responds service_unavailable; Fails TimeoutException;
                        Responds (ok_response (JObj []))]
                       (Responds (ok_response (JObj [])))))
        = (Ok (ok_response (JObj [])), w')
        ∧ limiter_updates w' = [service_unavailable; ok_response (JObj [])].
Proof.
  destruct (@retries_until_final_response sample_base (sample_async 3) "GET"
              "/markets" None sample_headers_ok
              [Responds service_unavailable; Fails TimeoutException]
              (ok_response (JObj []))
              (world_of (transport_of
                           [Responds service_unavailable; Fails TimeoutException;
                            Responds (ok_response (JObj []))]
                           (Responds (ok_response (JObj []))))))
    as (w' & Hr & _ & _ & Hu).
  - simpl. lia.
  - exact sample_retried.
  - apply answers_transport_of.
  - simpl. lia.
  - exact sample_200_not_retryable.
  - exists w'. split; [exact Hr | exact Hu].
Defined.

Lemma retries_exhausted_by_status_witness :
  ∃ w', @_request sample_base (sample_async 2) "GET" "/markets" None
          (world_of (transport_of
                       [Responds service_unavailable; Fails TimeoutException;
                        Responds service_unavailable]
                       (Responds (ok_response (JObj [])))))
        = (Ok service_unavailable, w')
        ∧ length (sent w') = 3%nat.
Proof.
  destruct (@retries_exhausted_by_status sample_base (sample_async 2) "GET"
              "/markets" None sample_headers_ok
              [Responds service_unavailable; Fails TimeoutException]
              service_unavailable
              (world_of (transport_of
                           [Responds service_unavailable; Fails TimeoutException;
                            Responds service_unavailable]
                           (Responds (ok_response (JObj []))))))
    as (w' & Hr & Hlen & _).
  - exact sample_retried.
  - apply answers_transport_of.
  - reflexivity.
  - exact sample_503_retryable.
  - exists w'. split; [exact Hr | exact Hlen].
Defined.

Lemma transport_failure_propagates_witness :
  ∃ w', @_request sample_base (sample_async 3) "GET" "/markets" None
          (world_of (transport_of
                       [Responds service_unavailable; Fails TimeoutException;
                        Fails (OtherTransportError "ReadError")]
                       (Responds (ok_response (JObj [])))))
        = (Raise (TransportError (OtherTransportError "ReadError")), w')
        ∧ length (sent w') = 3%nat.
Proof.
  destruct (@transport_failure_propagates sample_base (sample_async 3) "GET"
              "/markets" None sample_headers_ok
              [Responds service_unavailable; Fails TimeoutException]
              (OtherTransportError "ReadError")
              (world_of (transport_of
                           [Responds service_unavailable; Fails TimeoutException;
                            Fails (OtherTransportError "ReadError")]
                           (Responds (ok_response (JObj []))))))
    as (w' & Hr & Hlen & _).
  - simpl. lia.
  - exact sample_retried.
  - apply answers_transport_of.
  - simpl. lia.
  - right. intros [].
  - exists w'. split; [exact Hr | exact Hlen].
Defined.

Lemma negative_max_retries_witness :
  -1 < 0
  ∧ @_request sample_base (sample_async (-1)) "GET" "/markets" None sample_world
    = (Raise UnboundLocalError, sample_world).
Proof.
  split; [lia|].
  apply (@negative_max_retries sample_base (sample_async (-1)) "GET" "/markets"
           None sample_world).
  simpl. lia.
Defined.

End RetryFacts.

(** ** What the response handler lets through *)

Module HandleResponseMore.
Import KalshiClient HandleResponseFacts.

(** X6: [_handle_response] returns a body only for a status below 400 (and
    not zero), and then it is the parsed body of that response; every API
    error it raises carries the status of the response (500 for a status of
    zero), which is at least 400, and is never a [RateLimitError]. *)
Theorem handle_response_sound (r : Response) :
  (∀ j, _handle_response r = Ok j →
        status_code r ≠ 0 ∧ status_code r < 400 ∧ json_body r = Some j)
  ∧ (∀ e, _handle_response r = Raise (ApiError e) →
          status_code_of e = effective_status r
          ∧ 400 ≤ status_code_of e
          ∧ err_class e ≠ RateLimitError).
Proof.
  rewrite handle_response_cases. unfold effective_status.
  destruct (Z.eqb_spec (status_code r) 0) as [E0|N0].
  - simpl. split.
    + destruct (json_body r) as [[]|]; discriminate.
    + intros e He. unfold error_class_for in He. simpl in He.
      destruct (json_body r) as [[]|]; try discriminate;
        unfold raise_api in He; injection He as <-; simpl;
        repeat split; try lia;
        repeat (match goal with
                | |- context [if ?b then _ else _] => destruct b
                end); discriminate.
  - destruct (Z.ltb_spec (status_code r) 400) as [Hlt|Hge].
    + split.
      * unfold response_json. destruct (json_body r); [|discriminate].
        intros j' [= ->]. auto.
      * unfold response_json. destruct (json_body r); discriminate.
    + split.
      * destruct (json_body r) as [[]|]; discriminate.
      * intros e He. unfold error_class_for in He.
        destruct (json_body r) as [[]|]; try discriminate;
          unfold raise_api in He; injection He as <-; simpl;
          repeat split; try lia;
          repeat (match goal with
                  | |- context [if ?b then _ else _] => destruct b
                  end); discriminate.
Qed.

(** X7: the handler raises something other than an API error in exactly two
    situations: a success status whose body is not JSON lets the
    [ValueError] of [response.json()] through, and an error status whose
    body is JSON but not an object fails with [AttributeError] on [.get]
    instead of raising the API error for that status. *)
Theorem handle_response_escapes (r : Response) (e : exn) :
  not_api_error e →
  (_handle_response r = Raise e
   ↔ (e = ValueError ∧ effective_status r < 400 ∧ json_body r = None)
     ∨ (e = AttributeError ∧ 400 ≤ effective_status r
        ∧ ∃ j, json_body r = Some j ∧ ∀ d, j ≠ JObj d)).
Proof.
  intros Hne. rewrite handle_response_cases.
  destruct (Z.ltb_spec (effective_status r) 400) as [Hlt|Hge].
  - unfold response_json. destruct (json_body r) as [j|]; split.
    + discriminate.
    + intros [(_ & _ & H)|(_ & H & _)]; [discriminate | lia].
    + intros [= <-]. left. auto.
    + intros [(-> & _)|(_ & H & _)]; [reflexivity | lia].
  - destruct (json_body r) as [j|]; split.
    + destruct j; try (intros [= <-]; right; repeat split; try lia;
                       eexists; split; [reflexivity | discriminate]).
      unfold raise_api. intros [= <-]. destruct Hne.
    + intros [(_ & H & _)|(-> & _ & j' & [= <-] & Hj)]; [lia|].
      destruct j; try reflexivity. now destruct (Hj kvs).
    + unfold raise_api. intros [= <-]. destruct Hne.
    + intros [(_ & H & _)|(_ & _ & j' & H & _)]; [lia | discriminate].
Qed.

Lemma handle_response_sound_witness :
  _handle_response (ok_response (JObj [])) = Ok (JObj [])
  ∧ status_code (ok_response (JObj [])) < 400.
Proof.
  assert (Hr : _handle_response (ok_response (JObj [])) = Ok (JObj []))
    by reflexivity.
  split; [exact Hr|].
  exact (proj1 (proj2 (proj1 (handle_response_sound (ok_response (JObj [])))
                         (JObj []) Hr))).
Defined.

Lemma handle_response_escapes_witness :
  not_api_error AttributeError
  ∧ _handle_response (mk_response 500 [] "[]" (Some (JArr []))) = Raise AttributeError.
Proof.
  split; [exact I|].
  apply (proj2 (handle_response_escapes (mk_response 500 [] "[]" (Some (JArr [])))
                  AttributeError I)).
  right. split; [reflexivity|]. split; [simpl; unfold effective_status; simpl; lia|].
  exists (JArr []). split; [reflexivity | discriminate].
Defined.

End HandleResponseMore.

(** ** What is signed *)

Module UrlparseMore.
Import KalshiClient UrlparseFacts.

Local Arguments is_char : simpl never.
Local Arguments is_netloc_delim : simpl never.
Local Arguments is_scheme_char : simpl never.
Local Arguments is_alpha : simpl never.
Local Arguments is_unsafe_url_byte : simpl never.
Local Arguments is_c0_control_or_space : simpl never.

Lemma has_before_self q s : str_has q (str_before q s) = false.
Proof.
  induction s as [|c s IH]; simpl; [reflexivity|].
  destruct (q c) eqn:Hq; simpl; [reflexivity|]. now rewrite Hq.
Qed.

Lemma has_before_none c q s :
  str_has c s = false → str_has c (str_before q s) = false.
Proof.
  induction s as [|a s IH]; simpl; [reflexivity|].
  intros H. apply orb_false_iff in H as [Ha Hs].
  destruct (q a); simpl; [reflexivity|]. now rewrite Ha, IH.
Qed.

Lemma has_splitparams_none c s :
  str_has c s = false → str_has c (splitparams_path s) = false.
Proof.
  induction s as [|a s IH]; simpl; [reflexivity|].
  intros H. apply orb_false_iff in H as [Ha Hs].
  destruct (is_char "/" a || str_has (is_char "/") s); simpl.
  - now rewrite Ha, IH.
  - destruct (is_char ";" a); simpl; [reflexivity|].
    rewrite Ha. simpl. now apply has_before_none.
Qed.

(** X8: the path that [_get_headers] puts into the signed message never
    contains a question mark or a hash sign: whatever the endpoint, neither
    a query string nor a fragment is ever signed. *)
Theorem signed_path_has_no_query_or_fragment `{PyLib}
    (timestamp method endpoint message : string) :
  message_signed_for timestamp method endpoint = Ok message →
  ∃ path,
    urlparse_path endpoint = Ok path
    ∧ message = signed_message timestamp method ("/trade-api/v2" +:+ path)
    ∧ str_has (is_char "?") path = false
    ∧ str_has (is_char "#") path = false.
Proof.
  unfold message_signed_for.
  destruct (urlparse_path endpoint) as [path|e] eqn:Hp; [|discriminate].
  intros [= <-]. exists path. split; [reflexivity|]. split; [reflexivity|].
  unfold urlparse_path in Hp.
  destruct (split_scheme _) as [scheme u].
  destruct (split_netloc u) as [[netloc u']|e]; [|discriminate]. simpl in Hp.
  set (clean := str_before (is_char "?") (str_before (is_char "#") u')) in *.
  assert (Hq : str_has (is_char "?") clean = false) by apply has_before_self.
  assert (Hh : str_has (is_char "#") clean = false).
  { apply has_before_none. apply has_before_self. }
  destruct (bool_decide (scheme ∈ uses_params) && str_has (is_char ";") clean);
    injection Hp as <-; [|now split].
  split; now apply has_splitparams_none.
Qed.

Lemma signed_path_has_no_query_or_fragment_witness :
  ∃ path,
    @urlparse_path sample_lib "/markets?status=open#top" = Ok path
    ∧ str_has (is_char "?") path = false.
Proof.
  destruct (@signed_path_has_no_query_or_fragment sample_lib "1700000000000"
              "GET" "/markets?status=open#top"
              "1700000000000GET/trade-api/v2/markets" eq_refl)
    as (path & Hp & _ & Hq & _).
  exists path. split; [exact Hp | exact Hq].
Defined.

Lemma is_char_refl c : is_char c c = true.
Proof. unfold is_char. apply Ascii.eqb_refl. Qed.

(** The path of a rooted endpoint. *)
Lemma urlparse_path_rooted `{PyLib} (endpoint : string) :
  is_rooted endpoint = true →
  ∃ path, urlparse_path endpoint = Ok (String "/" path).
Proof.
  destruct endpoint as [|c1 rest]; [discriminate|].
  intros Hroot.
  assert (Hc1 : c1 = "/"%char ∧
                match rest with
                | EmptyString => True
                | String c2 _ => is_char "/" c2 = false ∧ is_unsafe_url_byte c2 = false
                end).
  { simpl in Hroot. destruct rest as [|c2 rest'].
    - split; [now apply is_char_true in Hroot | exact I].
    - apply andb_true_iff in Hroot as [Hroot H3].
      apply andb_true_iff in Hroot as [H1 H2].
      apply negb_true_iff in H2, H3. split; [now apply is_char_true in H1 | auto]. }
  destruct Hc1 as [-> Hrest]. unfold urlparse_path.
  change (str_lstrip is_c0_control_or_space (String "/" rest)) with (String "/" rest).
  change (str_filter (λ c, negb (is_unsafe_url_byte c)) (String "/" rest))
    with (String "/" (str_filter (λ c, negb (is_unsafe_url_byte c)) rest)).
  set (rest' := str_filter (λ c, negb (is_unsafe_url_byte c)) rest).
  assert (Hscheme : split_scheme (String "/" rest') = ("", String "/" rest')).
  { unfold split_scheme.
    change (str_before (is_char ":") (String "/" rest'))
      with (String "/" (str_before (is_char ":") rest')).
    change (is_alpha "/") with false. now rewrite andb_false_r. }
  rewrite Hscheme.
  assert (Hnetloc : split_netloc (String "/" rest') = Ok ("", String "/" rest')).
  { unfold split_netloc. destruct rest' as [|c2' rest''] eqn:Hr'; [reflexivity|].
    destruct rest as [|c2 rest0]; [discriminate Hr'|].
    destruct Hrest as [Hslash Hsafe]. subst rest'. simpl in Hr'.
    rewrite Hsafe in Hr'. simpl in Hr'. injection Hr' as -> _.
    rewrite Hslash. now rewrite andb_false_r. }
  rewrite Hnetloc. simpl.
  change (is_char "#" "/") with false. change (is_char "?" "/") with false.
  simpl.
  destruct (str_has (is_char ";") _); eexists; reflexivity.
Qed.



End UrlparseMore.


(** ** Order-book queries on arbitrary sides *)

Module ModelsMore.
Import Models ModelsFacts.

(** The comprehension [[OrderbookLevel(price=p[0], quantity=p[1]) for p in
    side]] on an arbitrary side. *)
Lemma levels_of_side (side : list (list Z)) :
  ((∃ levels, map_result level_of side = Ok levels)
   ↔ Forall (λ p, (2 ≤ length p)%nat) side)
  ∧ ∀ e, map_result level_of side = Raise e → e = IndexError.
Proof.
  induction side as [|p side [IH1 IH2]]; simpl.
  - split; [|discriminate]. split; [constructor | now exists []].
  - destruct p as [|p0 [|p1 p]]; simpl.
    + split; [|now intros e [= <-]]. split.
      * intros [? ?]; discriminate.
      * intros Hall. apply Forall_cons in Hall as [Hlen _]. simpl in Hlen. lia.
    + split; [|now intros e [= <-]]. split.
      * intros [? ?]; discriminate.
      * intros Hall. apply Forall_cons in Hall as [Hlen _]. simpl in Hlen. lia.
    + destruct (map_result level_of side) as [ls|e0]; simpl.
      * split; [|discriminate]. split.
        -- intros _. apply Forall_cons. split; [simpl; lia|].
           apply IH1. now exists ls.
        -- intros _. now eexists.
      * split; [|intros e [= <-]; now apply IH2]. split.
        -- intros [? ?]; discriminate.
        -- intros Hall. apply Forall_cons in Hall as [_ Hall].
           apply IH1 in Hall as [? ?]. discriminate.
Qed.

(** X10: [yes_levels] and [no_levels] return a list exactly when every
    entry of the side has at least two elements (an absent or empty side
    counts: the result is the empty list); otherwise they raise, and
    [IndexError] is the only exception they raise. *)
Theorem levels_defined_iff (ob : OrderbookResponse) :
  ((∃ levels, yes_levels ob = Ok levels)
   ↔ Forall (λ p, (2 ≤ length p)%nat) (side_list (yes (orderbook ob))))
  ∧ ((∃ levels, no_levels ob = Ok levels)
     ↔ Forall (λ p, (2 ≤ length p)%nat) (side_list (no (orderbook ob))))
  ∧ (∀ e, yes_levels ob = Raise e ∨ no_levels ob = Raise e → e = IndexError).
Proof.
  unfold yes_levels, no_levels.
  split; [|split].
  - destruct (yes (orderbook ob)) as [[|p side]|]; simpl side_falsy; cbv iota.
    + split; [constructor | now exists []].
    + apply levels_of_side.
    + split; [constructor | now exists []].
  - destruct (no (orderbook ob)) as [[|p side]|]; simpl side_falsy; cbv iota.
    + split; [constructor | now exists []].
    + apply levels_of_side.
    + split; [constructor | now exists []].
  - intros e [Hy|Hn].
    + destruct (yes (orderbook ob)) as [[|p side]|]; simpl in Hy; try discriminate.
      now apply (proj2 (levels_of_side (p :: side))).
    + destruct (no (orderbook ob)) as [[|p side]|]; simpl in Hn; try discriminate.
      now apply (proj2 (levels_of_side (p :: side))).
Qed.

Lemma levels_defined_iff_witness :
  (∃ levels, yes_levels sample_book = Ok levels)
  ∧ Forall (λ p, (2 ≤ length p)%nat) (side_list (yes (orderbook sample_book))).
Proof.
  assert (Hy : ∃ levels, yes_levels sample_book = Ok levels)
    by (eexists; reflexivity).
  split; [exact Hy|].
  exact (proj1 (proj1 (levels_defined_iff sample_book)) Hy).
Defined.

(** X11: what [best_yes_bid] and [best_no_bid] return for any side, whether
    or not its entries are pairs: [None] when the side is absent or empty;
    [IndexError] when some entry is the empty list; otherwise the greatest
    first component of the entries, whatever else the entries hold. *)
Theorem best_bid_cases (ob : OrderbookResponse) :
  let yes_side := side_list (yes (orderbook ob)) in
  let no_side := side_list (no (orderbook ob)) in
  (yes_side = [] → best_yes_bid ob = Ok None)
  ∧ ([] ∈ yes_side → best_yes_bid ob = Raise IndexError)
  ∧ (yes_side ≠ [] → [] ∉ yes_side →
     ∃ m, best_yes_bid ob = Ok (Some m)
          ∧ Some m ∈ map head yes_side
          ∧ ∀ x, Some x ∈ map head yes_side → x ≤ m)
  ∧ (no_side = [] → best_no_bid ob = Ok None)
  ∧ ([] ∈ no_side → best_no_bid ob = Raise IndexError)
  ∧ (no_side ≠ [] → [] ∉ no_side →
     ∃ m, best_no_bid ob = Ok (Some m)
          ∧ Some m ∈ map head no_side
          ∧ ∀ x, Some x ∈ map head no_side → x ≤ m).
Proof.
  intros yes_side no_side. subst yes_side no_side.
  unfold best_yes_bid, best_no_bid.
  assert (Hside : ∀ s : option (list (list Z)),
            (if side_falsy s then Ok None else max_first (side_list s))
            = max_first (side_list s)).
  { intros [[|p side]|]; reflexivity. }
  rewrite !Hside.
  destruct (max_first_cases (side_list (yes (orderbook ob)))) as (Y1 & Y2 & Y3).
  destruct (max_first_cases (side_list (no (orderbook ob)))) as (N1 & N2 & N3).
  repeat (split; [assumption|]). assumption.
Qed.

Lemma best_bid_cases_witness :
  side_list (yes (orderbook sample_book)) ≠ []
  ∧ ([] ∉ side_list (yes (orderbook sample_book)))
  ∧ ∃ m, best_yes_bid sample_book = Ok (Some m)
         ∧ Some m ∈ map head (side_list (yes (orderbook sample_book)))
         ∧ ∀ x, Some x ∈ map head (side_list (yes (orderbook sample_book))) → x ≤ m.
Proof.
  assert (Hne : side_list (yes (orderbook sample_book)) ≠ []) by discriminate.
  assert (Hno : [] ∉ side_list (yes (orderbook sample_book))).
  { intros Hin. vm_compute in Hin.
    repeat (apply elem_of_cons in Hin as [Hin|Hin]; [discriminate|]).
    now apply elem_of_nil in Hin. }
  split; [exact Hne|]. split; [exact Hno|].
  exact (proj1 (proj2 (proj2 (best_bid_cases sample_book))) Hne Hno).
Defined.

Lemma max_first_permutation (side side' : list (list Z)) :
  map head side ≡ₚ map head side' → max_first side = max_first side'.
Proof.
  intros Hperm.
  assert (Hin : ∀ o, o ∈ map head side ↔ o ∈ map head side').
  { intros o. now rewrite Hperm. }
  assert (Hempty : ∀ s : list (list Z), [] ∈ s ↔ None ∈ map head s).
  { intros s. split.
    - intros H. now apply (list_elem_of_fmap_2 head) in H.
    - intros H. apply list_elem_of_fmap in H as ([|x p] & Hp & Hs);
        [exact Hs | discriminate]. }
  destruct (decide ([] ∈ side)) as [He|He].
  - assert (He' : [] ∈ side') by (apply Hempty, Hin, Hempty, He).
    rewrite (proj1 (proj2 (max_first_cases side)) He).
    now rewrite (proj1 (proj2 (max_first_cases side')) He').
  - assert (He' : [] ∉ side') by (intros H; apply He, Hempty, Hin, Hempty, H).
    destruct side as [|p side], side' as [|p' side'].
    + reflexivity.
    + apply Permutation_length in Hperm. discriminate.
    + apply Permutation_length in Hperm. discriminate.
    + destruct (proj2 (proj2 (max_first_cases (p :: side)))) as (m & -> & Hm & Hup);
        [discriminate | exact He |].
      destruct (proj2 (proj2 (max_first_cases (p' :: side')))) as (m' & -> & Hm' & Hup');
        [discriminate | exact He' |].
      apply Hin in Hm. apply Hin in Hm'.
      specialize (Hup m' Hm'). specialize (Hup' m Hm).
      do 2 f_equal. lia.
Qed.

(** X12: the best bid of a side depends only on the first components of its
    entries, not on their order nor on the quantities: two books whose
    sides list the same prices, in any order, have the same best bid (and
    raise alike). *)
Theorem best_bid_depends_on_prices_only (ob ob' : OrderbookResponse) :
  (map head (side_list (yes (orderbook ob)))
     ≡ₚ map head (side_list (yes (orderbook ob'))) →
   best_yes_bid ob = best_yes_bid ob')
  ∧ (map head (side_list (no (orderbook ob)))
       ≡ₚ map head (side_list (no (orderbook ob'))) →
     best_no_bid ob = best_no_bid ob').
Proof.
  unfold best_yes_bid, best_no_bid.
  assert (Hside : ∀ s : option (list (list Z)),
            (if side_falsy s then Ok None else max_first (side_list s))
            = max_first (side_list s)).
  { intros [[|p side]|]; reflexivity. }
  rewrite !Hside. split; apply max_first_permutation.
Qed.

Lemma best_bid_depends_on_prices_only_witness :
  best_yes_bid (mk_OrderbookResponse
                  (mk_Orderbook (Some [[40; 7]; [55; 0]]) None None None) None)
  = best_yes_bid (mk_OrderbookResponse
                    (mk_Orderbook (Some [[55; 3; 9]; [40]]) None None None) None).
Proof.
  apply (proj1 (best_bid_depends_on_prices_only
                  (mk_OrderbookResponse
                     (mk_Orderbook (Some [[40; 7]; [55; 0]]) None None None) None)
                  (mk_OrderbookResponse
                     (mk_Orderbook (Some [[55; 3; 9]; [40]]) None None None) None))).
  simpl. apply perm_swap.
Defined.

End ModelsMore.


(** ** The synchronous client: one call per request, listings *)

Module ListingFacts.
Import KalshiClient KalshiListing.

Lemma urlparse_path_raises `{PyLib} (endpoint : string) (e : exn) :
  urlparse_path endpoint = Raise e → e = ValueError.
Proof.
  unfold urlparse_path.
  destruct (split_scheme _) as [scheme u]. unfold split_netloc.
  repeat match goal with
  | |- context [if ?b then _ else _] => destruct b; simpl
  | |- context [match ?x with _ => _ end] => destruct x eqn:?; simpl
  end; try discriminate; now intros [= <-].
Qed.

Section Sync.
Context `{PyLib}.
Variable self : t.

(** A request of the synchronous client, as [get], [post] and [delete] make
    it. *)
Lemma sync_request_footprint method endpoint body w :
  let run := (headers ← _get_headers self method endpoint;
              response ← requests_call
                           (mk_request method (api_base self +:+ endpoint)
                              headers body None);
              lift (_handle_response response)) w in
  slept run.2 = slept w ∧ acquired run.2 = acquired w
  ∧ limiter_updates run.2 = limiter_updates w ∧ heap run.2 = heap w
  ∧ transport run.2 = transport w
  ∧ ((run = (Raise ValueError, w) ∧ urlparse_path endpoint = Raise ValueError)
     ∨ (∃ headers,
          sent run.2
          = (sent w ++ [mk_request method (api_base self +:+ endpoint)
                          headers body None])%list
          ∧ signed run.2 = S (signed w)
          ∧ run.1 = match transport w (length (sent w)) with
                    | Responds r => _handle_response r
                    | Fails e => Raise (TransportError e)
                    end)).
Proof.
  intros run. subst run. rewrite DeploymentFacts.sync_request_eval.
  unfold headers_at.
  destruct (urlparse_path endpoint) as [p|e] eqn:Hp; simpl.
  - repeat (split; [destruct (transport w (length (sent w))); reflexivity|]).
    right. eexists.
    destruct (transport w (length (sent w))); simpl; repeat split; reflexivity.
  - repeat (split; [reflexivity|]). left.
    rewrite (urlparse_path_raises endpoint e Hp) in *. now split.
Qed.

(** A [get] of a rooted endpoint that the transport answers. *)
Lemma sync_get_page endpoint w r :
  is_rooted endpoint = true →
  transport w (length (sent w)) = Responds r →
  ∃ headers,
    get self endpoint w
    = (_handle_response r,
       after_sync_call
         (mk_request "GET" (api_base self +:+ endpoint) headers None None) w).
Proof.
  intros Hroot Ht.
  destruct (UrlparseMore.urlparse_path_rooted endpoint Hroot) as [p Hp].
  unfold get. rewrite DeploymentFacts.sync_request_eval.
  unfold headers_at. rewrite Hp, Ht. simpl. eexists. reflexivity.
Qed.

End Sync.


Section Listing.
Context `{PyLib}.
Context {A : Type}.
Variable self : t.
Variable endpoint_of : json → string.
Variable key : string.
Variable make : json → result A.
Hypothesis endpoints_rooted : ∀ c, is_rooted (endpoint_of c) = true.

(** With [fetch_all] false the loop makes one turn, which is the body of
    the paginated variant without the cursor. *)
Lemma listing_loop_first_page fuel c w :
  listing_loop (S fuel) self endpoint_of key make false [] c w
  = Some (items_only (listing_page self (endpoint_of c) key make w)).
Proof.
  simpl. unfold listing_turn, listing_page, items_only, lift.
  unfold mbind, M_bind, mret, M_ret.
  destruct (get self (endpoint_of c) w) as [[response|e] w1]; [|reflexivity].
  destruct response; simpl; try reflexivity.
  destruct (py_iter _) as [elements|e]; simpl; [|reflexivity].
  destruct (map_result make elements); reflexivity.
Qed.

(** One turn on a served page whose items are built. *)
Lemma listing_turn_built fetch_all all_items c w r page items :
  transport w (length (sent w)) = Responds r →
  _handle_response r = Ok (JObj page) →
  page_builds key make page items →
  ∃ headers,
    listing_turn self (endpoint_of c) key make fetch_all all_items w
    = (Ok ((all_items ++ items)%list,
           if negb fetch_all || negb (truthy (page_cursor page)) then None
           else Some (page_cursor page)),
       after_sync_call
         (mk_request "GET" (api_base self +:+ endpoint_of c) headers None None) w).
Proof.
  intros Ht Hr (elements & Hd & Hm).
  destruct (sync_get_page self (endpoint_of c) w r (endpoints_rooted c) Ht)
    as [h Hget].
  exists h. unfold listing_turn. unfold mbind at 1, M_bind at 1.
  rewrite Hget, Hr. unfold lift, mbind, M_bind, mret, M_ret. simpl.
  rewrite Hd. simpl. rewrite Hm. unfold page_cursor.
  destruct (negb fetch_all || negb (truthy (dict_get page "cursor" (JStr ""))));
    reflexivity.
Qed.

(** One turn on a served page one of whose items is not built. *)
Lemma listing_turn_invalid fetch_all all_items c w r page elements e :
  transport w (length (sent w)) = Responds r →
  _handle_response r = Ok (JObj page) →
  dict_get page key (JArr []) = JArr elements →
  map_result make elements = Raise e →
  ∃ headers,
    listing_turn self (endpoint_of c) key make fetch_all all_items w
    = (Raise e,
       after_sync_call
         (mk_request "GET" (api_base self +:+ endpoint_of c) headers None None) w).
Proof.
  intros Ht Hr Hd Hm.
  destruct (sync_get_page self (endpoint_of c) w r (endpoints_rooted c) Ht)
    as [h Hget].
  exists h. unfold listing_turn. unfold mbind at 1, M_bind at 1.
  rewrite Hget, Hr. unfold lift, mbind, M_bind, mret, M_ret. simpl.
  rewrite Hd. simpl. rewrite Hm. reflexivity.
Qed.

Lemma serves_sync_tail w w1 a answers :
  serves_sync w (a :: answers) →
  transport w1 = transport w → length (sent w1) = S (length (sent w)) →
  serves_sync w1 answers.
Proof.
  intros Hs Ht Hlen i r page Hi. rewrite Ht, Hlen.
  replace (S (length (sent w)) + i)%nat with (length (sent w) + S i)%nat by lia.
  now apply (Hs (S i) r page).
Qed.

(** The turns over served pages each of which tells the loop to go on. *)
Lemma listing_loop_prefix (firsts : list (Response * pydict)) :
  ∀ (built : list (list A)) fuel w all_items c,
    Forall2 (page_builds key make) firsts.*2 built →
    (∀ a, a ∈ firsts → truthy (page_cursor a.2) = true) →
    serves_sync w firsts →
    ∃ w',
      listing_loop (length firsts + fuel) self endpoint_of key make true
        all_items c w
      = listing_loop fuel self endpoint_of key make true
          (all_items ++ concat built)%list
          (fold_left (λ _ page, page_cursor page) firsts.*2 c) w'
      ∧ transport w' = transport w
      ∧ map request_line (sent w')
        = (map request_line (sent w)
           ++ map (λ e, ("GET", api_base self +:+ e))
                (listing_endpoints endpoint_of c firsts.*2))%list.
Proof.
  induction firsts as [|[r page] firsts IH];
    intros built fuel w all_items c Hbuilt Hgo Hs.
  - apply Forall2_nil_inv_l in Hbuilt as ->. exists w. simpl.
    rewrite !app_nil_r. auto.
  - simpl in Hbuilt. apply Forall2_cons_inv_l in Hbuilt
      as (items & built' & Hitems & Hbuilt' & ->).
    destruct (Hs 0%nat r page eq_refl) as [Ht Hr].
    rewrite Nat.add_0_r in Ht.
    destruct (listing_turn_built true all_items c w r page items Ht Hr Hitems)
      as [h Hturn].
    assert (Hcur : truthy (page_cursor page) = true).
    { apply (Hgo (r, page)). now left. }
    rewrite Hcur in Hturn. simpl in Hturn.
    set (w1 := after_sync_call _ w) in Hturn.
    destruct (IH built' fuel w1 (all_items ++ items)%list (page_cursor page) Hbuilt')
      as (w' & Hloop & Htr & Hsent).
    + intros a Ha. apply Hgo. now right.
    + apply (serves_sync_tail w w1 (r, page)); [exact Hs | reflexivity |].
      subst w1. simpl. rewrite length_app. simpl. lia.
    + exists w'. split; [|split].
      * change (length ((r, page) :: firsts) + fuel)%nat
          with (S (length firsts + fuel)).
        cbn [listing_loop]. rewrite Hturn. rewrite Hloop.
        simpl. now rewrite <- app_assoc.
      * rewrite Htr. reflexivity.
      * rewrite Hsent. subst w1. simpl. rewrite map_app. simpl.
        now rewrite <- app_assoc.
Qed.

Lemma sent_length_of_lines (w w' : World) (l : list string) :
  map request_line (sent w')
  = (map request_line (sent w) ++ map (λ e, ("GET", api_base self +:+ e)) l)%list →
  length (sent w') = (length (sent w) + length l)%nat.
Proof.
  intros Hs. apply (f_equal length) in Hs.
  now rewrite length_app, !length_map in Hs.
Qed.

Lemma listing_endpoints_app c (pages : list pydict) (page : pydict) :
  listing_endpoints endpoint_of c (pages ++ [page])
  = (listing_endpoints endpoint_of c pages
     ++ [endpoint_of (fold_left (λ _ p, page_cursor p) pages c)])%list.
Proof.
  revert c. induction pages as [|p pages IH]; intros c; simpl; [reflexivity|].
  now rewrite IH.
Qed.

Lemma listing_endpoints_length c (pages : list pydict) :
  length (listing_endpoints endpoint_of c pages) = length pages.
Proof.
  revert c. induction pages as [|p pages IH]; intros c; simpl;
    [reflexivity | now rewrite IH].
Qed.

(** The loop over served pages, all of which but the last tell it to go
    on. *)
Lemma listing_loop_run fetch_all (firsts : list (Response * pydict))
    (lastp : Response * pydict) (built : list (list A)) fuel w c :
  serves_sync w (firsts ++ [lastp])%list →
  Forall2 (page_builds key make) ((firsts ++ [lastp])%list).*2 built →
  (∀ a, a ∈ firsts → fetch_all = true ∧ truthy (page_cursor a.2) = true) →
  fetch_all = false ∨ truthy (page_cursor lastp.2) = false →
  (length firsts < fuel)%nat →
  ∃ w',
    listing_loop fuel self endpoint_of key make fetch_all [] c w
    = Some (Ok (concat built), w')
    ∧ map request_line (sent w')
      = (map request_line (sent w)
         ++ map (λ e, ("GET", api_base self +:+ e))
              (listing_endpoints endpoint_of c ((firsts ++ [lastp])%list).*2))%list
    ∧ length (sent w') = (length (sent w) + S (length firsts))%nat.
Proof.
  intros Hs Hbuilt Hgo Hstop Hfuel.
  rewrite fmap_app in Hbuilt. apply Forall2_app_inv_l in Hbuilt
    as (built1 & built2 & Hb1 & Hb2 & ->).
  simpl in Hb2. apply Forall2_cons_inv_l in Hb2 as (items & ? & Hitems & Hnil & ->).
  apply Forall2_nil_inv_l in Hnil as ->.
  destruct lastp as [r page]. simpl in *.
  assert (Hshape : ∃ fuel', fuel = (length firsts + S fuel')%nat).
  { exists (fuel - S (length firsts))%nat. lia. }
  destruct Hshape as [fuel' ->].
  assert (Hall : firsts = [] ∨ fetch_all = true).
  { destruct firsts as [|a firsts]; [now left | right].
    apply (Hgo a). now left. }
  assert (Hrun : ∃ w1,
    listing_loop (length firsts + S fuel') self endpoint_of key make fetch_all [] c w
    = listing_loop (S fuel') self endpoint_of key make fetch_all
        (concat built1) (fold_left (λ _ p, page_cursor p) firsts.*2 c) w1
    ∧ transport w1 = transport w
    ∧ map request_line (sent w1)
      = (map request_line (sent w)
         ++ map (λ e, ("GET", api_base self +:+ e))
              (listing_endpoints endpoint_of c firsts.*2))%list).
  { destruct Hall as [-> | ->].
    - apply Forall2_nil_inv_l in Hb1 as ->. exists w. simpl.
      rewrite app_nil_r. auto.
    - apply (listing_loop_prefix firsts built1 (S fuel') w [] c Hb1).
      + intros a Ha. now apply Hgo.
      + intros i r0 p0 Hi. apply Hs. now apply lookup_app_l_Some. }
  destruct Hrun as (w1 & Hrun & Htr & Hsent).
  pose proof (sent_length_of_lines w w1 _ Hsent) as Hlen.
  rewrite listing_endpoints_length, length_fmap in Hlen.
  destruct (Hs (length firsts) r page) as [Ht Hr].
  { rewrite lookup_app_r by lia. now rewrite Nat.sub_diag. }
  rewrite <- Htr, <- Hlen in Ht.
  destruct (listing_turn_built fetch_all (concat built1)
              (fold_left (λ _ p, page_cursor p) firsts.*2 c) w1 r page items
              Ht Hr Hitems) as [h Hturn].
  assert (Hend : negb fetch_all || negb (truthy (page_cursor page)) = true).
  { destruct Hstop as [-> | ->]; [reflexivity | apply orb_true_r]. }
  rewrite Hend in Hturn.
  eexists. split; [|split].
  - rewrite Hrun. cbn [listing_loop]. rewrite Hturn.
    rewrite concat_app. simpl. now rewrite app_nil_r.
  - simpl. rewrite map_app. simpl. rewrite Hsent.
    rewrite fmap_app. simpl. rewrite listing_endpoints_app, map_app. simpl.
    now rewrite <- app_assoc.
  - simpl. rewrite length_app. simpl. lia.
Qed.

(** The loop when the page after the going-on pages has an item that is not
    built. *)
Lemma listing_loop_invalid (firsts : list (Response * pydict))
    (r : Response) (page : pydict) (built : list (list A)) elements e fuel w c :
  serves_sync w (firsts ++ [(r, page)])%list →
  Forall2 (page_builds key make) firsts.*2 built →
  (∀ a, a ∈ firsts → truthy (page_cursor a.2) = true) →
  dict_get page key (JArr []) = JArr elements →
  map_result make elements = Raise e →
  (length firsts < fuel)%nat →
  ∃ w',
    listing_loop fuel self endpoint_of key make true [] c w = Some (Raise e, w')
    ∧ length (sent w') = (length (sent w) + S (length firsts))%nat.
Proof.
  intros Hs Hb1 Hgo Hd Hm Hfuel.
  assert (Hshape : ∃ fuel', fuel = (length firsts + S fuel')%nat).
  { exists (fuel - S (length firsts))%nat. lia. }
  destruct Hshape as [fuel' ->].
  destruct (listing_loop_prefix firsts built (S fuel') w [] c Hb1 Hgo)
    as (w1 & Hrun & Htr & Hsent).
  { intros i r0 p0 Hi. apply Hs. now apply lookup_app_l_Some. }
  pose proof (sent_length_of_lines w w1 _ Hsent) as Hlen.
  rewrite listing_endpoints_length, length_fmap in Hlen.
  destruct (Hs (length firsts) r page) as [Ht Hr].
  { rewrite lookup_app_r by lia. now rewrite Nat.sub_diag. }
  rewrite <- Htr, <- Hlen in Ht.
  destruct (listing_turn_invalid true ([] ++ concat built)%list
              (fold_left (λ _ p, page_cursor p) firsts.*2 c) w1 r page elements e
              Ht Hr Hd Hm) as [h Hturn].
  eexists. split.
  - rewrite Hrun. cbn [listing_loop]. rewrite Hturn. reflexivity.
  - simpl. rewrite length_app. simpl. lia.
Qed.

End Listing.

Section Queries.
Context `{PyLib} `{ListingDeps}.
Variable self : t.

Lemma markets_endpoint_rooted series_ticker event_ticker status limit c :
  is_rooted (markets_endpoint series_ticker event_ticker status limit c) = true.
Proof. reflexivity. Qed.

Lemma events_endpoint_rooted series_ticker status limit c :
  is_rooted (events_endpoint series_ticker status limit c) = true.
Proof. reflexivity. Qed.

(** X14: without [fetch_all], [get_markets] is [get_markets_paginated]
    without the cursor, and [get_events] is [get_events_paginated] without
    the cursor: same request, same list or same exception, same effects,
    although the two read the cursor and build the items in opposite
    orders. *)
Theorem first_page_is_paginated (fuel : nat)
    (series_ticker event_ticker status_filter : option string) (status : string)
    (limit : Z) (cursor : option string) (w : World) :
  get_markets (S fuel) self series_ticker event_ticker status limit cursor false w
  = Some (items_only
            (get_markets_paginated self series_ticker event_ticker status limit
               cursor w))
  ∧ get_events (S fuel) self series_ticker status_filter limit cursor false w
    = Some (items_only
              (get_events_paginated self series_ticker status_filter limit
                 cursor w)).
Proof.
  unfold get_markets, get_markets_paginated, get_events, get_events_paginated.
  split; apply listing_loop_first_page.
Qed.



(** X17: when a market of some page is not built, [get_markets] with
    [fetch_all] raises what the constructor raised, right after the request
    for that page: the markets of the pages before are not returned and no
    later page is requested. *)
Theorem get_markets_fails_on_invalid_market
    (series_ticker event_ticker : option string) (status : string) (limit : Z)
    (cursor : option string) (firsts : list (Response * pydict))
    (r : Response) (page : pydict) (built : list (list Market))
    (elements : list json) (e : exn) (fuel : nat) (w : World) :
  serves_sync w (firsts ++ [(r, page)])%list →
  Forall2 (page_builds "markets" (new_market self)) firsts.*2 built →
  (∀ a, a ∈ firsts → truthy (page_cursor a.2) = true) →
  dict_get page "markets" (JArr []) = JArr elements →
  map_result (new_market self) elements = Raise e →
  (length firsts < fuel)%nat →
  ∃ w',
    get_markets fuel self series_ticker event_ticker status limit cursor true w
    = Some (Raise e, w')
    ∧ length (sent w') = (length (sent w) + S (length firsts))%nat.
Proof.
  intros Hs Hbuilt Hgo Hd Hm Hfuel. unfold get_markets.
  eapply listing_loop_invalid; eauto using markets_endpoint_rooted.
Qed.

Lemma built_pages (pages : list (Response * pydict)) :
  (∀ a, a ∈ pages → ∃ items, page_builds "markets" (new_market self) a.2 items) →
  ∃ built, Forall2 (page_builds "markets" (new_market self)) pages.*2 built.
Proof.
  induction pages as [|a pages IH]; intros Hall.
  - exists []. constructor.
  - destruct (Hall a) as [items Hitems]; [now left|].
    destruct IH as [built Hbuilt]; [intros b Hb; apply Hall; now right|].
    exists (items :: built). now constructor.
Qed.

(** X18: [get_markets] with [fetch_all] has no bound on the number of
    pages: as long as every answer is a page with a truthy cursor (for
    instance a server that repeats its cursor), the loop does not end,
    however many turns it is given. *)
Theorem get_markets_runs_while_cursors_come
    (series_ticker event_ticker : option string) (status : string) (limit : Z)
    (cursor : option string) (pages : nat → Response * pydict) (w : World) :
  (∀ i, transport w (length (sent w) + i) = Responds (pages i).1
        ∧ _handle_response (pages i).1 = Ok (JObj (pages i).2)
        ∧ (∃ items, page_builds "markets" (new_market self) (pages i).2 items)
        ∧ truthy (page_cursor (pages i).2) = true) →
  ∀ fuel,
    get_markets fuel self series_ticker event_ticker status limit cursor true w
    = None.
Proof.
  intros Hpages fuel. unfold get_markets.
  set (firsts := map pages (seq 0 fuel)).
  assert (Hin : ∀ a, a ∈ firsts → ∃ i, a = pages i).
  { intros a Ha. apply list_elem_of_fmap in Ha as (i & -> & _). now exists i. }
  destruct (built_pages firsts) as [built Hbuilt].
  { intros a Ha. destruct (Hin a Ha) as [i ->]. apply Hpages. }
  destruct (listing_loop_prefix self
              (markets_endpoint series_ticker event_ticker status limit)
              "markets" (new_market self)
              (markets_endpoint_rooted series_ticker event_ticker status limit)
              firsts built 0%nat w [] (opt_json cursor) Hbuilt)
    as (w' & Hloop & _).
  - intros a Ha. destruct (Hin a Ha) as [i ->]. apply Hpages.
  - intros i r page Hi. subst firsts. rewrite list_lookup_fmap in Hi.
    destruct (seq 0 fuel !! i) as [j|] eqn:Hj; [|discriminate].
    apply lookup_seq in Hj as [-> _]. simpl in Hi.
    destruct (Hpages i) as (Ht & Hr & _).
    destruct (pages i) as [r' page']. injection Hi as <- <-. now split.
  - subst firsts. rewrite length_map, length_seq, Nat.add_0_r in Hloop.
    rewrite Hloop. reflexivity.
Qed.

End Queries.

(** X19: when the transport answers with a page whose markets are built,
    [Event.get_markets] makes one request, for the open markets of the
    event's ticker with a limit of 100 (without the ticker filter when the
    event's ticker is the empty string), and returns the markets of that
    page, whatever cursor the page carries: a following page is never
    requested. *)
Theorem event_get_markets_first_page_only `{PyLib} `{ListingDeps} (fuel : nat)
    (event : Event.t) (r : Response) (page : pydict) (markets : list Market)
    (w : World) :
  serves_sync w [(r, page)] →
  page_builds "markets" (new_market (Event.client event)) page markets →
  ∃ w',
    Event_get_markets (S fuel) event w = Some (Ok markets, w')
    ∧ map request_line (sent w')
      = (map request_line (sent w)
         ++ [("GET", api_base (Event.client event)
                     +:+ (if String.eqb (Event.event_ticker event) ""
                          then "/markets?status=open&limit=100"
                          else "/markets?status=open&limit=100&event_ticker="
                               +:+ Event.event_ticker event))])%list.
Proof.
  intros Hs Hbuilt. unfold Event_get_markets, get_markets.
  destruct (listing_loop_run (Event.client event)
              (markets_endpoint None (Some (Event.event_ticker event)) "open" 100)
              "markets" (new_market (Event.client event))
              (markets_endpoint_rooted None (Some (Event.event_ticker event))
                 "open" 100)
              false [] (r, page) [markets] (S fuel) w (opt_json None))
    as (w' & Hrun & Hsent & _).
  - exact Hs.
  - simpl. constructor; [exact Hbuilt | constructor].
  - intros a Ha. now apply elem_of_nil in Ha.
  - now left.
  - simpl. lia.
  - exists w'. simpl in Hrun. rewrite app_nil_r in Hrun. split; [exact Hrun|].
    rewrite Hsent. simpl. do 3 f_equal.
    unfold markets_endpoint, append_if_set. simpl.
    destruct (String.eqb (Event.event_ticker event) ""); reflexivity.
Qed.


Lemma sample_serves_market_pages :
  serves_sync (world_of transport_two_market_pages)
    [(ok_response (JObj markets_page_one), markets_page_one);
     (ok_response (JObj markets_page_two), markets_page_two)].
Proof.
  intros i r page Hi.
  destruct i as [|[|i]]; simpl in Hi; try discriminate Hi;
    injection Hi as <- <-; split; reflexivity.
Defined.

Lemma sample_market_pages_built :
  Forall2 (page_builds "markets" (@new_market sample_deps sample_client))
    [markets_page_one; markets_page_two]
    [[[("ticker", JStr "A")]; [("ticker", JStr "B")]]; [[("ticker", JStr "C")]]].
Proof.
  repeat constructor; eexists; split; reflexivity.
Defined.


Lemma sample_serves_event_pages :
  serves_sync (world_of transport_two_event_pages)
    [(ok_response (JObj events_page_one), events_page_one);
     (ok_response (JObj events_page_two), events_page_two)].
Proof.
  intros i r page Hi.
  destruct i as [|[|i]]; simpl in Hi; try discriminate Hi;
    injection Hi as <- <-; split; reflexivity.
Defined.


Lemma sample_serves_invalid_page :
  serves_sync (world_of transport_invalid_second_page)
    [(ok_response (JObj markets_page_one), markets_page_one);
     (ok_response (JObj markets_page_invalid), markets_page_invalid)].
Proof.
  intros i r page Hi.
  destruct i as [|[|i]]; simpl in Hi; try discriminate Hi;
    injection Hi as <- <-; split; reflexivity.
Defined.

Lemma get_markets_fails_on_invalid_market_witness :
  ∃ w',
    @get_markets sample_lib sample_deps 2 sample_client None None "open" 100
      None true (world_of transport_invalid_second_page)
    = Some (Raise ValueError, w')
    ∧ length (sent w') = 2%nat.
Proof.
  destruct (@get_markets_fails_on_invalid_market sample_lib sample_deps
              sample_client None None "open" 100 None
              [(ok_response (JObj markets_page_one), markets_page_one)]
              (ok_response (JObj markets_page_invalid)) markets_page_invalid
              [[[("ticker", JStr "A")]; [("ticker", JStr "B")]]]
              [JObj [("ticker", JStr "C")]; JNum 1] ValueError
              2%nat (world_of transport_invalid_second_page))
    as (w' & Hrun & Hlen).
  - exact sample_serves_invalid_page.
  - repeat constructor; eexists; split; reflexivity.
  - intros a Ha. apply list_elem_of_singleton in Ha. subst a. reflexivity.
  - reflexivity.
  - reflexivity.
  - simpl. lia.
  - exists w'. split; [exact Hrun | exact Hlen].
Defined.

Lemma get_markets_runs_while_cursors_come_witness :
  @get_markets sample_lib sample_deps 7 sample_client None None "open" 100
    None true (world_of transport_same_page) = None.
Proof.
  apply (@get_markets_runs_while_cursors_come sample_lib sample_deps
           sample_client None None "open" 100 None
           (λ _, (ok_response (JObj markets_page_one), markets_page_one))
           (world_of transport_same_page)).
  intros i. split; [reflexivity|]. split; [reflexivity|].
  split; [|reflexivity].
  exists [[("ticker", JStr "A")]; [("ticker", JStr "B")]].
  eexists. split; reflexivity.
Defined.

Lemma event_get_markets_first_page_only_witness :
  ∃ w',
    @Event_get_markets sample_lib sample_deps 1 sample_event
      (world_of transport_two_market_pages)
    = Some (Ok [[("ticker", JStr "A")]; [("ticker", JStr "B")]], w')
    ∧ map request_line (sent w')
      = [("GET", "https://api.elections.kalshi.com/trade-api/v2/markets?status=open&limit=100&event_ticker=E1")].
Proof.
  destruct (@event_get_markets_first_page_only sample_lib sample_deps
              0 sample_event
              (ok_response (JObj markets_page_one)) markets_page_one
              [[("ticker", JStr "A")]; [("ticker", JStr "B")]]
              (world_of transport_two_market_pages))
    as (w' & Hrun & Hsent).
  - intros i r page Hi. destruct i as [|i]; simpl in Hi; try discriminate Hi.
    injection Hi as <- <-. split; reflexivity.
  - eexists. split; reflexivity.
  - exists w'. split; [exact Hrun | exact Hsent].
Defined.

End ListingFacts.


(** ** Pagination that does not end well *)

Module PaginationMore.
Import AsyncKalshiClient PipelineFacts PaginationFacts.

Section Run.
Context `{BaseKalshiClient} `{PyLib}.
Variable self : t.
Variable path : string.
Hypothesis retries_nonneg : 0 ≤ max_retries self.
Hypothesis headers_path_ok : ∀ params, headers_ok "GET" (endpoint_for path params).

(** The turns over served pages each of which tells the loop to go on. *)
Lemma paginated_get_loop_prefix response_key l (firsts : list (Response * pydict)) :
  (∀ a, a ∈ firsts → ∃ xs, dict_get a.2 response_key (JArr []) = JArr xs) →
  (∀ a, a ∈ firsts → truthy (page_cursor a.2) = true) →
  ∀ fuel w d all_items,
    heap w !! l = Some d →
    serves w firsts →
    ∃ w' d',
      paginated_get_loop (length firsts + fuel) self path response_key l true
        all_items w
      = paginated_get_loop fuel self path response_key l true
          (all_items ++ concat (map (page_items response_key) firsts.*2))%list w'
      ∧ heap w' !! l = Some d'
      ∧ transport w' = transport w
      ∧ length (sent w') = (length (sent w) + length firsts)%nat.
Proof.
  induction firsts as [|[r page] firsts IH]; intros Hitems Hgo fuel w d all_items Hl Hs.
  - exists w, d. simpl. rewrite app_nil_r, Nat.add_0_r. auto.
  - destruct (Hs 0%nat r page eq_refl) as (Ht & Hr & Hpage).
    rewrite Nat.add_0_r in Ht.
    destruct (Hitems (r, page)) as [xs Hxs]; [now left|]. simpl in Hxs.
    destruct (paginated_get_turn_page self path retries_nonneg headers_path_ok
                response_key l true all_items w d r page xs Hl Ht Hr Hpage Hxs)
      as [h Hturn].
    simpl in Hturn.
    assert (Hcur : truthy (page_cursor page) = true) by (apply (Hgo (r, page)); now left).
    rewrite Hcur in Hturn. simpl in Hturn.
    match type of Hturn with
    | _ = (_, ?W) =>
        destruct (IH (λ a Ha, Hitems a (proj2 (elem_of_cons _ _ _) (or_intror Ha)))
                     (λ a Ha, Hgo a (proj2 (elem_of_cons _ _ _) (or_intror Ha)))
                     fuel W (dict_set d "cursor" (page_cursor page))
                     (all_items ++ xs)%list)
          as (w' & d' & Hloop & Hl' & Htr & Hlen)
    end.
    + simpl. apply lookup_insert_eq.
    + eapply serves_tail; [exact Hs | reflexivity |].
      simpl. rewrite length_app. simpl. lia.
    + exists w', d'. split; [|split; [exact Hl'|split]].
      * change (length ((r, page) :: firsts) + fuel)%nat
          with (S (length firsts + fuel)).
        cbn [paginated_get_loop]. rewrite Hturn, Hloop. simpl.
        unfold page_items at 2. rewrite Hxs. now rewrite <- app_assoc.
      * rewrite Htr. reflexivity.
      * rewrite Hlen. simpl. rewrite length_app. simpl. lia.
Qed.

(** X20: [paginated_get] with [fetch_all] has no bound on the number of
    pages: as long as every answer is a page with a truthy cursor, the loop
    does not end, however many turns it is given. *)
Theorem paginated_get_runs_while_cursors_come (response_key : string)
    (params : positive) (d : pydict) (pages : nat → Response * pydict)
    (w : World) :
  heap w !! params = Some d →
  (∀ i, transport w (length (sent w) + i) = Responds (pages i).1
        ∧ (status_code (pages i).1 ∉ _RETRYABLE_STATUS_CODES)
        ∧ (∀ endpoint, base_handle_response (pages i).1 "GET" endpoint None
                       = Ok (JObj (pages i).2))
        ∧ (∃ xs, dict_get (pages i).2 response_key (JArr []) = JArr xs)
        ∧ truthy (page_cursor (pages i).2) = true) →
  ∀ fuel, paginated_get fuel self path response_key params true w = None.
Proof.
  intros Hp Hpages fuel. unfold paginated_get, dict_copy. rewrite Hp.
  set (firsts := map pages (seq 0 fuel)).
  assert (Hin : ∀ a, a ∈ firsts → ∃ i, a = pages i).
  { intros a Ha. apply list_elem_of_fmap in Ha as (i & -> & _). now exists i. }
  match goal with
  | |- paginated_get_loop fuel _ _ _ ?l _ [] ?W = None =>
      destruct (paginated_get_loop_prefix response_key l firsts) with
        (fuel := 0%nat) (w := W) (d := d) (all_items := @nil json)
        as (w' & d' & Hloop & _)
  end.
  - intros a Ha. destruct (Hin a Ha) as [i ->]. apply Hpages.
  - intros a Ha. destruct (Hin a Ha) as [i ->]. apply Hpages.
  - simpl. apply lookup_insert_eq.
  - intros i r page Hi. subst firsts. rewrite list_lookup_fmap in Hi.
    destruct (seq 0 fuel !! i) as [j|] eqn:Hj; [|discriminate].
    apply lookup_seq in Hj as [-> _]. simpl in Hi.
    destruct (Hpages i) as (Ht & Hr & Hpage & _).
    destruct (pages i) as [r' page']. injection Hi as <- <-. simpl in *. auto.
  - subst firsts. rewrite length_map, length_seq, Nat.add_0_r in Hloop.
    rewrite Hloop. reflexivity.
Qed.

(** X21: when the request for a later page fails (the answer has a final
    status and the response handler raises), [paginated_get] raises that
    exception right after that request: the items of the pages fetched
    before are not returned. *)
Theorem paginated_get_fails_on_later_page (response_key : string)
    (params : positive) (d : pydict) (firsts : list (Response * pydict))
    (r : Response) (e : exn) (fuel : nat) (w : World) :
  heap w !! params = Some d →
  serves w firsts →
  (∀ a, a ∈ firsts → ∃ xs, dict_get a.2 response_key (JArr []) = JArr xs) →
  (∀ a, a ∈ firsts → truthy (page_cursor a.2) = true) →
  transport w (length (sent w) + length firsts) = Responds r →
  status_code r ∉ _RETRYABLE_STATUS_CODES →
  (∀ endpoint, base_handle_response r "GET" endpoint None = Raise e) →
  (length firsts < fuel)%nat →
  ∃ w',
    paginated_get fuel self path response_key params true w = Some (Raise e, w')
    ∧ length (sent w') = (length (sent w) + S (length firsts))%nat.
Proof.
  intros Hp Hs Hitems Hgo Ht Hr He Hfuel.
  unfold paginated_get, dict_copy. rewrite Hp.
  assert (Hshape : ∃ fuel', fuel = (length firsts + S fuel')%nat).
  { exists (fuel - S (length firsts))%nat. lia. }
  destruct Hshape as [fuel' ->].
  match goal with
  | |- ∃ _, paginated_get_loop _ _ _ _ ?l _ [] ?W = _ ∧ _ =>
      destruct (paginated_get_loop_prefix response_key l firsts Hitems Hgo
                  (S fuel') W d [])
        as (w1 & d1 & Hloop & Hl1 & Htr & Hlen)
  end.
  - simpl. apply lookup_insert_eq.
  - exact Hs.
  - simpl in Htr, Hlen. rewrite <- Htr, <- Hlen in Ht.
    destruct (get_first_answer self retries_nonneg (endpoint_for path d1) w1 r
                (headers_path_ok d1) Ht Hr) as [h Hget].
    eexists. split.
    + rewrite Hloop. cbn [paginated_get_loop].
      unfold paginated_get_turn, dict_items, lift.
      unfold mbind at 1, M_bind at 1. rewrite Hl1.
      unfold mbind at 1, M_bind at 1.
      change (match filter (λ kv : string * json, is_None kv.2 = false) d1 with
              | [] => path
              | _ :: _ => path +:+ "?" +:+
                  urlencode (filter (λ kv : string * json, is_None kv.2 = false) d1)
              end) with (endpoint_for path d1).
      rewrite Hget, He. reflexivity.
    + simpl. rewrite length_app. simpl. lia.
Qed.

End Run.

Lemma paginated_get_runs_while_cursors_come_witness :
  @paginated_get sample_base sample_lib 7 (sample_async 3) "/markets" "items"
    1%positive true repeating_world = None.
Proof.
  apply (@paginated_get_runs_while_cursors_come sample_base sample_lib
           (sample_async 3) "/markets" ltac:(simpl; lia) sample_headers_path_ok
           "items" 1%positive caller_params
           (λ _, (ok_response (JObj page_one), page_one)) repeating_world eq_refl).
  intros i. split; [reflexivity|]. split; [exact sample_200_not_retryable|].
  split; [reflexivity|]. split; [eexists; reflexivity | reflexivity].
Defined.

Lemma sample_404_not_retryable :
  status_code not_found ∉ @_RETRYABLE_STATUS_CODES sample_base.
Proof.
  simpl. intros Hin.
  repeat (apply elem_of_cons in Hin as [Hin|Hin]; [discriminate|]).
  now apply elem_of_nil in Hin.
Defined.

Lemma paginated_get_fails_on_later_page_witness :
  ∃ e w',
    @paginated_get sample_base sample_lib 2 (sample_async 3) "/markets" "items"
      1%positive true broken_paging_world = Some (Raise (ApiError e), w')
    ∧ err_class e = ResourceNotFoundError
    ∧ length (sent w') = 2%nat.
Proof.
  destruct (@paginated_get_fails_on_later_page sample_base sample_lib
              (sample_async 3) "/markets" ltac:(simpl; lia) sample_headers_path_ok
              "items" 1%positive caller_params
              [(ok_response (JObj page_one), page_one)] not_found
              (ApiError (mk_api_error ResourceNotFoundError 404
                           (JStr "no such page") JNull))
              2%nat broken_paging_world eq_refl)
    as (w' & Hrun & Hlen).
  - intros i r page Hi. destruct i as [|i]; simpl in Hi; try discriminate Hi.
    injection Hi as <- <-.
    split; [reflexivity | split; [exact sample_200_not_retryable | reflexivity]].
  - intros a Ha. apply list_elem_of_singleton in Ha. subst a. eexists. reflexivity.
  - intros a Ha. apply list_elem_of_singleton in Ha. subst a. reflexivity.
  - reflexivity.
  - exact sample_404_not_retryable.
  - reflexivity.
  - simpl. lia.
  - eexists _, w'. split; [exact Hrun|]. split; [reflexivity | exact Hlen].
Defined.

End PaginationMore.


(** ** Construction of the synchronous client *)

Module InitFacts.
Import KalshiClientInit.

Lemma opt_or_cases (a b : option string) :
  (∃ s, a = Some s ∧ s ≠ "" ∧ opt_or a b = Some s)
  ∨ ((a = None ∨ a = Some "") ∧ opt_or a b = b).
Proof.
  destruct a as [s|]; [|right; split; [now left | reflexivity]].
  destruct s as [|c s].
  - right. split; [now right | reflexivity].
  - left. exists (String c s). repeat split. discriminate.
Qed.

(** X22: a client that [__init__] constructs has a non-empty key id and a
    non-empty base URL; the key id and the key path are the arguments when
    these are non-empty and the environment variables otherwise; the base
    URL is the argument when it is non-empty, whatever [demo] says, and
    otherwise the demo or the production URL according to [demo]; the key
    is the RSA key read from the key path. *)
Theorem init_constructs_usable_client (env : Env)
    (api_key_id private_key_path api_base : option string) (demo : bool)
    (client : KalshiClient.t) :
  __init__ env api_key_id private_key_path api_base demo = Returns client →
  KalshiClient.api_key_id client ≠ ""
  ∧ KalshiClient.api_base client ≠ ""
  ∧ Some (KalshiClient.api_key_id client)
    = opt_or api_key_id (getenv env "KALSHI_API_KEY_ID")
  ∧ (∃ key_path,
       key_path ≠ ""
       ∧ Some key_path
         = opt_or private_key_path (getenv env "KALSHI_PRIVATE_KEY_PATH")
       ∧ read_key env key_path = RSAKey (KalshiClient.private_key client))
  ∧ (∀ base, api_base = Some base → base ≠ "" →
       KalshiClient.api_base client = base)
  ∧ (api_base = None ∨ api_base = Some "" →
       KalshiClient.api_base client
       = if demo then DEMO_API_BASE else DEFAULT_API_BASE).
Proof.
  unfold __init__, _load_private_key.
  destruct (opt_or api_key_id _) as [[|c key_id]|] eqn:Hid; try discriminate.
  destruct (opt_or private_key_path _) as [[|c' key_path]|] eqn:Hpath;
    try discriminate.
  destruct (read_key env (String c' key_path)) as [key| | | |] eqn:Hkey;
    try discriminate.
  intros [= <-]. simpl.
  split; [discriminate|].
  assert (Hbase : ∀ b : option string,
            default "" (opt_or b (Some (if demo then DEMO_API_BASE
                                        else DEFAULT_API_BASE))) ≠ "").
  { intros [[|c0 b]|]; simpl; try discriminate; destruct demo; discriminate. }
  split; [apply Hbase|]. split; [reflexivity|]. split.
  - exists (String c' key_path). repeat split; [discriminate | exact Hkey].
  - split.
    + intros base -> Hne. destruct base; [contradiction | reflexivity].
    + intros [-> | ->]; reflexivity.
Qed.

Lemma init_constructs_usable_client_witness :
  KalshiClient.api_key_id sample_client ≠ ""
  ∧ KalshiClient.api_base sample_client ≠ "".
Proof.
  destruct (init_constructs_usable_client sample_env None None None false
              sample_client eq_refl) as (Hid & Hbase & _).
  split; [exact Hid | exact Hbase].
Defined.

(** X23: [__init__] raises [ValueError] in exactly three situations: no
    non-empty key id is available from the argument and the environment,
    no non-empty key path is, or reading the key file raises [ValueError]
    (as the PEM parser does on data it cannot decode).  In the first two
    the key file is not read at all: the outcome is the same whatever the
    file system holds. *)
Theorem init_checks_before_reading (env : Env)
    (api_key_id private_key_path api_base : option string) (demo : bool) :
  let key_id := opt_or api_key_id (getenv env "KALSHI_API_KEY_ID") in
  let key_path := opt_or private_key_path (getenv env "KALSHI_PRIVATE_KEY_PATH") in
  (__init__ env api_key_id private_key_path api_base demo = RaisesValueError
   ↔ truthy (opt_json key_id) = false
     ∨ truthy (opt_json key_path) = false
     ∨ ∃ path, key_path = Some path ∧ read_key env path = LoaderValueError)
  ∧ (truthy (opt_json key_id) = false ∨ truthy (opt_json key_path) = false →
     ∀ read_key',
       __init__ (mk_env (getenv env) read_key') api_key_id private_key_path
         api_base demo
       = RaisesValueError).
Proof.
  intros key_id key_path. subst key_id key_path.
  unfold __init__, _load_private_key. simpl getenv.
  destruct (opt_or api_key_id _) as [[|c key_id]|];
    destruct (opt_or private_key_path _) as [[|c' key_path]|]; simpl;
    try (split; [split; [now auto | reflexivity] | reflexivity]).
  split.
  - split.
    + destruct (read_key env (String c' key_path)) eqn:Hkey; try discriminate.
      intros _. right. right. now exists (String c' key_path).
    + intros [?|[?|(path & [= <-] & ->)]]; [discriminate | discriminate | reflexivity].
  - intros [?|?]; discriminate.
Qed.

Lemma init_checks_before_reading_witness :
  __init__ (mk_env (λ _, None) (λ _, Unreadable)) (Some "key-id") (Some "")
    None true = RaisesValueError.
Proof.
  apply (proj2 (proj1 (init_checks_before_reading
                         (mk_env (λ _, None) (λ _, Unreadable))
                         (Some "key-id") (Some "") None true))).
  right. left. reflexivity.
Defined.

(** A key file that is not PEM: the parser's [ValueError] comes out of the
    constructor. *)
Example init_malformed_key_file :
  __init__ (mk_env (λ _, None) (λ _, LoaderValueError)) (Some "key-id")
    (Some "key.pem") None false = RaisesValueError.
Proof. reflexivity. Qed.

End InitFacts.


(** ** The RFQ listing *)

Module CommunicationsFacts.
Import AsyncCommunications.

Lemma rfqs_params_present `{CommunicationsDeps}
    market_ticker status mve_collection_ticker limit cursor :
  let params := rfqs_params market_ticker status mve_collection_ticker limit cursor in
  non_absent params = params
  ∧ params ≠ []
  ∧ dict_get params "limit" JNull = JNum limit.
Proof.
  unfold rfqs_params.
  destruct market_ticker as [[|c1 s1]|], status as [[|c2 s2]|],
    mve_collection_ticker as [[|c3 s3]|], cursor as [[|c4 s4]|];
    (split; [reflexivity | split; [discriminate | reflexivity]]).
Qed.

Section Rfqs.
Context `{BaseKalshiClient} `{PyLib} `{CommunicationsDeps}.
Variable self : t.
Hypothesis retries_nonneg : 0 ≤ AsyncKalshiClient.max_retries (_client self).
Hypothesis headers_path_ok :
  ∀ params, headers_ok "GET" (endpoint_for "/communications/rfqs" params).


End Rfqs.

Lemma sample_rfqs_headers_ok params :
  @headers_ok sample_base "GET"
    (@endpoint_for sample_lib "/communications/rfqs" params).
Proof.
  intros now salt. unfold endpoint_for.
  destruct (non_absent params) as [|kv l].
  - eexists. reflexivity.
  - simpl base_headers_at. unfold headers_at.
    rewrite <- (@UrlparseFacts.urlparse_path_without_query sample_lib).
    change (without_query ("/communications/rfqs" +:+ "?"
                           +:+ @urlencode sample_lib (kv :: l)))
      with "/communications/rfqs".
    eexists. reflexivity.
Defined.


Example get_rfqs_sample_requests :
  match @get_rfqs sample_base sample_lib sample_communications 5
          {| _client := sample_async 3 |} (Some "kxmve-1") (Some "") None 100
          None true (world_of transport_two_rfq_pages) with
  | Some (res, w') =>
      res = Ok [JStr "A"; JStr "B"; JStr "C"]
      ∧ map request_line (sent w')
        = [("GET", "https://api.elections.kalshi.com/trade-api/v2/communications/rfqs?limit=100&market_ticker=KXMVE-1");
           ("GET", "https://api.elections.kalshi.com/trade-api/v2/communications/rfqs?limit=100&market_ticker=KXMVE-1&cursor=p2")]
  | None => False
  end.
Proof. vm_compute. repeat split. Qed.

End CommunicationsFacts.
